(** * build_picons: incremental picon build pipeline

    A shallow embedding of [build_picons.py] (the traversal and filter
    engine, the SVG/bitmap source loader, the frame transform, the JSON
    cache and the build planner of [main]) together with the properties
    of the specification that can be stated over it.

    Conventions.
    - A path is the list of its [parts] (pathlib, POSIX flavour), a file
      name is a [string]; a text given on the command line is a list of
      code points where its white space matters.
    - A Python [set] of strings is a [gset string]; a [dict] read from JSON
      is an association list in insertion order, compared with Python's
      order-insensitive [==] ([py_eq]).
    - Code that may raise returns a [res]; code that touches the disk
      threads a [world]. *)

From Stdlib Require Import ZArith Bool List Ascii String QArith.
From stdpp Require Import base decidable option list gmap strings.
Import ListNotations.

Local Open Scope string_scope.
Local Open Scope list_scope.

(* ===================================================================== *)
(** ** Strings and paths (pathlib) *)
(* ===================================================================== *)

Definition dot : ascii := "."%char.
Definition backslash : ascii := "\"%char.
Definition slash : ascii := "/"%char.

(** [str.lower()] restricted to ASCII letters; the other bytes are kept.
    No non-ASCII code point lower-cases to a member of [IMAGE_EXTS]. *)
Definition lower_ascii (c : ascii) : ascii :=
  let n := nat_of_ascii c in
  if (65 <=? n)%nat && (n <=? 90)%nat then ascii_of_nat (n + 32) else c.

Fixpoint lower (s : string) : string :=
  match s with
  | EmptyString => EmptyString
  | String c r => String (lower_ascii c) (lower r)
  end.

(** [name.rfind('.')]: position of the last dot, scanning from [i]. *)
Fixpoint rfind_dot (s : string) (i : nat) (last : option nat) : option nat :=
  match s with
  | EmptyString => last
  | String c r => rfind_dot r (S i) (if Ascii.eqb c dot then Some i else last)
  end.

(** [PurePath.suffix] on the final component:
    [i = name.rfind('.'); name[i:] if 0 < i < len(name) - 1 else ''] *)
Definition suffix_of_name (name : string) : string :=
  match rfind_dot name 0 None with
  | Some i =>
      if (0 <? i)%nat && (i <? String.length name - 1)%nat
      then substring i (String.length name - i) name
      else ""
  | None => ""
  end.

(** [PurePath.name], the empty string for the empty path. *)
Definition name_of (rel : list string) : string := List.last rel "".

Definition suffix (rel : list string) : string := suffix_of_name (name_of rel).

(** [PurePath.parent] of a relative path. *)
Definition parent (rel : list string) : list string := removelast rel.

(** [name.with_suffix(sfx)]: the old suffix, if any, is cut off. *)
Definition name_with_suffix (name sfx : string) : string :=
  let old := suffix_of_name name in
  (substring 0 (String.length name - String.length old) name ++ sfx)%string.

Definition with_suffix (rel : list string) (sfx : string) : list string :=
  parent rel ++ [name_with_suffix (name_of rel) sfx].

(** [s.replace("\\", "/")] *)
Fixpoint replace_backslash (s : string) : string :=
  match s with
  | EmptyString => EmptyString
  | String c r =>
      String (if Ascii.eqb c backslash then slash else c) (replace_backslash r)
  end.

(** [str(rel).replace("\\", "/")] with the POSIX separator. *)
Definition norm_key (rel : list string) : string :=
  replace_backslash (String.concat "/" rel).

(** Split at [/]. *)
Fixpoint split_slash (s : string) (cur : string) : list string :=
  match s with
  | EmptyString => [cur]
  | String c r =>
      if Ascii.eqb c slash then cur :: split_slash r ""
      else split_slash r (cur ++ String c "")%string
  end.

(** The parts [PurePosixPath] reads in a text, the root apart: the text
    is split at [/], and the empty pieces and the pieces [.] are dropped
    (a piece [..] is kept). *)
Definition path_parts (s : string) : list string :=
  List.filter (fun p => negb (String.eqb p "" || String.eqb p "."))
    (split_slash s "").

(** The root [PurePosixPath] reads in a text: none for a relative path,
    [//] for exactly two leading slashes, [/] for one, three or more. *)
Definition path_root (s : string) : option string :=
  match s with
  | String c1 r1 =>
      if Ascii.eqb c1 slash then
        match r1 with
        | String c2 r2 =>
            if Ascii.eqb c2 slash then
              match r2 with
              | String c3 _ => if Ascii.eqb c3 slash then Some "/" else Some "//"
              | EmptyString => Some "//"
              end
            else Some "/"
        | EmptyString => Some "/"
        end
      else None
  | EmptyString => None
  end.

(** [base / s] for a path [base] and a text [s], as parts (the root, if
    any, being the first part, as in [PurePath.parts]): an absolute [s]
    replaces [base]. *)
Definition joinpath (base : list string) (s : string) : list string :=
  match path_root s with
  | Some root => root :: path_parts s
  | None => base ++ path_parts s
  end.

(** Whether a path, given by its parts, starts at a root. *)
Definition is_absolute (p : list string) : bool :=
  match p with
  | r :: _ => String.eqb r "/" || String.eqb r "//"
  | [] => false
  end.

(** [base / p] for two paths: an absolute [p] replaces [base]. *)
Definition path_join (base p : list string) : list string :=
  if is_absolute p then p else base ++ p.

(** What follows [base] in [p], when [p] starts with [base]. *)
Fixpoint strip_prefix (base p : list string) : option (list string) :=
  match base, p with
  | [], _ => Some p
  | b :: base', x :: p' => if String.eqb b x then strip_prefix base' p' else None
  | _ :: _, [] => None
  end.

(** [IMAGE_EXTS] *)
Definition IMAGE_EXTS : gset string :=
  {[ ".png"; ".jpg"; ".jpeg"; ".webp"; ".bmp"; ".tiff"; ".tif"; ".svg" ]}.

(* ===================================================================== *)
(** ** Traversal and filter engine *)
(* ===================================================================== *)

(** [top_level_dir_of]: [None] only for the path without parts. *)
Definition top_level_dir_of (rel : list string) : option string :=
  match rel with
  | [] => None
  | p :: _ => Some p
  end.

(** Truthiness of a Python set. *)
Definition nonempty (s : gset string) : bool := bool_decide (s ≠ ∅).

Definition mem (x : string) (s : gset string) : bool := bool_decide (x ∈ s).

Section Filter.
(** [Path(s).match(pat)] of pathlib, a library function. *)
Variable path_match : string -> string -> bool.

(** [matches_any_pattern] *)
Definition matches_any_pattern (rel : list string) (patterns : gset string) : bool :=
  let s := norm_key rel in
  existsb (path_match s) (elements patterns).

(** The category test of the enumeration loop of [main] (the first
    group of [continue]s): [true] when the loop goes on to the pattern
    test. *)
Definition category_pass (only_set exclude_set match_patterns : gset string)
    (rel : list string) : bool :=
  match top_level_dir_of rel with
  | None =>
      if nonempty only_set && negb (nonempty match_patterns) then false else true
  | Some top =>
      if nonempty only_set && negb (mem top only_set) then false
      else if nonempty exclude_set && mem top exclude_set then false
      else true
  end.

(** The body of the enumeration loop for a file: [true] when the file
    is appended to [to_process]. *)
Definition is_candidate (only_set exclude_set match_patterns : gset string)
    (rel : list string) : bool :=
  if negb (category_pass only_set exclude_set match_patterns rel) then false
  else if nonempty match_patterns && negb (matches_any_pattern rel match_patterns)
  then false
  else if negb (mem (lower (suffix rel)) IMAGE_EXTS) then false
  else true.

(** [out_rel.parent / (prefix + out_rel.name)] for
    [out_rel = rel.with_suffix(".png")]: a prefix that holds a [/] adds
    directories, and one that starts with [/] replaces those of [rel]. *)
Definition out_rel_of (prefix : string) (rel : list string) : list string :=
  let out_rel := with_suffix rel ".png" in
  joinpath (parent out_rel) (prefix ++ name_of out_rel)%string.
End Filter.

(** A model of [PurePath.match] for relative patterns made of literal
    characters, [?] and [*]: the pattern is split at [/] and its parts are
    matched against the last parts of the path, one by one, each with
    [fnmatch].  Bracket classes are not interpreted. *)
Fixpoint fnmatch_fuel (fuel : nat) (pat s : list ascii) : bool :=
  match fuel with
  | O => false
  | S fuel' =>
      match pat, s with
      | [], [] => true
      | [], _ :: _ => false
      | p :: pat', [] =>
          if Ascii.eqb p "*"%char then fnmatch_fuel fuel' pat' [] else false
      | p :: pat', c :: s' =>
          if Ascii.eqb p "*"%char
          then fnmatch_fuel fuel' pat' s || fnmatch_fuel fuel' pat s'
          else if Ascii.eqb p "?"%char then fnmatch_fuel fuel' pat' s'
          else Ascii.eqb p c && fnmatch_fuel fuel' pat' s'
      end
  end.

Definition fnmatch (pat s : string) : bool :=
  let p := list_ascii_of_string pat in
  let l := list_ascii_of_string s in
  fnmatch_fuel (S (List.length p + List.length l)) p l.

Fixpoint match_parts_rev (pats parts : list string) : bool :=
  match pats, parts with
  | [], _ => true
  | _ :: _, [] => false
  | p :: pats', x :: parts' => fnmatch p x && match_parts_rev pats' parts'
  end.

Definition glob_match (s pat : string) : bool :=
  match_parts_rev (rev (split_slash pat "")) (rev (split_slash s "")).


(* ===================================================================== *)
(** ** Exceptions and JSON documents *)
(* ===================================================================== *)

(** The exceptions the modelled code can meet.  [SystemExit] is the only
    one that [except Exception] does not catch.  [ValueError] stands for
    its subclasses too ([UnicodeEncodeError], [json.JSONDecodeError]). *)
Inductive exn :=
| AttributeError | TypeError | ValueError | ZeroDivisionError
| FileNotFoundError | UnidentifiedImageError | OSError
| OverflowError | MemoryError
| RasterizerError | SystemExit.

Definition is_Exception (e : exn) : bool :=
  match e with SystemExit => false | _ => true end.

Inductive res (A : Type) :=
| Ret (a : A)
| Raise (e : exn).
Arguments Ret {A} a.
Arguments Raise {A} e.

Definition res_bind {A B} (r : res A) (k : A -> res B) : res B :=
  match r with Ret a => k a | Raise e => Raise e end.

(** [p.relative_to(base)]: [ValueError] when [p] does not start with
    [base], and when one of the two is absolute and the other is not. *)
Definition relative_to (p base : list string) : res (list string) :=
  if negb (Bool.eqb (is_absolute p) (is_absolute base)) then Raise ValueError
  else
    match strip_prefix base p with
    | Some r => Ret r
    | None => Raise ValueError
    end.

#[local] Set Warnings "-register-all".

(** The values [json.loads] builds, floats left out (the program writes
    none).  A dict keeps its items in insertion order. *)
Inductive JSON :=
| JNull
| JBool (b : bool)
| JInt (n : Z)
| JStr (s : string)
| JList (l : list JSON)
| JDict (kvs : list (string * JSON)).

Fixpoint assoc (k : string) (kvs : list (string * JSON)) : option JSON :=
  match kvs with
  | [] => None
  | (k', v) :: r => if String.eqb k k' then Some v else assoc k r
  end.

(** Python's [==] on these values: [True == 1], lists are compared item by
    item, dicts by size and by the value under each key. *)
Fixpoint py_eq (a b : JSON) {struct a} : bool :=
  match a, b with
  | JNull, JNull => true
  | JBool x, JBool y => Bool.eqb x y
  | JBool x, JInt n => (n =? (if x then 1 else 0))%Z
  | JInt n, JBool x => (n =? (if x then 1 else 0))%Z
  | JInt m, JInt n => (m =? n)%Z
  | JStr s, JStr t => String.eqb s t
  | JList xs, JList ys =>
      (fix go (xs ys : list JSON) : bool :=
         match xs, ys with
         | [], [] => true
         | x :: xs', y :: ys' => py_eq x y && go xs' ys'
         | _, _ => false
         end) xs ys
  | JDict kvs, JDict kvs' =>
      (List.length kvs =? List.length kvs')%nat &&
      (fix go (l : list (string * JSON)) : bool :=
         match l with
         | [] => true
         | (k, v) :: r =>
             match assoc k kvs' with
             | Some v' => py_eq v v'
             | None => false
             end && go r
         end) kvs
  | _, _ => false
  end.

(** [d.get(k, default)]; anything but a dict has no [get]. *)
Definition py_get (d : JSON) (k : string) (default : JSON) : res JSON :=
  match d with
  | JDict kvs => Ret (match assoc k kvs with Some v => v | None => default end)
  | _ => Raise AttributeError
  end.

Fixpoint assoc_set (k : string) (v : JSON) (kvs : list (string * JSON))
  : list (string * JSON) :=
  match kvs with
  | [] => [(k, v)]
  | (k', v') :: r =>
      if String.eqb k k' then (k', v) :: r else (k', v') :: assoc_set k v r
  end.

(** [d[k] = v] with a string key. *)
Definition py_setitem (d : JSON) (k : string) (v : JSON) : res JSON :=
  match d with
  | JDict kvs => Ret (JDict (assoc_set k v kvs))
  | _ => Raise TypeError
  end.

Definition is_None (v : JSON) : bool :=
  match v with JNull => true | _ => false end.

(* ===================================================================== *)
(** ** Configuration *)
(* ===================================================================== *)

Inductive svg_engine := Auto | Cairosvg | Inkscape | Skip.

Definition engine_str (e : svg_engine) : string :=
  match e with
  | Auto => "auto" | Cairosvg => "cairosvg" | Inkscape => "inkscape" | Skip => "skip"
  end.

Inductive mode := All | Changed | Missing.

Definition mode_eqb (a b : mode) : bool :=
  match a, b with
  | All, All | Changed, Changed | Missing, Missing => true
  | _, _ => false
  end.

(** The parameters that enter [cfg_fingerprint]. *)
Record BuildConfig := {
  frame_w : Z;
  frame_h : Z;
  prefix : string;
  allow_upscale : bool;
  engine : svg_engine;
}.

(** [cfg_fingerprint] *)
Definition cfg_fingerprint (c : BuildConfig) : JSON :=
  JDict [ ("frame_w", JInt (frame_w c));
          ("frame_h", JInt (frame_h c));
          ("prefix", JStr (prefix c));
          ("allow_upscale", JBool (allow_upscale c));
          ("svg_engine", JStr (engine_str (engine c)));
          ("version", JInt 2) ].

(** The resolved command line. *)
Record Args := {
  cfg : BuildConfig;
  arg_mode : mode;
  only_set : gset string;
  exclude_set : gset string;
  match_patterns : gset string;
  clean : bool;
  dry_run : bool;
}.

Definition with_mode (m : mode) (a : Args) : Args :=
  {| cfg := cfg a; arg_mode := m; only_set := only_set a;
     exclude_set := exclude_set a; match_patterns := match_patterns a;
     clean := clean a; dry_run := dry_run a |}.

(* ===================================================================== *)
(** ** Images and the frame transform *)
(* ===================================================================== *)

(** A bitmap, as far as the pipeline looks at it: its size, and the
    pastes it received, each as the offset and the size of the pasted
    bitmap.  Pixels are left out. *)
Record image := {
  im_size : Z * Z;
  im_pasted : list ((Z * Z) * (Z * Z));
}.

(** The float operations [fit_into_frame] uses, over any carrier. *)
Class FloatOps (F : Type) := {
  fdiv : Z -> Z -> F;      (* int / int, divisor not zero *)
  fmin : F -> F -> F;      (* min(a, b) *)
  fone : F;                (* 1.0 *)
  fmul : Z -> F -> F;      (* int * float *)
  ftrunc : F -> Z;         (* int(x) *)
}.

(** Exact rationals as a carrier. *)
#[export] Instance Q_FloatOps : FloatOps Q := {
  fdiv a b := Qdiv (inject_Z a) (inject_Z b);
  fmin a b := if Qle_bool a b then a else b;
  fone := 1%Q;
  fmul n x := Qmult (inject_Z n) x;
  ftrunc x := Z.quot (Qnum x) (Zpos (Qden x));
}.

(** Pillow hands a width and a height to its C core as C [int]s. *)
Definition INT_MAX : Z := 2147483647.

Definition c_int (z : Z) : bool :=
  ((- INT_MAX - 1 <=? z) && (z <=? INT_MAX))%Z.

(** Whether Pillow's core finds the storage it needs to make a bitmap of
    a given size. *)
Class Allocator := {
  pil_alloc : Z * Z -> bool;
}.

(** A core that is never short of memory. *)
#[export] Instance Roomy_Allocator : Allocator := {
  pil_alloc := fun _ => true;
}.

(** A core with room for a million pixels. *)
Definition Small_Allocator : Allocator := {|
  pil_alloc := fun size => (fst size * snd size <=? 1000000)%Z;
|}.

Section Bitmaps.
Context {AL : Allocator}.

(** A new bitmap in the core: [MemoryError] when the storage is not
    found. *)
Definition pil_storage (size : Z * Z) : res image :=
  if negb (pil_alloc size) then Raise MemoryError
  else Ret {| im_size := size; im_pasted := [] |}.

(** [Image.new("RGBA", size, (0, 0, 0, 0))]: Pillow refuses a negative
    width or height with [ValueError]; a width or a height that is not a
    C [int] raises [OverflowError] on its way into the core. *)
Definition image_new (size : Z * Z) : res image :=
  if ((fst size <? 0) || (snd size <? 0))%Z then Raise ValueError
  else if negb (c_int (fst size) && c_int (snd size)) then Raise OverflowError
  else pil_storage size.

(** [logo.resize(size, Image.LANCZOS)]: a copy when the size is the one
    the bitmap has; else the size goes into the core as two C [int]s, and
    the core wants a width and a height above zero. *)
Definition resize (logo : image) (size : Z * Z) : res image :=
  if ((fst size =? fst (im_size logo)) && (snd size =? snd (im_size logo)))%Z
  then res_bind (pil_storage size) (fun _ => Ret logo)
  else if negb (c_int (fst size) && c_int (snd size)) then Raise OverflowError
  else if ((fst size <? 1) || (snd size <? 1))%Z then Raise ValueError
  else pil_storage size.
End Bitmaps.

(** [frame.paste(im, box, im)] *)
Definition paste (frame im : image) (box : Z * Z) : image :=
  {| im_size := im_size frame;
     im_pasted := im_pasted frame ++ [(box, im_size im)] |}.

Section Transform.
Context {F : Type} {FO : FloatOps F} {AL : Allocator}.

(** [fit_into_frame] *)
Definition fit_into_frame (logo : image) (frame_size : Z * Z)
    (allow_upscale : bool) : res image :=
  let '(frame_w, frame_h) := frame_size in
  let '(lw, lh) := im_size logo in
  if ((lw =? 0) || (lh =? 0))%Z then Raise ZeroDivisionError
  else
    let scale_w := fdiv frame_w lw in
    let scale_h := fdiv frame_h lh in
    let scale := fmin scale_w scale_h in
    let scale := if negb allow_upscale then fmin scale fone else scale in
    let new_w := Z.max 1 (ftrunc (fmul lw scale)) in
    let new_h := Z.max 1 (ftrunc (fmul lh scale)) in
    res_bind (resize logo (new_w, new_h)) (fun logo_resized =>
    res_bind (image_new (frame_w, frame_h)) (fun frame =>
    let x := ((frame_w - new_w) / 2)%Z in
    let y := ((frame_h - new_h) / 2)%Z in
    Ret (paste frame logo_resized (x, y)))).
End Transform.

(** The size [fit_into_frame] asks [resize] for. *)
Definition scaled_size {F : Type} {FO : FloatOps F} (logo : image)
    (frame_size : Z * Z) (allow_upscale : bool) : Z * Z :=
  let '(frame_w, frame_h) := frame_size in
  let '(lw, lh) := im_size logo in
  let scale_w := fdiv frame_w lw in
  let scale_h := fdiv frame_h lh in
  let scale := fmin scale_w scale_h in
  let scale := if negb allow_upscale then fmin scale fone else scale in
  (Z.max 1 (ftrunc (fmul lw scale)), Z.max 1 (ftrunc (fmul lh scale))).

(* ===================================================================== *)
(** ** The disk *)
(* ===================================================================== *)

(** File contents are byte strings. *)
Definition bytes := string.

(** The cache file, seen through [read_text] and [json.loads]: absent,
    present but not readable as JSON, or holding a document.  What
    [save_cache] writes is read back as the document written. *)
Inductive cache_file :=
| NoFile
| BadFile
| DocFile (d : JSON).

(** The cache path, as [stat] answers for it: a path that can be looked
    up, with the file found there, or a path whose lookup fails with an
    error that is not one of absence (a name too long, a directory that
    may not be searched). *)
Inductive cache_path :=
| Reachable (f : cache_file)
| Unreachable.

(** What [write_text] does with the text of a document: it writes it; or
    it fails with [e], after opening the file and so emptying it
    ([opened]: a text UTF-8 cannot encode, a full disk), or before (a
    file that may not be written). *)
Inductive write_outcome :=
| Written
| WriteFails (opened : bool) (e : exn).

(** Calls that change the disk. *)
Inductive fs_write :=
| WRmtree
| WMkdir (dir : list string)
| WImage (out : list string)
| WCache
| WTmpCreate (p : list string)
| WTmpUnlink (p : list string).

Inductive reason := RAll | RNew | RConfigChanged | RMissingOut | RContentChanged.

(** The lines [main] prints before its summary; a BUILD line shows the
    reason, the relative path of the source and the output path as seen
    from the output directory. *)
Inductive line :=
| LClean
| LForced
| LBuild (r : reason) (rel out : list string)
| LSkip (rel : list string).

(** The output directory (whether it exists, the cache file, the output
    files, each by the path the run derives for it: from the output
    directory or, under an absolute prefix, from the root), the rasterizer
    temporaries of the input tree, the write calls made so far and the
    lines printed so far.  The cache path of a world can be looked up
    ([Reachable]); the input tree and the output directory are apart. *)
Record world := {
  w_outdir : bool;
  w_cache : cache_file;
  w_outputs : gset (list string);
  w_tmp : gmap (list string) bytes;
  w_log : list fs_write;
  w_stdout : list line;
}.

Definition M (A : Type) : Type := world -> res A * world.

Definition ret {A} (a : A) : M A := fun w => (Ret a, w).
Definition raise {A} (e : exn) : M A := fun w => (Raise e, w).
Definition lift {A} (r : res A) : M A := fun w => (r, w).

Definition bind {A B} (m : M A) (k : A -> M B) : M B :=
  fun w =>
    match m w with
    | (Ret a, w') => k a w'
    | (Raise e, w') => (Raise e, w')
    end.

Notation "x <- m ;; k" := (bind m (fun x => k))
  (at level 20, m at level 99, k at level 200, only parsing).
Notation "m ;;; k" := (bind m (fun _ => k))
  (at level 100, k at level 200, right associativity, only parsing).

(** [try: m  except Exception as e: h e] *)
Definition try_except {A} (m : M A) (h : exn -> M A) : M A :=
  fun w =>
    match m w with
    | (Ret a, w') => (Ret a, w')
    | (Raise e, w') => if is_Exception e then h e w' else (Raise e, w')
    end.

Definition print (l : line) : M unit := fun w =>
  (Ret tt, {| w_outdir := w_outdir w; w_cache := w_cache w;
              w_outputs := w_outputs w; w_tmp := w_tmp w;
              w_log := w_log w; w_stdout := w_stdout w ++ [l] |}).

(** [shutil.rmtree(output_dir, ignore_errors=True)] *)
Definition rmtree_output : M unit := fun w =>
  (Ret tt, {| w_outdir := false; w_cache := NoFile; w_outputs := ∅;
              w_tmp := w_tmp w; w_log := w_log w ++ [WRmtree];
              w_stdout := w_stdout w |}).

(** [dir.mkdir(parents=True, exist_ok=True)] for a directory at or below
    [output_dir]. *)
Definition mkdir_output (dir : list string) : M unit := fun w =>
  (Ret tt, {| w_outdir := true; w_cache := w_cache w; w_outputs := w_outputs w;
              w_tmp := w_tmp w; w_log := w_log w ++ [WMkdir dir];
              w_stdout := w_stdout w |}).

Definition write_output (out : list string) : M unit := fun w =>
  (Ret tt, {| w_outdir := w_outdir w; w_cache := w_cache w;
              w_outputs := {[out]} ∪ w_outputs w;
              w_tmp := w_tmp w; w_log := w_log w ++ [WImage out];
              w_stdout := w_stdout w |}).

Definition write_tmp (p : list string) (b : bytes) : M unit := fun w =>
  (Ret tt, {| w_outdir := w_outdir w; w_cache := w_cache w;
              w_outputs := w_outputs w;
              w_tmp := <[p := b]> (w_tmp w); w_log := w_log w ++ [WTmpCreate p];
              w_stdout := w_stdout w |}).

(** [p.unlink(missing_ok=True)] *)
Definition unlink_tmp (p : list string) : M unit := fun w =>
  (Ret tt, {| w_outdir := w_outdir w; w_cache := w_cache w;
              w_outputs := w_outputs w;
              w_tmp := delete p (w_tmp w); w_log := w_log w ++ [WTmpUnlink p];
              w_stdout := w_stdout w |}).

(** [save_cache], given what [write_text] does with the text of
    [data]. *)
Definition save_cache (o : write_outcome) (data : JSON) : M unit := fun w =>
  match o with
  | Written =>
      (Ret tt, {| w_outdir := w_outdir w; w_cache := DocFile data;
                  w_outputs := w_outputs w;
                  w_tmp := w_tmp w; w_log := w_log w ++ [WCache];
                  w_stdout := w_stdout w |})
  | WriteFails true e =>
      (Raise e, {| w_outdir := w_outdir w; w_cache := BadFile;
                   w_outputs := w_outputs w;
                   w_tmp := w_tmp w; w_log := w_log w ++ [WCache];
                   w_stdout := w_stdout w |})
  | WriteFails false e => (Raise e, w)
  end.

(** [abs_out.exists()] *)
Definition mem_out (out : list string) (w : world) : bool :=
  bool_decide (out ∈ w_outputs w).

(** [json.loads(cache_path.read_text(encoding="utf-8"))] on a path that
    exists. *)
Definition read_json (f : cache_file) : res JSON :=
  match f with
  | DocFile d => Ret d
  | BadFile => Raise ValueError
  | NoFile => Raise FileNotFoundError
  end.

(** [cache_path.exists()]: [Path.exists] answers [False] when [stat]
    reports absence and lets any other [OSError] of [stat] through. *)
Definition cache_exists (p : cache_path) : res bool :=
  match p with
  | Reachable NoFile => Ret false
  | Reachable _ => Ret true
  | Unreachable => Raise OSError
  end.

(** [json.loads(cache_path.read_text(encoding="utf-8"))] *)
Definition read_json_at (p : cache_path) : res JSON :=
  match p with
  | Reachable f => read_json f
  | Unreachable => Raise OSError
  end.

(** [load_cache] on a cache path: the test of existence stands before
    the [try]. *)
Definition load_cache_at (p : cache_path) : res JSON :=
  res_bind (cache_exists p) (fun found =>
  if found then
    match read_json_at p with
    | Ret d => Ret d
    | Raise e => if is_Exception e then Ret (JDict []) else Raise e
    end
  else Ret (JDict [])).

(** [load_cache] in a world. *)
Definition load_cache : M JSON :=
  fun w => lift (load_cache_at (Reachable (w_cache w))) w.

(* ===================================================================== *)
(** ** The surroundings of a run *)
(* ===================================================================== *)

(** What Pillow makes of a file: a bitmap, [UnidentifiedImageError],
    [FileNotFoundError] (the file is gone by now), or another error, an
    [OSError] here. *)
Inductive pil_result :=
| PilImage (img : image)
| PilUnidentified
| PilNotFound
| PilError.

(** What a rasterizer call does: the bytes it leaves in its output file,
    if any, and whether it raises. *)
Record rast_outcome := {
  ro_written : option bytes;
  ro_raises : bool;
}.

(** An item of [input_dir.rglob("*")]. *)
Record entry := {
  e_rel : list string;
  e_is_dir : bool;
  e_bytes : bytes;
}.

(** The input tree, which a run only reads, and the library and tool
    calls the pipeline relies on. *)
Record env := {
  tree : list entry;                        (* rglob, in traversal order *)
  input_ok : bool;                          (* input_dir.exists() and is_dir() *)
  output_dir : list string;                 (* args.output_dir.parts *)
  sha1_hex : bytes -> string;               (* hashlib.sha1(...).hexdigest() *)
  pil_open : bytes -> pil_result;           (* Image.open(...).convert("RGBA") *)
  cairosvg_svg2png : bytes -> rast_outcome;
  which_inkscape : bool;                    (* shutil.which("inkscape") *)
  inkscape_export : bytes -> rast_outcome;
  png_save_ok : list string -> bool;        (* picon.save(...) does not raise *)
  cache_write : JSON -> write_outcome;      (* cache_path.write_text(json.dumps(...)) *)
  path_match : string -> string -> bool;    (* Path(s).match(pat) *)
}.

Definition engine_eqb (a b : svg_engine) : bool :=
  match a, b with
  | Auto, Auto | Cairosvg, Cairosvg | Inkscape, Inkscape | Skip, Skip => true
  | _, _ => false
  end.

Definition engine_in (e : svg_engine) (l : list svg_engine) : bool :=
  existsb (engine_eqb e) l.

(** The summary [main] prints at its end. *)
Record summary := {
  s_total : nat;
  s_ok : nat;
  s_skipped : nat;
  s_mode : mode;
}.

(** The local variables of the build loop. *)
Record locals := {
  files_cache : JSON;
  total : nat;
  ok : nat;
  skipped : nat;
}.

(* ===================================================================== *)
(** ** Source loader, build planner and [main] *)
(* ===================================================================== *)

Section Pipeline.
Context {F : Type} {FO : FloatOps F} {AL : Allocator}.
Variable E : env.

(** [rasterize_svg_with_cairosvg] and [rasterize_svg_with_inkscape]:
    the tool may leave a file and may raise. *)
Definition run_rasterizer (o : rast_outcome) (out_png : list string) : M unit :=
  (match ro_written o with
   | Some b => write_tmp out_png b
   | None => ret tt
   end) ;;;
  if ro_raises o then raise RasterizerError else ret tt.

(** [_load_tmp] of [open_image_any] *)
Definition load_tmp (tmp_png : list string) : M image :=
  fun w =>
    match w_tmp w !! tmp_png with
    | None => raise FileNotFoundError w
    | Some b =>
        match pil_open E b with
        | PilImage img => (unlink_tmp tmp_png ;;; ret img) w
        | PilUnidentified => raise UnidentifiedImageError w
        | PilNotFound => raise FileNotFoundError w
        | PilError => raise OSError w
        end
    end.

(** [open_image_any] for the file [rel] of the input tree holding
    [data].  In the SVG part [Some r] stands for [return r] and [None]
    for going on to the next statement.  The diagnostic prints are left
    out. *)
Definition open_image_any (rel : list string) (data : bytes) (eng : svg_engine)
  : M (option image) :=
  let ext := lower (suffix rel) in
  if String.eqb ext ".svg" then
    let tmp_png := with_suffix rel ".tmp._rasterized.png" in
    if engine_eqb eng Skip then ret None
    else
      r <- (if engine_in eng [Auto; Cairosvg] then
              try_except
                (run_rasterizer (cairosvg_svg2png E data) tmp_png ;;;
                 img <- load_tmp tmp_png ;;
                 ret (Some (Some img)))
                (fun _ => if engine_eqb eng Cairosvg then ret (Some None)
                          else ret None)
            else ret None) ;;
      match r with
      | Some result => ret result
      | None =>
          if engine_in eng [Auto; Inkscape] then
            if negb (which_inkscape E) then ret None
            else
              try_except
                (run_rasterizer (inkscape_export E data) tmp_png ;;;
                 img <- load_tmp tmp_png ;;
                 ret (Some img))
                (fun _ => ret None)
          else ret None
      end
  else
    match pil_open E data with
    | PilImage img => ret (Some img)
    | PilUnidentified | PilNotFound => ret None
    | PilError => raise OSError
    end.

(** [process_one] *)
Definition process_one (rel : list string) (data : bytes) (out : list string)
    (frame_size : Z * Z) (allow_up : bool) (eng : svg_engine) : M bool :=
  img <- open_image_any rel data eng ;;
  match img with
  | None => ret false
  | Some img =>
      picon <- lift (fit_into_frame img frame_size allow_up) ;;
      mkdir_output (parent out) ;;;
      if png_save_ok E out then write_output out ;;; ret true
      else ret false
  end.

(** The enumeration loop of [main]: the files appended to
    [to_process], each with its output path, written from [output_dir]
    (from the root when the prefix starts with a slash: [abs_out] is
    [path_join (output_dir E) out]). *)
Definition to_process (a : Args) : list (entry * list string) :=
  flat_map (fun e =>
    if e_is_dir e then []
    else if is_candidate (path_match E) (only_set a) (exclude_set a)
              (match_patterns a) (e_rel e)
    then [(e, out_rel_of (prefix (cfg a)) (e_rel e))]
    else []) (tree E).

(** The decision of the build loop for one file: [do_build] and
    [reason] as they stand before [if do_build:]. *)
Definition decide (m : mode) (fp : JSON) (fc : JSON) (key : string)
    (src_hash : string) (out_exists : bool) : res (bool * reason) :=
  if mode_eqb m All then Ret (true, RAll)
  else
    res_bind (py_get fc key JNull) (fun ent =>
    res_bind
      (if is_None ent then Ret (true, RNew)
       else
         res_bind (py_get ent "cfg" JNull) (fun ecfg =>
         if negb (py_eq ecfg fp) then Ret (true, RConfigChanged)
         else if mode_eqb m Missing && negb out_exists then Ret (true, RMissingOut)
         else if mode_eqb m Changed then
           res_bind (py_get ent "src_sha1" JNull) (fun sh =>
           if negb (py_eq sh (JStr src_hash)) then Ret (true, RContentChanged)
           else Ret (false, RAll))
         else Ret (false, RAll)))
      (fun d =>
         if negb (fst d) && negb out_exists && negb (mode_eqb m Changed)
         then Ret (true, RMissingOut)
         else Ret d)).

(** [abs_out.relative_to(output_dir)], as the BUILD line shows it. *)
Definition shown_path (out : list string) : res (list string) :=
  relative_to (path_join (output_dir E) out) (output_dir E).

(** One turn of the build loop. *)
Definition loop_body (a : Args) (m : mode) (c : entry * list string)
    (ls : locals) : M locals :=
  let '(e, out) := c in
  let fp := cfg_fingerprint (cfg a) in
  let total' := S (total ls) in
  let key := norm_key (e_rel e) in
  fun w =>
    (d <- lift (decide m fp (files_cache ls) key (sha1_hex E (e_bytes e))
                  (mem_out out w)) ;;
     if fst d then
       shown <- lift (shown_path out) ;;
       print (LBuild (snd d) (e_rel e) shown) ;;;
       if negb (dry_run a) then
         ok_flag <- process_one (e_rel e) (e_bytes e) out
                      (frame_w (cfg a), frame_h (cfg a))
                      (allow_upscale (cfg a)) (engine (cfg a)) ;;
         if ok_flag then
           fc <- lift (py_setitem (files_cache ls) key
                         (JDict [("src_sha1", JStr (sha1_hex E (e_bytes e)));
                                 ("cfg", fp)])) ;;
           ret {| files_cache := fc; total := total';
                  ok := S (ok ls); skipped := skipped ls |}
         else
           ret {| files_cache := files_cache ls; total := total';
                  ok := ok ls; skipped := S (skipped ls) |}
       else
         ret {| files_cache := files_cache ls; total := total';
                ok := ok ls; skipped := skipped ls |}
     else
       print (LSkip (e_rel e)) ;;;
       ret {| files_cache := files_cache ls; total := total';
              ok := ok ls; skipped := S (skipped ls) |}) w.

(** [for abs_in, rel_in, abs_out in to_process: ...] *)
Fixpoint build_loop (a : Args) (m : mode) (cs : list (entry * list string))
    (ls : locals) : M locals :=
  match cs with
  | [] => ret ls
  | c :: cs' => ls' <- loop_body a m c ls ;; build_loop a m cs' ls'
  end.

(** The mode the build loop runs under. *)
Definition effective_mode (cache_cfg fp : JSON) (m : mode) : mode :=
  if negb (py_eq cache_cfg fp) && negb (mode_eqb m All) then Changed else m.

(** [if args.clean and output_dir.exists(): ...] *)
Definition clean_step (a : Args) : M unit :=
  fun w =>
    if clean a && w_outdir w
    then (print LClean ;;;
          if negb (dry_run a) then rmtree_output else ret tt) w
    else ret tt w.

(** [main] from the enumeration loop to the summary, with the cache
    document [cache] as loaded and the value [m] of the variable [mode]
    after the override. *)
Definition main_body (a : Args) (m : mode) (cache : JSON) : M summary :=
  let fp := cfg_fingerprint (cfg a) in
  let cands := to_process a in
  fc <- lift (py_get cache "files" (JDict [])) ;;
  ls <- build_loop a m cands
          {| files_cache := fc; total := 0; ok := 0; skipped := 0 |} ;;
  (if negb (dry_run a) then
     cache1 <- lift (py_setitem cache "_config" fp) ;;
     cache2 <- lift (py_setitem cache1 "files" (files_cache ls)) ;;
     mkdir_output [] ;;;
     save_cache (cache_write E cache2) cache2
   else ret tt) ;;;
  ret {| s_total := total ls; s_ok := ok ls; s_skipped := skipped ls;
         s_mode := m |}.

(** [main], from the test of [input_dir] to the summary. *)
Definition main (a : Args) : M summary :=
  if negb (input_ok E) then raise SystemExit
  else
    clean_step a ;;;
    cache <- load_cache ;;
    let fp := cfg_fingerprint (cfg a) in
    cache_cfg <- lift (py_get cache "_config" JNull) ;;
    let m := effective_mode cache_cfg fp (arg_mode a) in
    (if negb (py_eq cache_cfg fp) && negb (mode_eqb (arg_mode a) All)
     then print LForced else ret tt) ;;;
    main_body a m cache.
End Pipeline.

(* ===================================================================== *)
(** ** A small input tree to run the definitions on *)
(* ===================================================================== *)

Definition demo_image : image := {| im_size := (200, 200)%Z; im_pasted := [] |}.

(** Two categories, one PNG and one SVG; CairoSVG writes a raster that
    Pillow reads, Inkscape is not installed. *)
Definition demo_env : env := {|
  tree := [ {| e_rel := ["A"]; e_is_dir := true; e_bytes := "" |};
            {| e_rel := ["A"; "a.png"]; e_is_dir := false; e_bytes := "bytes1" |};
            {| e_rel := ["B"]; e_is_dir := true; e_bytes := "" |};
            {| e_rel := ["B"; "b.svg"]; e_is_dir := false; e_bytes := "bytes2" |} ];
  input_ok := true;
  output_dir := ["out"];
  sha1_hex := fun b => ("sha1-of-" ++ b)%string;
  pil_open := fun b =>
    if String.eqb b "bytes1" || String.eqb b "raster" then PilImage demo_image
    else PilUnidentified;
  cairosvg_svg2png := fun _ => {| ro_written := Some "raster"; ro_raises := false |};
  which_inkscape := false;
  inkscape_export := fun _ => {| ro_written := None; ro_raises := true |};
  png_save_ok := fun _ => true;
  cache_write := fun _ => Written;
  path_match := glob_match;
|}.

(** The same tree when the raster CairoSVG writes cannot be read back. *)
Definition bad_raster_env : env := {|
  tree := tree demo_env;
  input_ok := true;
  output_dir := ["out"];
  sha1_hex := sha1_hex demo_env;
  pil_open := fun b => if String.eqb b "bytes1" then PilImage demo_image else PilError;
  cairosvg_svg2png := fun _ => {| ro_written := Some "raster"; ro_raises := false |};
  which_inkscape := false;
  inkscape_export := inkscape_export demo_env;
  png_save_ok := fun _ => true;
  cache_write := fun _ => Written;
  path_match := glob_match;
|}.

(** The same tree when the text of the cache document cannot be encoded:
    [write_text] opens the cache file, and so empties it, and raises. *)
Definition unencodable_env : env := {|
  tree := tree demo_env;
  input_ok := true;
  output_dir := ["out"];
  sha1_hex := sha1_hex demo_env;
  pil_open := pil_open demo_env;
  cairosvg_svg2png := cairosvg_svg2png demo_env;
  which_inkscape := false;
  inkscape_export := inkscape_export demo_env;
  png_save_ok := fun _ => true;
  cache_write := fun _ => WriteFails true ValueError;
  path_match := glob_match;
|}.

Definition empty_world : world := {|
  w_outdir := false; w_cache := NoFile; w_outputs := ∅; w_tmp := ∅;
  w_log := []; w_stdout := [];
|}.

Definition demo_cfg : BuildConfig := {|
  frame_w := 100%Z; frame_h := 50%Z; prefix := "sxa_";
  allow_upscale := true; engine := Auto;
|}.

(** The same configuration with a wider frame. *)
Definition wide_cfg : BuildConfig := {|
  frame_w := 200%Z; frame_h := 50%Z; prefix := "sxa_";
  allow_upscale := true; engine := Auto;
|}.

(** The cache document a full run with [demo_cfg] over [demo_env] saves. *)
Definition demo_entries : list (string * JSON) :=
  [ ("A/a.png", JDict [("src_sha1", JStr "sha1-of-bytes1");
                       ("cfg", cfg_fingerprint demo_cfg)]);
    ("B/b.svg", JDict [("src_sha1", JStr "sha1-of-bytes2");
                       ("cfg", cfg_fingerprint demo_cfg)]) ].

Definition demo_files : JSON := JDict demo_entries.

Definition demo_cache : JSON :=
  JDict [("_config", cfg_fingerprint demo_cfg); ("files", demo_files)].

(** The output directory after that run. *)
Definition cached_world : world := {|
  w_outdir := true; w_cache := DocFile demo_cache;
  w_outputs := {[ ["A"; "sxa_a.png"]; ["B"; "sxa_b.png"] ]}; w_tmp := ∅;
  w_log := []; w_stdout := [];
|}.

(** The output directory when only [A/a.png] had been there for that
    run. *)
Definition half_entries : list (string * JSON) :=
  [ ("A/a.png", JDict [("src_sha1", JStr "sha1-of-bytes1");
                       ("cfg", cfg_fingerprint demo_cfg)]) ].

Definition half_cached_world : world := {|
  w_outdir := true;
  w_cache := DocFile (JDict [("_config", cfg_fingerprint demo_cfg);
                             ("files", JDict half_entries)]);
  w_outputs := {[ ["A"; "sxa_a.png"] ]}; w_tmp := ∅;
  w_log := []; w_stdout := [];
|}.

Definition demo_args : Args := {|
  cfg := demo_cfg; arg_mode := All; only_set := ∅; exclude_set := ∅;
  match_patterns := ∅; clean := false; dry_run := false;
|}.

(** A later invocation with the wider frame, in mode [missing]. *)
Definition wide_missing_args : Args := {|
  cfg := wide_cfg; arg_mode := Missing; only_set := ∅; exclude_set := ∅;
  match_patterns := ∅; clean := false; dry_run := false;
|}.

(** An output directory whose cache file holds a JSON list. *)
Definition list_cache_world : world := {|
  w_outdir := true; w_cache := DocFile (JList []);
  w_outputs := ∅; w_tmp := ∅; w_log := []; w_stdout := [];
|}.

(** A dry run with [--clean], in mode [all]. *)
Definition dry_clean_args : Args := {|
  cfg := demo_cfg; arg_mode := All; only_set := ∅; exclude_set := ∅;
  match_patterns := ∅; clean := true; dry_run := true;
|}.

(** A dry run with a prefix that starts at the root. *)
Definition rooted_cfg : BuildConfig := {|
  frame_w := 100%Z; frame_h := 50%Z; prefix := "/x_";
  allow_upscale := true; engine := Auto;
|}.

Definition rooted_args : Args := {|
  cfg := rooted_cfg; arg_mode := All; only_set := ∅; exclude_set := ∅;
  match_patterns := ∅; clean := false; dry_run := true;
|}.

(** A tree with the root file [A\b.png] beside the file [b.png] of the
    directory [A], the second holding [data]; Pillow reads both. *)
Definition twin_env (data : bytes) : env := {|
  tree := [ {| e_rel := ["A\b.png"]; e_is_dir := false; e_bytes := "bytes1" |};
            {| e_rel := ["A"]; e_is_dir := true; e_bytes := "" |};
            {| e_rel := ["A"; "b.png"]; e_is_dir := false; e_bytes := data |} ];
  input_ok := true;
  output_dir := ["out"];
  sha1_hex := fun b => ("sha1-of-" ++ b)%string;
  pil_open := fun _ => PilImage demo_image;
  cairosvg_svg2png := fun _ => {| ro_written := None; ro_raises := true |};
  which_inkscape := false;
  inkscape_export := fun _ => {| ro_written := None; ro_raises := true |};
  png_save_ok := fun _ => true;
  cache_write := fun _ => Written;
  path_match := glob_match;
|}.






(* ===================================================================== *)
(** ** Command-line lists and file digests *)
(* ===================================================================== *)

(** A Python [str], as the list of its code points. *)
Definition ustr := list N.

(** The code points of a text of ASCII characters. *)
Definition ustr_of (s : string) : ustr :=
  List.map N_of_ascii (list_ascii_of_string s).

Definition comma : N := 44%N.

(** [c.isspace()] for a code point: tab to carriage return, the
    separators 28 to 31 and the space, then the white space beyond ASCII
    (next line, no-break space, the Unicode spaces and separators). *)
Definition is_space (c : N) : bool :=
  (((9 <=? c) && (c <=? 13)) || ((28 <=? c) && (c <=? 32)) ||
   (c =? 133) || (c =? 160) || (c =? 5760) ||
   ((8192 <=? c) && (c <=? 8202)) || (c =? 8232) || (c =? 8233) ||
   (c =? 8239) || (c =? 8287) || (c =? 12288))%N.

(** [s.lstrip()] *)
Fixpoint lstrip (s : ustr) : ustr :=
  match s with
  | [] => []
  | c :: r => if is_space c then lstrip r else s
  end.

(** [s.rstrip()] *)
Fixpoint rstrip (s : ustr) : ustr :=
  match s with
  | [] => []
  | c :: r =>
      match rstrip r with
      | [] => if is_space c then [] else [c]
      | r' => c :: r'
      end
  end.

(** [s.strip()] *)
Definition strip (s : ustr) : ustr := rstrip (lstrip s).

(** [s.split(",")], with [cur] the piece being read. *)
Fixpoint split_comma (s : ustr) (cur : ustr) : list ustr :=
  match s with
  | [] => [cur]
  | c :: r =>
      if (c =? comma)%N then cur :: split_comma r []
      else split_comma r (cur ++ [c])
  end.

(** [parse_csv_list]: [None] and the empty string give the empty set. *)
Definition parse_csv_list (val : option ustr) : gset ustr :=
  match val with
  | None => ∅
  | Some [] => ∅
  | Some s =>
      list_to_set
        (List.filter (fun x => negb (bool_decide (x = [])))
           (List.map strip (split_comma s [])))
  end.

(** [c in s] for a character. *)
Fixpoint has_char (c : ascii) (s : string) : bool :=
  match s with
  | EmptyString => false
  | String c' r => Ascii.eqb c c' || has_char c r
  end.

(** The first [n] bytes of [s], and what follows them. *)
Fixpoint str_take (n : nat) (s : string) : string :=
  match n, s with
  | S n', String c r => String c (str_take n' r)
  | _, _ => EmptyString
  end.

Fixpoint str_drop (n : nat) (s : string) : string :=
  match n, s with
  | S n', String _ r => str_drop n' r
  | _, _ => s
  end.

(** A [hashlib] hash object: [hashlib.sha1()], [h.update(b)],
    [h.hexdigest()]. *)
Class Hasher (H : Type) := {
  h_new : H;
  h_update : H -> bytes -> H;
  h_hexdigest : H -> string;
}.

(** A hash object that keeps what it was fed. *)
#[export] Instance Log_Hasher : Hasher string := {
  h_new := "";
  h_update h b := (h ++ b)%string;
  h_hexdigest h := h;
}.

Section Digest.
Context {H : Type} {HH : Hasher H}.

(** The [while True:] loop of [sha1_of_file] on a file that still holds
    [data]: [f.read(chunk_size)] takes the next [chunk_size] bytes, an
    empty read ends the loop.  [fuel] bounds the number of reads. *)
Fixpoint read_loop (fuel : nat) (chunk_size : nat) (h : H) (data : bytes) : H :=
  match fuel with
  | O => h
  | S fuel' =>
      let b := str_take chunk_size data in
      match b with
      | EmptyString => h
      | _ => read_loop fuel' chunk_size (h_update h b) (str_drop chunk_size data)
      end
  end.

(** [sha1_of_file] on a file holding [data], for a [chunk_size] that is
    not negative.  A file of [n] bytes is read in at most [n] chunks and
    one empty read. *)
Definition sha1_of_file (data : bytes) (chunk_size : nat) : string :=
  h_hexdigest (read_loop (S (String.length data)) chunk_size h_new data).
End Digest.

(* ===================================================================== *)
(** ** Vocabulary for the statements *)
(* ===================================================================== *)

(** The cache key of a candidate of [to_process]. *)
Definition cand_key (c : entry * list string) : string := norm_key (e_rel (fst c)).

(** A path segment as the file system gives it: not empty, without a
    slash, and here also without a backslash. *)
Definition seg_ok (seg : string) : Prop :=
  seg <> "" /\ has_char slash seg = false /\ has_char backslash seg = false.

Definition path_ok (rel : list string) : Prop := Forall seg_ok rel.

(** The decision of the build loop for the candidate [c] against the
    files dict [fc] and the output files of [w]. *)
Definition decision_of (E : env) (m : mode) (fp fc : JSON) (w : world)
    (c : entry * list string) : res (bool * reason) :=
  decide m fp fc (cand_key c) (sha1_hex E (e_bytes (fst c))) (mem_out (snd c) w).

(** The line the build loop prints for a decision; the BUILD line needs
    the output path as seen from the output directory. *)
Definition line_of (E : env) (c : entry * list string) (d : bool * reason)
  : res line :=
  if fst d then
    res_bind (shown_path E (snd c)) (fun shown =>
    Ret (LBuild (snd d) (e_rel (fst c)) shown))
  else Ret (LSkip (e_rel (fst c))).


(** One attempt of the SVG loader: a rasterizer call, then [_load_tmp]. *)
Definition raster_attempt (E : env) (o : rast_outcome) (tmp : list string)
  : M image :=
  run_rasterizer o tmp ;;; img <- load_tmp E tmp ;; ret img.

(** The state of the disk: everything in the world but the printed
    lines. *)
Definition disk (w : world)
  : bool * cache_file * gset (list string) * gmap (list string) bytes * list fs_write :=
  (w_outdir w, w_cache w, w_outputs w, w_tmp w, w_log w).

(** A computation that leaves a part of the world as it found it. *)
Definition preserves {X A : Type} (proj : world -> X) (m : M A) : Prop :=
  forall w, proj (snd (m w)) = proj w.

(** The document [load_cache] returns for a cache file. *)
Definition cache_doc (f : cache_file) : JSON :=
  match f with
  | DocFile d => d
  | NoFile | BadFile => JDict []
  end.

(** The lines a computation prints when run from [w]. *)
Definition printed {A : Type} (m : M A) (w : world) : list line :=
  drop (List.length (w_stdout w)) (w_stdout (snd (m w))).



(** The line of a candidate decided SKIP. *)
Definition skip_line (c : entry * list string) : line := LSkip (e_rel (fst c)).

(** The cache entry written after a successful build of [c]. *)
Definition entry_of (E : env) (fp : JSON) (c : entry * list string) : JSON :=
  JDict [("src_sha1", JStr (sha1_hex E (e_bytes (fst c)))); ("cfg", fp)].




(** The run of [main a] from [w] returns, under mode [changed], having
    printed, after the notice of [--clean] if any, the SKIP line of every
    candidate and nothing else, and having built nothing. *)
Definition skips_every_candidate {F : Type} {FO : FloatOps F} {AL : Allocator}
    (E : env) (a : Args) (w : world) : Prop :=
  exists s w',
    main E a w = (Ret s, w') /\
    printed (main E a) w =
      (if clean a && w_outdir w then [LClean] else []) ++
      map skip_line (to_process E a) /\
    s_total s = List.length (to_process E a) /\
    s_ok s = 0 /\
    s_skipped s = List.length (to_process E a) /\
    s_mode s = Changed.

(** A second invocation with the configuration and the filters of [a],
    in mode [changed]. *)
Definition rerun_changed (a : Args) (cl dry : bool) : Args :=
  {| cfg := cfg a; arg_mode := Changed; only_set := only_set a;
     exclude_set := exclude_set a; match_patterns := match_patterns a;
     clean := cl; dry_run := dry |}.

(** Pillow can make a bitmap of this size: its sides are C [int]s and
    the core finds the storage. *)
Definition pil_fits {AL : Allocator} (size : Z * Z) : Prop :=
  (fst size <= INT_MAX)%Z /\ (snd size <= INT_MAX)%Z /\ pil_alloc size = true.

(** A write call on the temporary raster [tmp]. *)
Definition tmp_write (tmp : list string) (op : fs_write) : Prop :=
  op = WTmpCreate tmp \/ op = WTmpUnlink tmp.

(** A computation that only adds to the log of write calls, and only
    calls that satisfy [P]. *)
Definition writes_only {A : Type} (P : fs_write -> Prop) (m : M A) : Prop :=
  forall w, exists ops, w_log (snd (m w)) = w_log w ++ ops /\ Forall P ops.

(** [c] is the first or the last code point of [x]. *)
Definition at_end (c : N) (x : ustr) : Prop :=
  head x = Some c \/ last x = Some c.

(* ===================================================================== *)
(** ** Facts about sets, dicts and fingerprints *)
(* ===================================================================== *)

Lemma nonempty_true (s : gset string) : nonempty s = true <-> s ≠ ∅.
Proof. unfold nonempty. apply bool_decide_eq_true. Qed.

Lemma nonempty_false (s : gset string) : nonempty s = false <-> s = ∅.
Proof.
  unfold nonempty. rewrite bool_decide_eq_false.
  split; [apply dec_stable | intros -> H; apply H; reflexivity].
Qed.

Lemma mem_true (x : string) (s : gset string) : mem x s = true <-> x ∈ s.
Proof. unfold mem. apply bool_decide_eq_true. Qed.

Lemma mem_false (x : string) (s : gset string) : mem x s = false <-> x ∉ s.
Proof. unfold mem. apply bool_decide_eq_false. Qed.

Lemma mem_nonempty (x : string) (s : gset string) :
  mem x s = true -> nonempty s = true.
Proof. rewrite mem_true, nonempty_true. set_solver. Qed.

Lemma assoc_set_eq k v kvs : assoc k (assoc_set k v kvs) = Some v.
Proof.
  induction kvs as [|[k' v'] r IH]; simpl.
  - rewrite String.eqb_refl. reflexivity.
  - destruct (String.eqb k k') eqn:Hk; simpl; rewrite Hk; auto.
Qed.

Lemma assoc_set_ne k k' v kvs :
  k <> k' -> assoc k' (assoc_set k v kvs) = assoc k' kvs.
Proof.
  intros Hne. induction kvs as [|[k1 v1] r IH]; simpl.
  - destruct (String.eqb k' k) eqn:Hk; [|reflexivity].
    apply String.eqb_eq in Hk. congruence.
  - destruct (String.eqb k k1) eqn:Hk; simpl.
    + apply String.eqb_eq in Hk. subst k1.
      destruct (String.eqb k' k) eqn:Hk'; [|reflexivity].
      apply String.eqb_eq in Hk'. congruence.
    + rewrite IH. reflexivity.
Qed.

Lemma assoc_set_same k v kvs : assoc k kvs = Some v -> assoc_set k v kvs = kvs.
Proof.
  induction kvs as [|[k' v'] r IH]; simpl; [discriminate |].
  destruct (String.eqb k k'); [intros H; injection H as ->; reflexivity |].
  intros H. rewrite (IH H). reflexivity.
Qed.

Lemma engine_str_inj e1 e2 : engine_str e1 = engine_str e2 -> e1 = e2.
Proof. destruct e1, e2; simpl; intros H; try reflexivity; discriminate H. Qed.

(** Two fingerprints are equal for Python exactly when the
    configurations are the same. *)
Lemma py_eq_fingerprint c0 c :
  py_eq (cfg_fingerprint c0) (cfg_fingerprint c) = true <-> c0 = c.
Proof.
  destruct c0 as [w0 h0 p0 u0 e0], c as [w h p u e].
  unfold cfg_fingerprint; simpl.
  rewrite !andb_true_iff, !Z.eqb_eq, !String.eqb_eq, Bool.eqb_true_iff.
  split.
  - intros (Hw & Hh & Hp & Hu & He & _).
    apply engine_str_inj in He. congruence.
  - intros H. injection H as -> -> -> -> ->. repeat split; reflexivity.
Qed.

Lemma py_eq_fingerprint_refl c :
  py_eq (cfg_fingerprint c) (cfg_fingerprint c) = true.
Proof. apply py_eq_fingerprint. reflexivity. Qed.


Lemma py_eq_None_fingerprint c : py_eq JNull (cfg_fingerprint c) = false.
Proof. reflexivity. Qed.

(* ===================================================================== *)
(** ** Traversal and filter engine: properties *)
(* ===================================================================== *)

(** The cache key is not injective on names that hold a backslash: the
    root file [A\b.png] has the key of [A/b.png]. *)
Lemma norm_key_backslash : norm_key ["A\b.png"] = norm_key ["A"; "b.png"].
Proof. reflexivity. Qed.

Section FilterFacts.
Variable pm : string -> string -> bool.

(** Which files with a top category become candidates. *)
Lemma is_candidate_with_top only excl pats rel top :
  top_level_dir_of rel = Some top ->
  (is_candidate pm only excl pats rel = true <->
    (only = ∅ \/ top ∈ only) /\
    (top ∉ excl) /\
    (pats = ∅ \/ matches_any_pattern pm rel pats = true) /\
    (lower (suffix rel) ∈ IMAGE_EXTS)).
Proof.
  intros Htop. unfold is_candidate, category_pass. rewrite Htop.
  rewrite <- (nonempty_false only), <- (nonempty_false pats).
  rewrite <- (mem_true top only), <- (mem_false top excl).
  rewrite <- (mem_true (lower (suffix rel)) IMAGE_EXTS).
  destruct (mem top excl) eqn:Hx.
  - rewrite (mem_nonempty _ _ Hx).
    destruct (nonempty only), (mem top only); simpl; intuition congruence.
  - rewrite andb_false_r.
    destruct (nonempty only), (mem top only), (nonempty pats),
             (matches_any_pattern pm rel pats),
             (mem (lower (suffix rel)) IMAGE_EXTS); simpl;
      intuition congruence.
Qed.
End FilterFacts.

(** C1 (as amended).  For a file that has a top category, a configured,
    non-empty inclusion set excludes the file when its top category is not
    in the set, whether or not path patterns are configured (and whatever
    the patterns match). *)
Theorem only_set_rule_ignores_patterns
    (pm : string -> string -> bool) (only excl pats : gset string)
    (rel : list string) (top : string) :
  top_level_dir_of rel = Some top ->
  only ≠ ∅ ->
  top ∉ only ->
  is_candidate pm only excl pats rel = false.
Proof.
  intros Htop Hne Hout. apply not_true_is_false. intros Hc.
  apply (is_candidate_with_top pm only excl pats rel top Htop) in Hc.
  destruct Hc as ([He | Hin] & _); [exact (Hne He) | exact (Hout Hin)].
Qed.

Lemma only_set_rule_ignores_patterns_witness :
  top_level_dir_of ["B"; "b.png"] = Some "B" /\
  ({["A"]} : gset string) ≠ ∅ /\
  ("B" ∉ ({["A"]} : gset string)) /\
  is_candidate glob_match {["A"]} ∅ {["*.png"]} ["B"; "b.png"] = false.
Proof.
  assert (H1 : top_level_dir_of ["B"; "b.png"] = Some "B") by reflexivity.
  assert (H2 : ({["A"]} : gset string) ≠ ∅) by (apply nonempty_true; reflexivity).
  assert (H3 : "B" ∉ ({["A"]} : gset string)) by (apply mem_false; reflexivity).
  refine (conj H1 (conj H2 (conj H3 _))).
  exact (only_set_rule_ignores_patterns glob_match {["A"]} ∅ {["*.png"]}
           ["B"; "b.png"] "B" H1 H2 H3).
Defined.

(** C1 (as stated) fails: with the patterns [*.png] configured and the
    inclusion set [{A}], the file [B/b.png] matches a pattern, is in no
    exclusion set and has an allowed extension, and is still left out for
    its top category. *)
Lemma patterns_do_not_lift_only_set :
  ~ (forall (only excl pats : gset string) (rel : list string) (top : string),
       top_level_dir_of rel = Some top ->
       pats ≠ ∅ ->
       matches_any_pattern glob_match rel pats = true ->
       top ∉ excl ->
       lower (suffix rel) ∈ IMAGE_EXTS ->
       is_candidate glob_match only excl pats rel = true).
Proof.
  intros H.
  specialize (H {["A"]} ∅ {["*.png"]} ["B"; "b.png"] "B").
  assert (Hc : is_candidate glob_match {["A"]} ∅ {["*.png"]} ["B"; "b.png"] = true).
  { apply H.
    - reflexivity.
    - apply nonempty_true. reflexivity.
    - vm_compute. reflexivity.
    - apply mem_false. reflexivity.
    - apply mem_true. vm_compute. reflexivity. }
  vm_compute in Hc. discriminate Hc.
Qed.

(** C2 (evaluation).  For a file directly at the root of the input tree
    [top_level_dir_of] gives the file's own name, not [None]: an exclusion
    set that holds the file name removes the file, and an inclusion set
    that holds it keeps the file though no pattern is configured. *)
Theorem root_file_top_is_its_name :
  (forall name : string, top_level_dir_of [name] = Some name) /\
  is_candidate glob_match ∅ {["logo.png"]} ∅ ["logo.png"] = false /\
  is_candidate glob_match {["logo.png"]} ∅ ∅ ["logo.png"] = true.
Proof.
  split; [intros name; reflexivity |].
  split; vm_compute; reflexivity.
Qed.

(* ===================================================================== *)
(** ** Frame transform: properties *)
(* ===================================================================== *)

Lemma pil_storage_fits {AL : Allocator} (size : Z * Z) :
  pil_alloc size = true ->
  pil_storage size = Ret {| im_size := size; im_pasted := [] |}.
Proof. intros H. unfold pil_storage. rewrite H. reflexivity. Qed.

Lemma c_int_fits (z : Z) : (0 <= z)%Z -> (z <= INT_MAX)%Z -> c_int z = true.
Proof.
  intros H0 H1. unfold c_int. apply andb_true_iff.
  split; apply Z.leb_le; unfold INT_MAX in *; lia.
Qed.

Lemma resize_fits {AL : Allocator} (logo : image) (w h : Z) :
  (0 < w)%Z -> (0 < h)%Z -> pil_fits (w, h) ->
  exists r, resize logo (w, h) = Ret r /\ im_size r = (w, h).
Proof.
  intros Hw Hh (Hcw & Hch & Ha). cbn [fst snd] in Hcw, Hch.
  unfold resize. cbn [fst snd]. rewrite (pil_storage_fits _ Ha).
  destruct ((w =? fst (im_size logo)) && (h =? snd (im_size logo)))%Z eqn:Heq.
  - apply andb_true_iff in Heq as [H1 H2].
    apply Z.eqb_eq in H1, H2. exists logo. split; [reflexivity |].
    destruct (im_size logo) as [lw lh]. cbn [fst snd] in H1, H2. congruence.
  - rewrite !c_int_fits by lia. cbn [andb negb].
    destruct (Z.ltb_spec w 1); [lia |].
    destruct (Z.ltb_spec h 1); [lia |]. cbn [orb].
    eexists. split; reflexivity.
Qed.

Lemma image_new_fits {AL : Allocator} (w h : Z) :
  (0 <= w)%Z -> (0 <= h)%Z -> pil_fits (w, h) ->
  image_new (w, h) = Ret {| im_size := (w, h); im_pasted := [] |}.
Proof.
  intros Hw Hh (Hcw & Hch & Ha). cbn [fst snd] in Hcw, Hch.
  unfold image_new. cbn [fst snd].
  destruct (Z.ltb_spec w 0); [lia |].
  destruct (Z.ltb_spec h 0); [lia |]. cbn [orb].
  rewrite !c_int_fits by lia. cbn [andb negb].
  exact (pil_storage_fits _ Ha).
Qed.

(** Whatever [image_new] returns has the size asked for. *)
Lemma image_new_size {AL : Allocator} (size : Z * Z) (frame : image) :
  image_new size = Ret frame -> im_size frame = size /\ im_pasted frame = [].
Proof.
  unfold image_new, pil_storage.
  destruct ((fst size <? 0) || (snd size <? 0))%Z; [discriminate |].
  destruct (negb (c_int (fst size) && c_int (snd size))); [discriminate |].
  destruct (negb (pil_alloc size)); [discriminate |].
  intros H. injection H as <-. split; reflexivity.
Qed.

(** [fit_into_frame] on a bitmap with a width and a height, in terms of
    the size it asks [resize] for. *)
Lemma fit_into_frame_eq {F : Type} {FO : FloatOps F} {AL : Allocator}
    (logo : image) (fw fh : Z) (up : bool) :
  fst (im_size logo) <> 0%Z -> snd (im_size logo) <> 0%Z ->
  fit_into_frame logo (fw, fh) up =
    res_bind (resize logo (scaled_size logo (fw, fh) up)) (fun logo_resized =>
    res_bind (image_new (fw, fh)) (fun frame =>
    Ret (paste frame logo_resized
           (((fw - fst (scaled_size logo (fw, fh) up)) / 2)%Z,
            ((fh - snd (scaled_size logo (fw, fh) up)) / 2)%Z)))).
Proof.
  intros Hlw Hlh. unfold fit_into_frame, scaled_size.
  destruct (im_size logo) as [lw lh]. cbn [fst snd] in Hlw, Hlh.
  destruct (Z.eqb_spec lw 0) as [->|_]; [contradiction |].
  destruct (Z.eqb_spec lh 0) as [->|_]; [contradiction |]. reflexivity.
Qed.

Lemma scaled_size_positive {F : Type} {FO : FloatOps F}
    (logo : image) (fs : Z * Z) (up : bool) :
  (1 <= fst (scaled_size logo fs up))%Z /\ (1 <= snd (scaled_size logo fs up))%Z.
Proof.
  unfold scaled_size. destruct fs as [fw fh], (im_size logo) as [lw lh].
  cbn [fst snd]. split; apply Z.le_max_l.
Qed.

(** C7 (as amended).  For a bitmap of positive width and height and a
    frame of positive width and height, [fit_into_frame] returns an image,
    and its size is the frame's, whatever the float arithmetic gives for
    the scale, provided Pillow can make the two bitmaps it is asked for:
    the resized logo and the frame, each with sides that are C [int]s and
    a storage that is found. *)
Theorem fit_into_frame_has_frame_size
    {F : Type} {FO : FloatOps F} {AL : Allocator}
    (logo : image) (fw fh : Z) (up : bool) :
  (0 < fst (im_size logo))%Z ->
  (0 < snd (im_size logo))%Z ->
  (0 < fw)%Z ->
  (0 < fh)%Z ->
  pil_fits (scaled_size logo (fw, fh) up) ->
  pil_fits (fw, fh) ->
  exists frame : image,
    fit_into_frame logo (fw, fh) up = Ret frame /\ im_size frame = (fw, fh).
Proof.
  intros Hlw Hlh Hfw Hfh Hs Hf.
  rewrite fit_into_frame_eq by lia.
  destruct (scaled_size_positive logo (fw, fh) up) as (H1 & H2).
  destruct (scaled_size logo (fw, fh) up) as [nw nh] eqn:Hsz.
  cbn [fst snd] in *.
  destruct (resize_fits logo nw nh ltac:(lia) ltac:(lia) Hs) as (r & -> & _).
  cbn [res_bind]. rewrite image_new_fits by (try lia; exact Hf).
  cbn [res_bind]. eexists. split; reflexivity.
Qed.

Lemma fit_into_frame_has_frame_size_witness :
  (0 < fst (im_size demo_image))%Z /\
  (0 < snd (im_size demo_image))%Z /\
  (0 < 100)%Z /\ (0 < 50)%Z /\
  pil_fits (scaled_size (F := Q) demo_image (100, 50)%Z false) /\
  pil_fits (100, 50)%Z /\
  exists frame : image,
    fit_into_frame (F := Q) demo_image (100, 50)%Z false = Ret frame /\
    im_size frame = (100, 50)%Z.
Proof.
  assert (H1 : (0 < fst (im_size demo_image))%Z) by (simpl; lia).
  assert (H2 : (0 < snd (im_size demo_image))%Z) by (simpl; lia).
  assert (H3 : (0 < 100)%Z) by lia.
  assert (H4 : (0 < 50)%Z) by lia.
  assert (H5 : pil_fits (scaled_size (F := Q) demo_image (100, 50)%Z false))
    by (vm_compute; repeat split; discriminate).
  assert (H6 : pil_fits (100, 50)%Z)
    by (vm_compute; repeat split; discriminate).
  refine (conj H1 (conj H2 (conj H3 (conj H4 (conj H5 (conj H6 _)))))).
  exact (fit_into_frame_has_frame_size (F := Q) demo_image 100 50 false
           H1 H2 H3 H4 H5 H6).
Defined.

(** [fit_into_frame] on a frame that Pillow cannot make. *)
Lemma fit_into_frame_overflow :
  fit_into_frame (F := Q) (AL := Roomy_Allocator) demo_image
    (2147483648, 50)%Z true = Raise OverflowError.
Proof. vm_compute. reflexivity. Qed.

Lemma fit_into_frame_no_memory :
  fit_into_frame (F := Q) (AL := Small_Allocator) demo_image
    (2000, 2000)%Z true = Raise MemoryError.
Proof. vm_compute. reflexivity. Qed.

(** C7 (as stated) fails: a frame width of [2^31] is positive, and
    [Image.new] raises [OverflowError] for it, even with exact arithmetic
    and a core that is never short of memory; and with a core that is
    short of memory a smaller frame raises [MemoryError]. *)
Lemma frame_that_pillow_cannot_make :
  ~ (forall (logo : image) (fw fh : Z) (up : bool),
       (0 < fst (im_size logo))%Z ->
       (0 < snd (im_size logo))%Z ->
       (0 < fw)%Z ->
       (0 < fh)%Z ->
       exists frame : image,
         fit_into_frame (F := Q) (AL := Roomy_Allocator) logo (fw, fh) up
           = Ret frame /\
         im_size frame = (fw, fh)) /\
  ~ (forall (AL : Allocator) (logo : image) (fw fh : Z) (up : bool),
       (0 < fst (im_size logo))%Z ->
       (0 < snd (im_size logo))%Z ->
       (0 < fw)%Z -> (fw <= INT_MAX)%Z ->
       (0 < fh)%Z -> (fh <= INT_MAX)%Z ->
       exists frame : image,
         fit_into_frame (F := Q) logo (fw, fh) up = Ret frame /\
         im_size frame = (fw, fh)).
Proof.
  split; intros H.
  - destruct (H demo_image 2147483648%Z 50%Z true) as (frame & Hfit & _);
      try (simpl; lia).
    rewrite fit_into_frame_overflow in Hfit. discriminate Hfit.
  - destruct (H Small_Allocator demo_image 2000%Z 2000%Z true)
      as (frame & Hfit & _); try (unfold INT_MAX; simpl; lia).
    rewrite fit_into_frame_no_memory in Hfit. discriminate Hfit.
Qed.

(** Whenever [fit_into_frame] returns, the image has the size of the
    frame; and it raises for a frame with a side that is not a C
    [int]. *)
Lemma fit_into_frame_returned_size
    {F : Type} {FO : FloatOps F} {AL : Allocator}
    (logo : image) (fw fh : Z) (up : bool) (frame : image) :
  fit_into_frame logo (fw, fh) up = Ret frame ->
  im_size frame = (fw, fh) /\ (fw <= INT_MAX)%Z /\ (fh <= INT_MAX)%Z.
Proof.
  unfold fit_into_frame. destruct (im_size logo) as [lw lh].
  destruct ((lw =? 0) || (lh =? 0))%Z; [discriminate |].
  destruct (resize logo _) as [r|e]; [|discriminate]. cbn [res_bind].
  destruct (image_new (fw, fh)) as [fr|e] eqn:Hn; [|discriminate].
  cbn [res_bind]. intros H. injection H as <-.
  destruct (image_new_size _ _ Hn) as (Hsz & _).
  split; [exact Hsz |].
  revert Hn. unfold image_new. cbn [fst snd].
  destruct ((fw <? 0) || (fh <? 0))%Z; [discriminate |].
  destruct (c_int fw && c_int fh) eqn:Hc; [|discriminate].
  intros _. apply andb_true_iff in Hc as [Hw Hh].
  unfold c_int in Hw, Hh.
  apply andb_true_iff in Hw as [_ Hw]. apply andb_true_iff in Hh as [_ Hh].
  apply Z.leb_le in Hw, Hh. auto.
Qed.

(* ===================================================================== *)
(** ** Cache store: properties *)
(* ===================================================================== *)

(** C8 (evaluation).  On a cache path that can be looked up,
    [load_cache] returns the document of a readable file, and the empty
    dict when the file is missing or cannot be read as JSON.  On a cache
    path whose lookup fails with an error other than absence, where there
    is no cache file to read, [cache_path.exists()] raises before the
    [try] is entered and [load_cache] raises [OSError]. *)
Theorem load_cache_raises_on_failed_lookup :
  (forall f : cache_file, load_cache_at (Reachable f) = Ret (cache_doc f)) /\
  cache_exists Unreachable = Raise OSError /\
  load_cache_at Unreachable = Raise OSError.
Proof.
  split; [intros [| |d]; reflexivity | split; reflexivity].
Qed.

(** In a world, where the cache path can be looked up, [load_cache]
    never raises and leaves the disk as it is. *)
Lemma load_cache_doc (w : world) : load_cache w = (Ret (cache_doc (w_cache w)), w).
Proof. unfold load_cache, cache_doc. destruct (w_cache w); reflexivity. Qed.

(* ===================================================================== *)
(** ** Source loader: properties *)
(* ===================================================================== *)

(** C3 (evaluation).  With [svg-engine=cairosvg], when CairoSVG writes the
    temporary raster and Pillow then fails to load it, [open_image_any]
    returns [None] and the temporary file, absent before the call, is
    still there after it. *)
Theorem tmp_raster_left_after_load_failure :
  let tmp := ["B"; "b.tmp._rasterized.png"] in
  let r := open_image_any bad_raster_env ["B"; "b.svg"] "bytes2" Cairosvg empty_world in
  w_tmp empty_world !! tmp = None /\
  fst r = Ret None /\
  w_tmp (snd r) !! tmp = Some "raster".
Proof.
  cbv zeta. split; [reflexivity |]. split; vm_compute; reflexivity.
Qed.

Section LoaderFacts.
Variable E : env.

Lemma load_tmp_success tmp w img w' :
  load_tmp E tmp w = (Ret img, w') -> w_tmp w' !! tmp = None.
Proof.
  unfold load_tmp. destruct (w_tmp w !! tmp) as [b|]; [|discriminate].
  destruct (pil_open E b); try discriminate.
  unfold bind, unlink_tmp, ret. intros H. injection H as _ <-. simpl.
  apply lookup_delete_eq.
Qed.

(** A rasterizer call followed by [_load_tmp]: when it yields an image
    the temporary file is gone. *)
Lemma rasterize_then_load_success {A} (o : rast_outcome) tmp (f : image -> A) w r w' :
  (run_rasterizer o tmp ;;; img <- load_tmp E tmp ;; ret (f img)) w = (Ret r, w') ->
  w_tmp w' !! tmp = None.
Proof.
  unfold bind at 1. destruct (run_rasterizer o tmp w) as [[[]|e] w1]; [|discriminate].
  unfold bind. destruct (load_tmp E tmp w1) as [[img|e] w2] eqn:Hl; [|discriminate].
  unfold ret. intros H. injection H as _ <-.
  exact (load_tmp_success _ _ _ _ Hl).
Qed.

(** X26.  The success path of the SVG loader removes the temporary
    raster: when an image comes back for an SVG, no temporary file of that
    SVG is left, whichever engine produced it. *)
Lemma open_image_any_svg_success_unlinks rel data eng w img w' :
  lower (suffix rel) = ".svg" ->
  open_image_any E rel data eng w = (Ret (Some img), w') ->
  w_tmp w' !! with_suffix rel ".tmp._rasterized.png" = None.
Proof.
  intros Hext. unfold open_image_any. rewrite Hext. simpl.
  set (tmp := with_suffix rel ".tmp._rasterized.png").
  assert (Hink : forall w0,
    try_except
      (run_rasterizer (inkscape_export E data) tmp ;;;
       img <- load_tmp E tmp ;; ret (Some img))
      (fun _ => ret None) w0 = (Ret (Some img), w') ->
    w_tmp w' !! tmp = None).
  { intros w0. unfold try_except.
    destruct ((run_rasterizer (inkscape_export E data) tmp ;;;
               img <- load_tmp E tmp ;; ret (Some img)) w0)
      as [[r|e] w1] eqn:Hr.
    - intros H. injection H as -> ->.
      exact (rasterize_then_load_success _ _ _ _ _ _ Hr).
    - destruct (is_Exception e); unfold ret; discriminate. }
  destruct eng; simpl.
  - (* auto *)
    unfold bind at 1. unfold try_except at 1.
    destruct ((run_rasterizer (cairosvg_svg2png E data) tmp ;;;
               img <- load_tmp E tmp ;; ret (Some (Some img))) w)
      as [[r|e] w1] eqn:Hr.
    + destruct r as [r|].
      * unfold ret. intros H. injection H as _ <-.
        exact (rasterize_then_load_success _ _ _ _ _ _ Hr).
      * exfalso. revert Hr. unfold bind.
        destruct (run_rasterizer _ tmp w) as [[[]|?] ?]; [|discriminate].
        destruct (load_tmp E tmp w0) as [[?|?] ?]; discriminate.
    + destruct (is_Exception e); [|discriminate].
      unfold ret at 1. destruct (which_inkscape E); simpl.
      * apply Hink.
      * unfold ret. discriminate.
  - (* cairosvg *)
    unfold bind at 1. unfold try_except at 1.
    destruct ((run_rasterizer (cairosvg_svg2png E data) tmp ;;;
               img <- load_tmp E tmp ;; ret (Some (Some img))) w)
      as [[r|e] w1] eqn:Hr.
    + destruct r as [r|].
      * unfold ret. intros H. injection H as _ <-.
        exact (rasterize_then_load_success _ _ _ _ _ _ Hr).
      * exfalso. revert Hr. unfold bind.
        destruct (run_rasterizer _ tmp w) as [[[]|?] ?]; [|discriminate].
        destruct (load_tmp E tmp w0) as [[?|?] ?]; discriminate.
    + destruct (is_Exception e); unfold ret; discriminate.
  - (* inkscape *)
    unfold bind at 1. unfold ret at 1.
    destruct (which_inkscape E); simpl.
    + apply Hink.
    + unfold ret. discriminate.
  - unfold ret. discriminate.
Qed.
End LoaderFacts.

(* ===================================================================== *)
(** ** Build planner and [main]: properties *)
(* ===================================================================== *)

Lemma bind_ext {A B} (m : M A) (k1 k2 : A -> M B) (w : world) :
  (forall a w', k1 a w' = k2 a w') -> bind m k1 w = bind m k2 w.
Proof.
  intros H. unfold bind. destruct (m w) as [[a|ex] w']; [apply H | reflexivity].
Qed.

Lemma bind_eval {A B} (m : M A) (k : A -> M B) (w w1 : world) (a : A) :
  m w = (Ret a, w1) -> bind m k w = k a w1.
Proof. intros H. unfold bind. rewrite H. reflexivity. Qed.

Lemma bind_eval_raise {A B} (m : M A) (k : A -> M B) (w w1 : world) (e : exn) :
  m w = (Raise e, w1) -> bind m k w = (Raise e, w1).
Proof. intros H. unfold bind. rewrite H. reflexivity. Qed.

Lemma lift_eval {A} (r : res A) (w : world) : lift r w = (r, w).
Proof. reflexivity. Qed.

Lemma bind_Ret_inv {A B} (m : M A) (k : A -> M B) (w w' : world) (b : B) :
  bind m k w = (Ret b, w') ->
  exists a w1, m w = (Ret a, w1) /\ k a w1 = (Ret b, w').
Proof.
  unfold bind. destruct (m w) as [[a|ex] w1]; [eauto | discriminate].
Qed.

Lemma mode_eqb_All_false (m : mode) : m <> All -> mode_eqb m All = false.
Proof. destruct m; simpl; congruence. Qed.

Lemma clean_step_Ret (a : Args) (w : world) : fst (clean_step a w) = Ret tt.
Proof.
  unfold clean_step. destruct (clean a && w_outdir w); [|reflexivity].
  destruct (dry_run a); reflexivity.
Qed.

(** After the clean step the cache file is the one of the start, or is
    gone. *)
Lemma clean_step_cache (a : Args) (w : world) :
  w_cache (snd (clean_step a w)) = w_cache w \/
  w_cache (snd (clean_step a w)) = NoFile.
Proof.
  unfold clean_step. destruct (clean a && w_outdir w); [|left; reflexivity].
  destruct (dry_run a); [left | right]; reflexivity.
Qed.

Lemma clean_step_no_clean (a : Args) (w : world) :
  clean a && negb (dry_run a) = false ->
  w_cache (snd (clean_step a w)) = w_cache w.
Proof.
  unfold clean_step. intros H.
  destruct (clean a); simpl in *; [|reflexivity].
  destruct (dry_run a); [|discriminate].
  destruct (w_outdir w); reflexivity.
Qed.

Lemma clean_step_spec (a : Args) (w : world) :
  exists w0,
    clean_step a w = (Ret tt, w0) /\
    w_stdout w0 = w_stdout w ++ (if clean a && w_outdir w then [LClean] else []) /\
    (w_cache w0 = w_cache w \/ w_cache w0 = NoFile) /\
    (clean a && negb (dry_run a) = false -> w_cache w0 = w_cache w).
Proof.
  unfold clean_step. destruct (clean a) eqn:Hcl, (w_outdir w); cbn [andb].
  - destruct (dry_run a); eexists; (split; [reflexivity |]);
      (split; [reflexivity |]); cbn.
    + split; [left; reflexivity | reflexivity].
    + split; [right; reflexivity | discriminate].
  - exists w. rewrite app_nil_r. auto.
  - exists w. rewrite app_nil_r. auto.
  - exists w. rewrite app_nil_r. auto.
Qed.

Lemma notice_step_spec (c : bool) (w : world) :
  exists w1,
    (if c then print LForced else ret tt) w = (Ret tt, w1) /\
    w_stdout w1 = w_stdout w ++ (if c then [LForced] else []).
Proof.
  destruct c.
  - eexists. split; reflexivity.
  - exists w. rewrite app_nil_r. split; reflexivity.
Qed.

Lemma printed_app {A} (m : M A) (w : world) (out : list line) :
  w_stdout (snd (m w)) = w_stdout w ++ out -> printed m w = out.
Proof. intros H. unfold printed. rewrite H. apply drop_app_length. Qed.

Section PipelineFacts.
Context {F : Type} {FO : FloatOps F} {AL : Allocator}.
Variable E : env.

(** The override, once the persisted configuration is known to differ:
    [main] prints the notice once and runs its body under [Changed]. *)
Lemma main_forced (a : Args) (w : world) (cc : JSON) :
  input_ok E = true ->
  arg_mode a <> All ->
  py_get (cache_doc (w_cache w)) "_config" JNull = Ret cc ->
  py_eq cc (cfg_fingerprint (cfg a)) = false ->
  main E a w =
    (clean_step a ;;;
     cache <- load_cache ;;
     print LForced ;;;
     main_body E a Changed cache) w.
Proof.
  intros Hin Hm Hget Hne. unfold main. rewrite Hin. simpl.
  unfold bind at 1 5.
  pose proof (clean_step_Ret a w) as Hr.
  pose proof (clean_step_cache a w) as Hc.
  destruct (clean_step a w) as [[[]|e] w0]; simpl in Hr, Hc; [|discriminate].
  unfold bind at 1 4. rewrite load_cache_doc.
  assert (Hcc : exists cc', py_get (cache_doc (w_cache w0)) "_config" JNull = Ret cc'
                     /\ py_eq cc' (cfg_fingerprint (cfg a)) = false).
  { destruct Hc as [-> | ->]; [eauto |].
    exists JNull. split; reflexivity. }
  destruct Hcc as (cc' & Hget' & Hne').
  unfold bind at 1. unfold lift at 1. rewrite Hget'.
  unfold effective_mode. rewrite Hne', (mode_eqb_All_false _ Hm). simpl.
  reflexivity.
Qed.

(** The build loop and the body of [main] do not look at [args.mode]. *)
Lemma build_loop_with_mode (a : Args) (m' m : mode) cs ls w :
  build_loop E (with_mode m' a) m cs ls w = build_loop E a m cs ls w.
Proof.
  revert ls w. induction cs as [|c cs IH]; intros ls w; simpl; [reflexivity |].
  unfold bind.
  replace (loop_body E (with_mode m' a) m c ls w) with (loop_body E a m c ls w)
    by (destruct c; reflexivity).
  destruct (loop_body E a m c ls w) as [[ls'|ex] w1]; [apply IH | reflexivity].
Qed.

Lemma main_body_with_mode (a : Args) (m' m : mode) cache w :
  main_body E (with_mode m' a) m cache w = main_body E a m cache w.
Proof.
  unfold main_body. simpl.
  change (to_process E (with_mode m' a)) with (to_process E a).
  apply bind_ext. intros fc w0.
  unfold bind at 1 5. rewrite build_loop_with_mode. reflexivity.
Qed.

Lemma main_eq_changed (a : Args) (w : world) (cc : JSON) :
  arg_mode a <> All ->
  py_get (cache_doc (w_cache w)) "_config" JNull = Ret cc ->
  py_eq cc (cfg_fingerprint (cfg a)) = false ->
  main E a w = main E (with_mode Changed a) w.
Proof.
  intros Hm Hget Hne.
  destruct (input_ok E) eqn:Hin.
  - rewrite (main_forced a w cc Hin Hm Hget Hne).
    rewrite (main_forced (with_mode Changed a) w cc Hin); try assumption.
    + unfold bind. change (clean_step (with_mode Changed a) w) with (clean_step a w).
      destruct (clean_step a w) as [[[]|ex] w0]; [|reflexivity].
      destruct (load_cache w0) as [[cache|ex] w1]; [|reflexivity].
      destruct (print LForced w1) as [[[]|ex] w2]; [|reflexivity].
      rewrite main_body_with_mode. reflexivity.
    + simpl. discriminate.
  - unfold main. rewrite Hin. reflexivity.
Qed.

(** C4.  When the [_config] persisted in the cache at the start of the
    run differs from the fingerprint of the active configuration and the
    selected mode is not [all], the mode of the run is [changed]: the run
    is the run of the same invocation with [--mode changed], and it
    consists of the clean step, the load of the cache, one notice of the
    override, and then the enumeration and the whole build loop under
    [Changed]. *)
Theorem config_change_forces_changed (a : Args) (w : world) (cc : JSON) :
  arg_mode a <> All ->
  py_get (cache_doc (w_cache w)) "_config" JNull = Ret cc ->
  py_eq cc (cfg_fingerprint (cfg a)) = false ->
  effective_mode cc (cfg_fingerprint (cfg a)) (arg_mode a) = Changed /\
  main E a w = main E (with_mode Changed a) w /\
  (input_ok E = true ->
   main E a w =
     (clean_step a ;;;
      cache <- load_cache ;;
      print LForced ;;;
      main_body E a Changed cache) w).
Proof.
  intros Hm Hget Hne. split; [|split].
  - unfold effective_mode. rewrite Hne, (mode_eqb_All_false _ Hm). reflexivity.
  - exact (main_eq_changed a w cc Hm Hget Hne).
  - intros Hin. exact (main_forced a w cc Hin Hm Hget Hne).
Qed.

(** C10.  Against an output directory without a cache file, or with a
    cache document that has no [_config] key, the absent configuration
    ([None]) is unequal to the fingerprint, so for a mode other than [all]
    the override fires: the mode of the run is [changed], the run consists
    of the clean step, the load of the cache, the notice of the override
    and the build loop under [Changed], its summary reports [changed], and
    it is the run of the same invocation with [--mode changed]; in
    particular [missing] and [changed] give the same run. *)
Theorem fresh_cache_forces_changed (a : Args) (w : world) :
  (w_cache w = NoFile \/
   exists kvs, w_cache w = DocFile (JDict kvs) /\ assoc "_config" kvs = None) ->
  arg_mode a <> All ->
  py_get (cache_doc (w_cache w)) "_config" JNull = Ret JNull /\
  py_eq JNull (cfg_fingerprint (cfg a)) = false /\
  effective_mode JNull (cfg_fingerprint (cfg a)) (arg_mode a) = Changed /\
  (input_ok E = true ->
   main E a w =
     (clean_step a ;;;
      cache <- load_cache ;;
      print LForced ;;;
      main_body E a Changed cache) w) /\
  (forall s w', main E a w = (Ret s, w') -> s_mode s = Changed) /\
  main E a w = main E (with_mode Changed a) w /\
  main E (with_mode Missing a) w = main E (with_mode Changed a) w.
Proof.
  intros Hfresh Hm.
  assert (Hget : py_get (cache_doc (w_cache w)) "_config" JNull = Ret JNull).
  { destruct Hfresh as [-> | (kvs & -> & Hk)]; simpl; [reflexivity |].
    rewrite Hk. reflexivity. }
  split; [exact Hget |]. split; [reflexivity |].
  split; [unfold effective_mode; rewrite (mode_eqb_All_false _ Hm); reflexivity |].
  split; [intros Hin; exact (main_forced a w JNull Hin Hm Hget eq_refl) |].
  split; [|split].
  - intros s w' Hrun.
    assert (Hin : input_ok E = true).
    { destruct (input_ok E) eqn:Hin; [reflexivity |].
      unfold main in Hrun. rewrite Hin in Hrun. discriminate. }
    rewrite (main_forced a w JNull Hin Hm Hget eq_refl) in Hrun.
    apply bind_Ret_inv in Hrun as ([] & w1 & _ & Hrun).
    apply bind_Ret_inv in Hrun as (cache & w2 & _ & Hrun).
    apply bind_Ret_inv in Hrun as ([] & w3 & _ & Hrun).
    unfold main_body in Hrun.
    apply bind_Ret_inv in Hrun as (fc & w4 & _ & Hrun).
    apply bind_Ret_inv in Hrun as (ls & w5 & _ & Hrun).
    apply bind_Ret_inv in Hrun as ([] & w6 & _ & Hrun).
    injection Hrun as <- _. reflexivity.
  - exact (main_eq_changed a w JNull Hm Hget eq_refl).
  - apply (main_eq_changed (with_mode Missing a) w JNull); simpl;
      [discriminate | exact Hget | reflexivity].
Qed.

(* ------------------------------------------------------------------- *)
(** *** Dry runs *)

Lemma loop_body_dry_disk (a : Args) (m : mode) c ls w :
  dry_run a = true -> disk (snd (loop_body E a m c ls w)) = disk w.
Proof.
  intros Hdry. unfold loop_body. destruct c as [e out].
  unfold bind at 1. unfold lift at 1.
  destruct (decide _ _ _ _ _ _) as [[b r]|ex]; [|reflexivity].
  cbn [fst snd]. destruct b; [|reflexivity].
  unfold bind at 1. unfold lift at 1.
  destruct (shown_path E out) as [shown|ex]; [|reflexivity].
  rewrite Hdry. reflexivity.
Qed.

Lemma build_loop_dry_disk (a : Args) (m : mode) cs ls w :
  dry_run a = true -> disk (snd (build_loop E a m cs ls w)) = disk w.
Proof.
  intros Hdry. revert ls w. induction cs as [|c cs IH]; intros ls w; simpl.
  - reflexivity.
  - unfold bind.
    pose proof (loop_body_dry_disk a m c ls w Hdry) as Hb.
    destruct (loop_body E a m c ls w) as [[ls'|ex] w1]; simpl in Hb.
    + rewrite IH. exact Hb.
    + exact Hb.
Qed.

Lemma clean_step_dry_disk (a : Args) (w : world) :
  dry_run a = true -> disk (snd (clean_step a w)) = disk w.
Proof.
  intros Hdry. unfold clean_step. rewrite Hdry.
  destruct (clean a && w_outdir w); reflexivity.
Qed.

Lemma main_dry_disk (a : Args) (w : world) :
  dry_run a = true -> disk (snd (main E a w)) = disk w.
Proof.
  intros Hdry. unfold main. destruct (input_ok E); [|reflexivity]. simpl.
  unfold bind at 1.
  pose proof (clean_step_dry_disk a w Hdry) as Hc.
  destruct (clean_step a w) as [[[]|ex] w0]; simpl in Hc; [|exact Hc].
  rewrite <- Hc. clear Hc.
  unfold bind at 1. rewrite load_cache_doc.
  unfold bind at 1. unfold lift at 1.
  destruct (py_get (cache_doc (w_cache w0)) "_config" JNull) as [cc|ex];
    [|reflexivity].
  set (m := effective_mode _ _ _).
  assert (Hp : forall (c : bool) w1,
             disk (snd ((if c then print LForced else ret tt) w1)) = disk w1).
  { intros [] w1; reflexivity. }
  unfold bind at 1.
  specialize (Hp (negb (py_eq cc (cfg_fingerprint (cfg a))) &&
                  negb (mode_eqb (arg_mode a) All)) w0).
  destruct ((if negb (py_eq cc (cfg_fingerprint (cfg a))) &&
                negb (mode_eqb (arg_mode a) All)
             then print LForced else ret tt) w0) as [[[]|ex] w1];
    simpl in Hp; [|exact Hp].
  rewrite <- Hp. clear Hp.
  unfold main_body. unfold bind at 1. unfold lift at 1.
  destruct (py_get (cache_doc (w_cache w0)) "files" (JDict [])) as [fc|ex];
    [|reflexivity].
  unfold bind at 1.
  pose proof (build_loop_dry_disk a m (to_process E a)
                {| files_cache := fc; total := 0; ok := 0; skipped := 0 |}
                w1 Hdry) as Hl.
  destruct (build_loop E a m _ _ w1) as [[ls|ex] w2]; simpl in Hl; [|exact Hl].
  rewrite Hdry. simpl. exact Hl.
Qed.

(** C9.  A dry run writes nothing: no call that changes the disk is
    made (no [rmtree], no [mkdir], no image or cache written, no
    temporary raster), so the output directory, the output files and the
    cache file are what they were. *)
Theorem dry_run_writes_nothing (a : Args) (w : world) :
  dry_run a = true ->
  let w' := snd (main E a w) in
  w_log w' = w_log w /\
  w_outputs w' = w_outputs w /\
  w_cache w' = w_cache w /\
  w_outdir w' = w_outdir w /\
  w_tmp w' = w_tmp w.
Proof.
  intros Hdry w'. pose proof (main_dry_disk a w Hdry) as H.
  fold w' in H. unfold disk in H. injection H as H1 H2 H3 H4 H5.
  repeat split; assumption.
Qed.

(* ------------------------------------------------------------------- *)
(** *** What a build prints *)

Lemma preserves_ret {X A} (p : world -> X) (a : A) : preserves p (ret a).
Proof. intros w. reflexivity. Qed.

Lemma preserves_raise {X A} (p : world -> X) (e : exn) : preserves p (@raise A e).
Proof. intros w. reflexivity. Qed.

Lemma preserves_lift {X A} (p : world -> X) (r : res A) : preserves p (lift r).
Proof. intros w. reflexivity. Qed.

Lemma preserves_bind {X A B} (p : world -> X) (m : M A) (k : A -> M B) :
  preserves p m -> (forall a, preserves p (k a)) -> preserves p (bind m k).
Proof.
  intros Hm Hk w. unfold bind. specialize (Hm w).
  destruct (m w) as [[a|ex] w1]; simpl in Hm.
  - rewrite Hk. exact Hm.
  - exact Hm.
Qed.

Lemma preserves_try_except {X A} (p : world -> X) (m : M A) (h : exn -> M A) :
  preserves p m -> (forall e, preserves p (h e)) -> preserves p (try_except m h).
Proof.
  intros Hm Hh w. unfold try_except. specialize (Hm w).
  destruct (m w) as [[a|ex] w1]; simpl in Hm; [exact Hm |].
  destruct (is_Exception ex); [rewrite Hh|]; exact Hm.
Qed.

Lemma run_rasterizer_stdout o tmp : preserves w_stdout (run_rasterizer o tmp).
Proof.
  unfold run_rasterizer. apply preserves_bind.
  - destruct (ro_written o); intros w; reflexivity.
  - intros _. destruct (ro_raises o); intros w; reflexivity.
Qed.

Lemma load_tmp_stdout tmp : preserves w_stdout (load_tmp E tmp).
Proof.
  intros w. unfold load_tmp. destruct (w_tmp w !! tmp) as [b|]; [|reflexivity].
  destruct (pil_open E b); reflexivity.
Qed.

Lemma rasterize_then_load_stdout {A} o tmp (f : image -> A) :
  preserves w_stdout (run_rasterizer o tmp ;;; img <- load_tmp E tmp ;; ret (f img)).
Proof.
  apply preserves_bind; [apply run_rasterizer_stdout | intros _].
  apply preserves_bind; [apply load_tmp_stdout | intros img].
  apply preserves_ret.
Qed.

Lemma open_image_any_stdout rel data eng :
  preserves w_stdout (open_image_any E rel data eng).
Proof.
  unfold open_image_any.
  destruct (String.eqb (lower (suffix rel)) ".svg").
  - destruct (engine_eqb eng Skip); [apply preserves_ret |].
    apply preserves_bind.
    + destruct (engine_in eng [Auto; Cairosvg]); [|apply preserves_ret].
      apply preserves_try_except; [apply rasterize_then_load_stdout |].
      intros _. destruct (engine_eqb eng Cairosvg); apply preserves_ret.
    + intros [r|]; [apply preserves_ret |].
      destruct (engine_in eng [Auto; Inkscape]); [|apply preserves_ret].
      destruct (negb (which_inkscape E)); [apply preserves_ret |].
      apply preserves_try_except; [apply rasterize_then_load_stdout |].
      intros _. apply preserves_ret.
  - destruct (pil_open E data);
      [apply preserves_ret | apply preserves_ret | apply preserves_ret
      | apply preserves_raise].
Qed.

Lemma process_one_stdout rel data out fs up eng :
  preserves w_stdout (process_one E rel data out fs up eng).
Proof.
  unfold process_one.
  apply preserves_bind; [apply open_image_any_stdout | intros [img|]];
    [|apply preserves_ret].
  apply preserves_bind; [apply preserves_lift | intros picon].
  apply preserves_bind; [intros w; reflexivity | intros _].
  destruct (png_save_ok E out); [|apply preserves_ret].
  apply preserves_bind; [intros w; reflexivity | intros _; apply preserves_ret].
Qed.







(** One turn of the loop, once the decision is known. *)
Lemma loop_body_hidden (a : Args) (m : mode) e out ls w r ex :
  decide m (cfg_fingerprint (cfg a)) (files_cache ls) (norm_key (e_rel e))
    (sha1_hex E (e_bytes e)) (mem_out out w) = Ret (true, r) ->
  shown_path E out = Raise ex ->
  loop_body E a m (e, out) ls w = (Raise ex, w).
Proof.
  intros Hd Hs. unfold loop_body. unfold bind at 1. unfold lift at 1.
  rewrite Hd. cbn [fst snd]. unfold bind at 1. unfold lift at 1.
  rewrite Hs. reflexivity.
Qed.

Lemma loop_body_build (a : Args) (m : mode) e out ls w r shown :
  decide m (cfg_fingerprint (cfg a)) (files_cache ls) (norm_key (e_rel e))
    (sha1_hex E (e_bytes e)) (mem_out out w) = Ret (true, r) ->
  shown_path E out = Ret shown ->
  loop_body E a m (e, out) ls w =
    let w1 := snd (print (LBuild r (e_rel e) shown) w) in
    if dry_run a
    then (Ret {| files_cache := files_cache ls; total := S (total ls);
                 ok := ok ls; skipped := skipped ls |}, w1)
    else
      match process_one E (e_rel e) (e_bytes e) out
              (frame_w (cfg a), frame_h (cfg a)) (allow_upscale (cfg a))
              (engine (cfg a)) w1 with
      | (Ret true, w2) =>
          match py_setitem (files_cache ls) (norm_key (e_rel e))
                  (entry_of E (cfg_fingerprint (cfg a)) (e, out)) with
          | Ret fc' => (Ret {| files_cache := fc'; total := S (total ls);
                               ok := S (ok ls); skipped := skipped ls |}, w2)
          | Raise ex => (Raise ex, w2)
          end
      | (Ret false, w2) =>
          (Ret {| files_cache := files_cache ls; total := S (total ls);
                  ok := ok ls; skipped := S (skipped ls) |}, w2)
      | (Raise ex, w2) => (Raise ex, w2)
      end.
Proof.
  intros Hd Hs. unfold loop_body. unfold bind at 1. unfold lift at 1.
  rewrite Hd. cbn [fst snd]. unfold bind at 1. unfold lift at 1.
  rewrite Hs. unfold bind at 1. unfold print at 1. cbn [snd].
  destruct (dry_run a); cbn [negb]; [reflexivity |].
  unfold bind at 1. unfold print. cbn [snd].
  destruct (process_one E _ _ _ _ _ _ _) as [[[]|ex] w2]; reflexivity.
Qed.

Lemma loop_body_skip (a : Args) (m : mode) e out ls w r :
  decide m (cfg_fingerprint (cfg a)) (files_cache ls) (norm_key (e_rel e))
    (sha1_hex E (e_bytes e)) (mem_out out w) = Ret (false, r) ->
  loop_body E a m (e, out) ls w =
    (Ret {| files_cache := files_cache ls; total := S (total ls);
            ok := ok ls; skipped := S (skipped ls) |},
     snd (print (LSkip (e_rel e)) w)).
Proof.
  intros Hd. unfold loop_body. unfold bind at 1. unfold lift at 1.
  rewrite Hd. reflexivity.
Qed.






(** [main] up to its body: the clean step, then either an
    [AttributeError] on a cache document that is not a dict, or the body,
    run on the loaded cache under the effective mode. *)
Lemma main_prelude (a : Args) (w : world) :
  input_ok E = true ->
  exists w0,
    w_stdout w0 = w_stdout w ++ (if clean a && w_outdir w then [LClean] else []) /\
    (w_cache w0 = w_cache w \/ w_cache w0 = NoFile) /\
    (clean a && negb (dry_run a) = false -> w_cache w0 = w_cache w) /\
    match cache_doc (w_cache w0) with
    | JDict kvs =>
        let cc := match assoc "_config" kvs with Some v => v | None => JNull end in
        let forced := negb (py_eq cc (cfg_fingerprint (cfg a))) &&
                      negb (mode_eqb (arg_mode a) All) in
        exists w1,
          w_stdout w1 = w_stdout w0 ++ (if forced then [LForced] else []) /\
          main E a w =
            main_body E a (effective_mode cc (cfg_fingerprint (cfg a)) (arg_mode a))
              (JDict kvs) w1
    | _ => main E a w = (Raise AttributeError, w0)
    end.
Proof.
  intros Hin. unfold main. rewrite Hin. cbn [negb].
  destruct (clean_step_spec a w) as (w0 & Hc & Hs0 & Hcache & Hnc).
  exists w0. split; [exact Hs0 |]. split; [exact Hcache |]. split; [exact Hnc |].
  rewrite (bind_eval _ _ _ _ _ Hc).
  rewrite (bind_eval _ _ _ _ _ (load_cache_doc w0)).
  destruct (cache_doc (w_cache w0)) as [| | | | |kvs]; try reflexivity.
  cbv zeta.
  rewrite (bind_eval _ _ w0 w0
             (match assoc "_config" kvs with Some v => v | None => JNull end))
    by reflexivity.
  set (cc := match assoc "_config" kvs with Some v => v | None => JNull end).
  destruct (notice_step_spec
              (negb (py_eq cc (cfg_fingerprint (cfg a))) &&
               negb (mode_eqb (arg_mode a) All)) w0)
    as (w1 & Hp & Hs1).
  exists w1. split; [exact Hs1 |].
  rewrite (bind_eval _ _ _ _ _ Hp). reflexivity.
Qed.




(* ------------------------------------------------------------------- *)
(** *** A full run followed by a run in mode [changed] *)

Lemma loop_body_raise (a : Args) (m : mode) e out ls w ex :
  decide m (cfg_fingerprint (cfg a)) (files_cache ls) (norm_key (e_rel e))
    (sha1_hex E (e_bytes e)) (mem_out out w) = Raise ex ->
  loop_body E a m (e, out) ls w = (Raise ex, w).
Proof.
  intros Hd. unfold loop_body. unfold bind at 1. unfold lift at 1.
  rewrite Hd. reflexivity.
Qed.

(** The counters after one turn, and the entry written when [ok] went
    up. *)
Lemma loop_body_counters (a : Args) (m : mode) c ls w ls1 w1 :
  loop_body E a m c ls w = (Ret ls1, w1) ->
  total ls1 = S (total ls) /\
  ok ls1 <= S (ok ls) /\
  (ok ls1 = S (ok ls) ->
   exists kvs,
     files_cache ls = JDict kvs /\
     files_cache ls1 =
       JDict (assoc_set (cand_key c) (entry_of E (cfg_fingerprint (cfg a)) c) kvs)).
Proof.
  destruct c as [e out]. intros H.
  destruct (decide m (cfg_fingerprint (cfg a)) (files_cache ls) (norm_key (e_rel e))
              (sha1_hex E (e_bytes e)) (mem_out out w)) as [[[] r]|ex] eqn:Hd.
  - destruct (shown_path E out) as [shown|ex] eqn:Hsh;
      [|rewrite (loop_body_hidden a m e out ls w r ex Hd Hsh) in H; discriminate].
    rewrite (loop_body_build a m e out ls w r shown Hd Hsh) in H. cbv zeta in H.
    destruct (dry_run a).
    + injection H as <- _. cbn. repeat split; lia.
    + destruct (process_one E _ _ _ _ _ _ _) as [[[]|ex] w2]; [| |discriminate].
      * destruct (files_cache ls) as [| | | | |kvs] eqn:Hfc; try discriminate.
        cbn in H. injection H as <- _. cbn. repeat split; try lia.
        intros _. exists kvs. split; reflexivity.
      * injection H as <- _. cbn. repeat split; lia.
  - rewrite (loop_body_skip a m e out ls w r Hd) in H.
    injection H as <- _. cbn. repeat split; lia.
  - rewrite (loop_body_raise a m e out ls w ex Hd) in H. discriminate.
Qed.

Lemma build_loop_counters (a : Args) (m : mode) cs ls w ls' w' :
  build_loop E a m cs ls w = (Ret ls', w') ->
  total ls' = total ls + List.length cs /\
  ok ls' <= ok ls + List.length cs /\
  (ok ls' = ok ls + List.length cs ->
   NoDup (map cand_key cs) ->
   (forall c, c ∈ cs ->
      py_get (files_cache ls') (cand_key c) JNull =
        Ret (entry_of E (cfg_fingerprint (cfg a)) c)) /\
   (forall k d, k ∉ map cand_key cs ->
      py_get (files_cache ls') k d = py_get (files_cache ls) k d)).
Proof.
  revert ls w. induction cs as [|c cs IH]; intros ls w H.
  - injection H as <- _. cbn. split; [lia |]. split; [lia |].
    intros _ _. split; [|reflexivity]. intros c Hc. inversion Hc.
  - cbn [build_loop] in H. apply bind_Ret_inv in H as (ls1 & w1 & Hb & H).
    destruct (loop_body_counters a m c ls w ls1 w1 Hb) as (Ht & Hok & Hset).
    destruct (IH ls1 w1 H) as (Ht' & Hok' & Hent).
    cbn [List.length]. split; [lia |]. split; [lia |].
    intros Heq Hnd. apply NoDup_cons in Hnd as [Hnotin Hnd].
    destruct (Hset ltac:(lia)) as (kvs & Hfc & Hfc1).
    destruct (Hent ltac:(lia) Hnd) as (Hin & Hpres).
    split.
    + intros c' Hc'. apply elem_of_cons in Hc' as [-> | Hc'].
      * rewrite (Hpres _ JNull Hnotin), Hfc1. cbn.
        rewrite assoc_set_eq. reflexivity.
      * apply Hin. exact Hc'.
    + intros k d Hk. cbn [map] in Hk. apply not_elem_of_cons in Hk as [Hk1 Hk2].
      rewrite (Hpres k d Hk2), Hfc1, Hfc. cbn.
      rewrite assoc_set_ne by congruence. reflexivity.
Qed.

(** What a run that returns, writes and built every candidate leaves in
    the cache file. *)
Lemma full_run_cache (a : Args) (w w' : world) (s : summary) :
  NoDup (map cand_key (to_process E a)) ->
  dry_run a = false ->
  main E a w = (Ret s, w') ->
  s_ok s = s_total s ->
  exists kvs fc,
    w_cache w' = DocFile (JDict kvs) /\
    cache_write E (JDict kvs) = Written /\
    assoc "_config" kvs = Some (cfg_fingerprint (cfg a)) /\
    assoc "files" kvs = Some fc /\
    (forall c, c ∈ to_process E a ->
       py_get fc (cand_key c) JNull =
         Ret (entry_of E (cfg_fingerprint (cfg a)) c)).
Proof.
  intros Hnd Hdry Hmain Hok.
  destruct (input_ok E) eqn:Hin.
  2:{ unfold main in Hmain. rewrite Hin in Hmain. discriminate. }
  destruct (main_prelude a w Hin) as (w0 & _ & _ & _ & Hpre).
  destruct (cache_doc (w_cache w0)) as [| | | | |kvs0];
    try (rewrite Hpre in Hmain; discriminate).
  cbv zeta in Hpre. destruct Hpre as (w1 & _ & Hpre).
  rewrite Hpre in Hmain. clear Hpre. unfold main_body in Hmain.
  apply bind_Ret_inv in Hmain as (fc0 & w2 & Hfc0 & Hmain).
  apply bind_Ret_inv in Hmain as (ls & w3 & Hloop & Hmain).
  apply bind_Ret_inv in Hmain as ([] & w4 & Hsave & Hret).
  injection Hret as <- <-. cbn [s_ok s_total] in Hok.
  destruct (build_loop_counters a _ _ _ _ _ _ Hloop) as (Ht & Hle & Hent).
  cbn [total ok] in Ht, Hle, Hent.
  destruct (Hent ltac:(lia) Hnd) as (Hin' & _).
  rewrite Hdry in Hsave. cbn [negb] in Hsave.
  apply bind_Ret_inv in Hsave as (c1 & w5 & Hc1 & Hsave).
  apply bind_Ret_inv in Hsave as (c2 & w6 & Hc2 & Hsave).
  apply bind_Ret_inv in Hsave as ([] & w7 & Hmk & Hsave).
  injection Hc1 as <- <-. injection Hc2 as <- <-.
  cbn [py_setitem] in Hsave.
  set (doc := JDict (assoc_set "files" (files_cache ls)
                       (assoc_set "_config" (cfg_fingerprint (cfg a)) kvs0))) in *.
  unfold save_cache in Hsave.
  destruct (cache_write E doc) as [|[] e] eqn:Hw; try discriminate Hsave.
  injection Hsave as <-.
  eexists _, (files_cache ls). split; [reflexivity |]. split; [exact Hw |].
  split; [|split; [apply assoc_set_eq | exact Hin']].
  rewrite assoc_set_ne by discriminate. apply assoc_set_eq.
Qed.

(** An entry written for the present bytes under the present
    configuration is current in mode [changed]. *)
Lemma decide_current (c : BuildConfig) (fc : JSON) key h oe :
  py_get fc key JNull =
    Ret (JDict [("src_sha1", JStr h); ("cfg", cfg_fingerprint c)]) ->
  decide Changed (cfg_fingerprint c) fc key h oe = Ret (false, RAll).
Proof.
  intros Hget. unfold decide. cbn [mode_eqb]. rewrite Hget.
  cbn [res_bind is_None py_get assoc String.eqb Ascii.eqb Bool.eqb].
  rewrite py_eq_fingerprint_refl. cbn [negb andb].
  cbn [py_eq]. rewrite String.eqb_refl. cbn.
  rewrite andb_false_r. reflexivity.
Qed.

Lemma build_loop_current (a : Args) cs ls w :
  (forall c, c ∈ cs ->
     py_get (files_cache ls) (cand_key c) JNull =
       Ret (entry_of E (cfg_fingerprint (cfg a)) c)) ->
  exists w',
    build_loop E a Changed cs ls w =
      (Ret {| files_cache := files_cache ls; total := total ls + List.length cs;
              ok := ok ls; skipped := skipped ls + List.length cs |}, w') /\
    w_stdout w' = w_stdout w ++ map skip_line cs.
Proof.
  revert ls w. induction cs as [|c cs IH]; intros ls w Hcur.
  - exists w. cbn. rewrite !Nat.add_0_r, app_nil_r. destruct ls; split; reflexivity.
  - destruct c as [e out].
    assert (Hd : decide Changed (cfg_fingerprint (cfg a)) (files_cache ls)
                   (norm_key (e_rel e)) (sha1_hex E (e_bytes e)) (mem_out out w)
                 = Ret (false, RAll)).
    { apply decide_current. apply (Hcur (e, out)). apply elem_of_cons. left. reflexivity. }
    cbn [build_loop].
    rewrite (bind_eval _ _ _ _ _ (loop_body_skip a Changed e out ls w RAll Hd)).
    destruct (IH {| files_cache := files_cache ls; total := S (total ls);
                    ok := ok ls; skipped := S (skipped ls) |}
                 (snd (print (LSkip (e_rel e)) w)))
      as (w' & Hl & Hs).
    { intros c' Hc'. apply Hcur. apply elem_of_cons. right. exact Hc'. }
    exists w'. rewrite Hl. cbn [files_cache total ok skipped List.length].
    rewrite <- !Nat.add_succ_comm. split; [reflexivity |].
    rewrite Hs. cbn. rewrite <- app_assoc. reflexivity.
Qed.

(** C6 (as amended).  After a run that wrote to disk, returned and built
    every candidate ([ok] equals [total]), a run with the same
    configuration and filters in mode [changed], over the same input tree
    and the cache file the first run saved, returns and decides SKIP for
    every candidate: it prints exactly the SKIP lines of the candidates
    and builds nothing.  This holds when the candidates have pairwise
    distinct cache keys and the second run does not remove the output
    directory (no [--clean], or [--clean] on a dry run, which then prints
    its notice first). *)
Theorem second_run_changed_skips_all
    (a : Args) (w0 w1 w2 : world) (s1 : summary) (cl dry : bool) :
  NoDup (map cand_key (to_process E a)) ->
  dry_run a = false ->
  main E a w0 = (Ret s1, w1) ->
  s_ok s1 = s_total s1 ->
  w_cache w2 = w_cache w1 ->
  cl && negb dry = false ->
  skips_every_candidate E (rerun_changed a cl dry) w2.
Proof.
  intros Hnd Hdry Hrun Hok Hcache Hcl. unfold skips_every_candidate.
  change (to_process E (rerun_changed a cl dry)) with (to_process E a).
  destruct (full_run_cache a w0 w1 s1 Hnd Hdry Hrun Hok)
    as (kvs & fc & Hdoc & Hwr & Hcfg & Hfiles & Hent).
  assert (Hin : input_ok E = true).
  { destruct (input_ok E) eqn:Hin; [reflexivity |].
    unfold main in Hrun. rewrite Hin in Hrun. discriminate. }
  set (a2 := rerun_changed a cl dry).
  destruct (main_prelude a2 w2 Hin) as (w3 & Hs3 & _ & Hc3 & Hpre).
  rewrite (Hc3 Hcl), Hcache, Hdoc in Hpre. cbn [cache_doc] in Hpre.
  cbv zeta in Hpre. rewrite Hcfg in Hpre.
  change (cfg a2) with (cfg a) in Hpre.
  rewrite py_eq_fingerprint_refl in Hpre. cbn [negb andb] in Hpre.
  destruct Hpre as (w4 & Hs4 & Hmain).
  unfold effective_mode in Hmain. rewrite py_eq_fingerprint_refl in Hmain.
  cbn [negb andb] in Hmain. change (arg_mode a2) with Changed in Hmain.
  unfold main_body in Hmain.
  rewrite (bind_eval _ _ w4 w4 fc) in Hmain
    by (rewrite lift_eval; cbn; rewrite Hfiles; reflexivity).
  change (to_process E a2) with (to_process E a) in Hmain.
  destruct (build_loop_current a2 (to_process E a)
              {| files_cache := fc; total := 0; ok := 0; skipped := 0 |} w4)
    as (w5 & Hloop & Hs5).
  { exact Hent. }
  rewrite (bind_eval _ _ _ _ _ Hloop) in Hmain.
  cbn [files_cache total ok skipped] in Hmain.
  assert (Hsave : exists w6,
    (if negb (dry_run a2) then
       cache1 <- lift (py_setitem (JDict kvs) "_config" (cfg_fingerprint (cfg a2))) ;;
       cache2 <- lift (py_setitem cache1 "files" fc) ;;
       mkdir_output [] ;;;
       save_cache (cache_write E cache2) cache2
     else ret tt) w5 = (Ret tt, w6) /\ w_stdout w6 = w_stdout w5).
  { destruct (negb (dry_run a2)); [|eexists; split; reflexivity].
    unfold bind, lift. cbn [py_setitem]. change (cfg a2) with (cfg a).
    rewrite (assoc_set_same "_config" _ kvs Hcfg).
    rewrite (assoc_set_same "files" _ kvs Hfiles).
    unfold mkdir_output, save_cache. rewrite Hwr.
    eexists. split; reflexivity. }
  destruct Hsave as (w6 & Hsave & Hs6).
  rewrite (bind_eval _ _ _ _ _ Hsave) in Hmain.
  eexists _, w6. split; [exact Hmain |].
  split; [|cbn; auto].
  apply printed_app. rewrite Hmain. unfold ret. cbn [snd].
  rewrite Hs6, Hs5, Hs4, Hs3. rewrite app_nil_r, <- app_assoc. reflexivity.
Qed.
End PipelineFacts.

(* ===================================================================== *)
(** ** The theorems at the small input tree *)
(* ===================================================================== *)

Lemma demo_candidates (a : Args) :
  only_set a = ∅ -> exclude_set a = ∅ -> match_patterns a = ∅ ->
  prefix (cfg a) = "sxa_" ->
  to_process demo_env a =
    [ ({| e_rel := ["A"; "a.png"]; e_is_dir := false; e_bytes := "bytes1" |},
       ["A"; "sxa_a.png"]);
      ({| e_rel := ["B"; "b.svg"]; e_is_dir := false; e_bytes := "bytes2" |},
       ["B"; "sxa_b.png"]) ].
Proof.
  intros Ho Hx Hm Hp. unfold to_process. rewrite Ho, Hx, Hm, Hp.
  vm_compute. reflexivity.
Qed.

Lemma config_change_forces_changed_witness :
  arg_mode wide_missing_args <> All /\
  py_get (cache_doc (w_cache cached_world)) "_config" JNull =
    Ret (cfg_fingerprint demo_cfg) /\
  py_eq (cfg_fingerprint demo_cfg) (cfg_fingerprint (cfg wide_missing_args)) = false /\
  (effective_mode (cfg_fingerprint demo_cfg)
     (cfg_fingerprint (cfg wide_missing_args)) (arg_mode wide_missing_args) = Changed /\
   main (F := Q) demo_env wide_missing_args cached_world =
     main (F := Q) demo_env (with_mode Changed wide_missing_args) cached_world /\
   (input_ok demo_env = true ->
    main (F := Q) demo_env wide_missing_args cached_world =
      (clean_step wide_missing_args ;;;
       cache <- load_cache ;;
       print LForced ;;;
       main_body (F := Q) demo_env wide_missing_args Changed cache) cached_world)).
Proof.
  assert (H1 : arg_mode wide_missing_args <> All) by discriminate.
  assert (H2 : py_get (cache_doc (w_cache cached_world)) "_config" JNull =
               Ret (cfg_fingerprint demo_cfg)) by reflexivity.
  assert (H3 : py_eq (cfg_fingerprint demo_cfg)
                 (cfg_fingerprint (cfg wide_missing_args)) = false) by reflexivity.
  refine (conj H1 (conj H2 (conj H3 _))).
  exact (config_change_forces_changed (F := Q) demo_env wide_missing_args
           cached_world (cfg_fingerprint demo_cfg) H1 H2 H3).
Defined.

Lemma fresh_cache_forces_changed_witness :
  let a := with_mode Missing demo_args in
  (w_cache empty_world = NoFile \/
   exists kvs, w_cache empty_world = DocFile (JDict kvs) /\
               assoc "_config" kvs = None) /\
  arg_mode a <> All /\
  (py_get (cache_doc (w_cache empty_world)) "_config" JNull = Ret JNull /\
   py_eq JNull (cfg_fingerprint (cfg a)) = false /\
   effective_mode JNull (cfg_fingerprint (cfg a)) (arg_mode a) = Changed /\
   (input_ok demo_env = true ->
    main (F := Q) demo_env a empty_world =
      (clean_step a ;;;
       cache <- load_cache ;;
       print LForced ;;;
       main_body (F := Q) demo_env a Changed cache) empty_world) /\
   (forall s w', main (F := Q) demo_env a empty_world = (Ret s, w') ->
      s_mode s = Changed) /\
   main (F := Q) demo_env a empty_world =
     main (F := Q) demo_env (with_mode Changed a) empty_world /\
   main (F := Q) demo_env (with_mode Missing a) empty_world =
     main (F := Q) demo_env (with_mode Changed a) empty_world).
Proof.
  intros a.
  assert (H1 : w_cache empty_world = NoFile \/
               exists kvs, w_cache empty_world = DocFile (JDict kvs) /\
                           assoc "_config" kvs = None) by (left; reflexivity).
  assert (H2 : arg_mode a <> All) by discriminate.
  refine (conj H1 (conj H2 _)).
  exact (fresh_cache_forces_changed (F := Q) demo_env a empty_world H1 H2).
Defined.

Lemma dry_run_writes_nothing_witness :
  dry_run dry_clean_args = true /\
  (let w' := snd (main (F := Q) demo_env dry_clean_args cached_world) in
   w_log w' = w_log cached_world /\
   w_outputs w' = w_outputs cached_world /\
   w_cache w' = w_cache cached_world /\
   w_outdir w' = w_outdir cached_world /\
   w_tmp w' = w_tmp cached_world).
Proof.
  assert (H1 : dry_run dry_clean_args = true) by reflexivity.
  refine (conj H1 _).
  exact (dry_run_writes_nothing (F := Q) demo_env dry_clean_args cached_world H1).
Defined.


(** That run: the cached file is built for its configuration, the other
    as new. *)
Lemma half_cached_run_printed :
  printed (main (F := Q) demo_env wide_missing_args) half_cached_world =
    [ LForced;
      LBuild RConfigChanged ["A"; "a.png"] ["A"; "sxa_a.png"];
      LBuild RNew ["B"; "b.svg"] ["B"; "sxa_b.png"] ].
Proof. vm_compute. reflexivity. Qed.



Lemma second_run_changed_skips_all_witness :
  let s1 := {| s_total := 2; s_ok := 2; s_skipped := 0; s_mode := All |} in
  let w1 := snd (main (F := Q) demo_env demo_args empty_world) in
  NoDup (map cand_key (to_process demo_env demo_args)) /\
  dry_run demo_args = false /\
  main (F := Q) demo_env demo_args empty_world = (Ret s1, w1) /\
  s_ok s1 = s_total s1 /\
  w_cache w1 = w_cache w1 /\
  true && negb true = false /\
  skips_every_candidate (F := Q) demo_env (rerun_changed demo_args true true) w1.
Proof.
  intros s1 w1.
  assert (H1 : NoDup (map cand_key (to_process demo_env demo_args))).
  { rewrite (demo_candidates demo_args eq_refl eq_refl eq_refl eq_refl).
    cbn. apply NoDup_cons. split; [|apply NoDup_singleton].
    intros H. apply list_elem_of_singleton in H. discriminate H. }
  assert (H2 : dry_run demo_args = false) by reflexivity.
  assert (H3 : main (F := Q) demo_env demo_args empty_world = (Ret s1, w1)).
  { subst s1 w1. vm_compute. reflexivity. }
  assert (H4 : s_ok s1 = s_total s1) by reflexivity.
  assert (H5 : w_cache w1 = w_cache w1) by reflexivity.
  assert (H6 : true && negb true = false) by reflexivity.
  refine (conj H1 (conj H2 (conj H3 (conj H4 (conj H5 (conj H6 _)))))).
  exact (second_run_changed_skips_all (F := Q) demo_env demo_args empty_world
           w1 w1 s1 true true H1 H2 H3 H4 H5 H6).
Defined.

(** The second runs, in mode [changed], after a run that built every
    candidate: over the twin tree with different bytes, and over the small
    tree with [--clean]. *)
Lemma twin_second_run_printed :
  printed (main (F := Q) (twin_env "bytes3") (rerun_changed demo_args false false))
    (snd (main (F := Q) (twin_env "bytes3") demo_args empty_world)) =
    [ LBuild RContentChanged ["A\b.png"] ["sxa_A\b.png"];
      LBuild RContentChanged ["A"; "b.png"] ["A"; "sxa_b.png"] ].
Proof. vm_compute. reflexivity. Qed.

Lemma clean_second_run_printed :
  printed (main (F := Q) demo_env (rerun_changed demo_args true false))
    (snd (main (F := Q) demo_env demo_args empty_world)) =
    [ LClean; LForced;
      LBuild RNew ["A"; "a.png"] ["A"; "sxa_a.png"];
      LBuild RNew ["B"; "b.svg"] ["B"; "sxa_b.png"] ].
Proof. vm_compute. reflexivity. Qed.

(** C6 (as stated) fails, in two ways.  When two candidates share a
    cache key (the root file [A\b.png] beside [A/b.png], with different
    bytes), the entry under that key holds the digest of the one built
    last, and the second run, without [--clean], builds both for changed
    content.  And with distinct keys, a second run with [--clean] removes
    the output directory and the cache with it, and builds every
    candidate anew. *)
Lemma second_run_changed_may_rebuild :
  ~ (forall (E : env) (a : Args) (w0 w1 w2 : world) (s1 : summary) (dry : bool),
       dry_run a = false ->
       main (F := Q) E a w0 = (Ret s1, w1) ->
       s_ok s1 = s_total s1 ->
       w_cache w2 = w_cache w1 ->
       skips_every_candidate (F := Q) E (rerun_changed a false dry) w2) /\
  ~ (forall (E : env) (a : Args) (w0 w1 w2 : world) (s1 : summary) (cl dry : bool),
       NoDup (map cand_key (to_process E a)) ->
       dry_run a = false ->
       main (F := Q) E a w0 = (Ret s1, w1) ->
       s_ok s1 = s_total s1 ->
       w_cache w2 = w_cache w1 ->
       skips_every_candidate (F := Q) E (rerun_changed a cl dry) w2).
Proof.
  split; intros H.
  - assert (Hrun : main (F := Q) (twin_env "bytes3") demo_args empty_world =
                   (Ret {| s_total := 2; s_ok := 2; s_skipped := 0; s_mode := All |},
                    snd (main (F := Q) (twin_env "bytes3") demo_args empty_world)))
      by (vm_compute; reflexivity).
    destruct (H (twin_env "bytes3") demo_args empty_world _ _ _ false
                eq_refl Hrun eq_refl eq_refl) as (s & w' & _ & Hp & _).
    rewrite twin_second_run_printed in Hp. discriminate Hp.
  - assert (Hrun : main (F := Q) demo_env demo_args empty_world =
                   (Ret {| s_total := 2; s_ok := 2; s_skipped := 0; s_mode := All |},
                    snd (main (F := Q) demo_env demo_args empty_world)))
      by (vm_compute; reflexivity).
    assert (Hnd : NoDup (map cand_key (to_process demo_env demo_args))).
    { rewrite (demo_candidates demo_args eq_refl eq_refl eq_refl eq_refl).
      cbn. apply NoDup_cons. split; [|apply NoDup_singleton].
      intros H1. apply list_elem_of_singleton in H1. discriminate H1. }
    destruct (H demo_env demo_args empty_world _ _ _ true false
                Hnd eq_refl Hrun eq_refl eq_refl) as (s & w' & _ & Hp & _).
    rewrite clean_second_run_printed in Hp. discriminate Hp.
Qed.

(* ===================================================================== *)
(** ** Command-line lists: properties *)
(* ===================================================================== *)

Lemma has_char_app (c : ascii) (a b : string) :
  has_char c (a ++ b)%string = has_char c a || has_char c b.
Proof.
  induction a as [|x a IH]; simpl; [reflexivity |].
  rewrite IH. apply orb_assoc.
Qed.

Lemma split_comma_no_comma (s cur p : ustr) :
  ~ In comma cur ->
  In p (split_comma s cur) ->
  ~ In comma p.
Proof.
  revert cur. induction s as [|c r IH]; intros cur Hcur Hin; simpl in Hin.
  - destruct Hin as [<- | []]. exact Hcur.
  - destruct (N.eqb_spec c comma) as [Hc|Hc].
    + destruct Hin as [<- | Hin]; [exact Hcur |].
      apply (IH []); [intros [] | exact Hin].
    + apply (IH (cur ++ [c])); [|exact Hin].
      intros Hi. apply in_app_or in Hi as [Hi | [Hi | []]];
        [exact (Hcur Hi) | congruence].
Qed.

Lemma In_lstrip (c : N) (s : ustr) : In c (lstrip s) -> In c s.
Proof.
  induction s as [|x r IH]; simpl; [auto |].
  destruct (is_space x); [right; auto | auto].
Qed.

Lemma In_rstrip (c : N) (s : ustr) : In c (rstrip s) -> In c s.
Proof.
  induction s as [|x r IH]; simpl; [auto |].
  destruct (rstrip r) as [|y r'].
  - destruct (is_space x); simpl; [intros [] | intros [H | []]; auto].
  - intros [H | H]; [auto | right; apply IH; exact H].
Qed.

Lemma rstrip_idem (s : ustr) : rstrip (rstrip s) = rstrip s.
Proof.
  induction s as [|x r IH]; simpl; [reflexivity |].
  destruct (rstrip r) as [|y r'] eqn:Hr.
  - destruct (is_space x) eqn:Hx; simpl; [reflexivity |]. rewrite Hx. reflexivity.
  - cbn [rstrip]. cbn [rstrip] in IH. rewrite IH. reflexivity.
Qed.

Lemma lstrip_head (s : ustr) :
  match lstrip s with
  | [] => True
  | c :: _ => is_space c = false
  end.
Proof.
  induction s as [|x r IH]; simpl; [exact I |].
  destruct (is_space x) eqn:Hx; [exact IH | exact Hx].
Qed.

Lemma lstrip_rstrip_head (s : ustr) :
  match s with
  | [] => True
  | c :: _ => is_space c = false
  end ->
  lstrip (rstrip s) = rstrip s.
Proof.
  destruct s as [|c r]; [reflexivity |]. intros Hc. cbn [rstrip].
  destruct (rstrip r); [rewrite Hc |]; cbn [lstrip]; rewrite Hc; reflexivity.
Qed.

Lemma strip_idem (s : ustr) : strip (strip s) = strip s.
Proof.
  unfold strip. rewrite (lstrip_rstrip_head (lstrip s) (lstrip_head s)).
  apply rstrip_idem.
Qed.

Lemma rstrip_last (s : ustr) :
  match last (rstrip s) with
  | Some c => is_space c = false
  | None => True
  end.
Proof.
  induction s as [|x r IH]; simpl; [exact I |].
  destruct (rstrip r) as [|y r'].
  - destruct (is_space x) eqn:Hx; simpl; [exact I | exact Hx].
  - exact IH.
Qed.

(** A stripped name has no white space at either end. *)
Lemma strip_ends (s : ustr) (c : N) :
  at_end c (strip s) -> is_space c = false.
Proof.
  intros [Hh | Hl].
  - unfold strip in Hh.
    rewrite <- (lstrip_rstrip_head (lstrip s) (lstrip_head s)) in Hh.
    pose proof (lstrip_head (rstrip (lstrip s))) as H.
    destruct (lstrip (rstrip (lstrip s))) as [|d r]; [discriminate Hh |].
    injection Hh as <-. exact H.
  - pose proof (rstrip_last (lstrip s)) as H. unfold strip in Hl.
    rewrite Hl in H. exact H.
Qed.

(** X1.  No name of a parsed comma-separated list is empty, carries
    white space (ASCII or not) at either end, or holds a comma. *)
Theorem parse_csv_list_names (val : option ustr) (x : ustr) :
  x ∈ parse_csv_list val ->
  x <> [] /\ strip x = x /\ ~ In comma x /\
  (forall c, at_end c x -> is_space c = false).
Proof.
  unfold parse_csv_list.
  destruct val as [[|c r]|];
    try (intros H; exfalso; revert H; apply not_elem_of_empty).
  rewrite elem_of_list_to_set, list_elem_of_In, filter_In, in_map_iff.
  intros ((p & <- & Hp) & Hne).
  split; [|split; [|split]].
  - intros Heq. rewrite Heq in Hne. discriminate Hne.
  - apply strip_idem.
  - intros Hin. unfold strip in Hin. apply In_rstrip, In_lstrip in Hin.
    revert Hin. apply (split_comma_no_comma (c :: r) [] p); [intros [] | exact Hp].
  - apply strip_ends.
Qed.

Lemma parse_csv_list_names_witness :
  let val := 160%N :: ustr_of " Portugal ,France,, " in
  ustr_of "Portugal" ∈ parse_csv_list (Some val) /\
  (ustr_of "Portugal" <> [] /\ strip (ustr_of "Portugal") = ustr_of "Portugal" /\
   ~ In comma (ustr_of "Portugal") /\
   (forall c, at_end c (ustr_of "Portugal") -> is_space c = false)).
Proof.
  intros val.
  assert (H1 : ustr_of "Portugal" ∈ parse_csv_list (Some val))
    by (apply (bool_decide_unpack _); vm_compute; exact I).
  refine (conj H1 _).
  exact (parse_csv_list_names (Some val) (ustr_of "Portugal") H1).
Defined.

(* ===================================================================== *)
(** ** File digests: properties *)
(* ===================================================================== *)

Lemma str_app_cons (c : ascii) (a b : string) :
  (String c a ++ b)%string = String c (a ++ b)%string.
Proof. reflexivity. Qed.

Lemma str_app_nil_r (s : string) : (s ++ "")%string = s.
Proof.
  induction s as [|c r IH]; [reflexivity |].
  rewrite str_app_cons, IH. reflexivity.
Qed.

Lemma str_app_assoc (a b c : string) :
  ((a ++ b) ++ c)%string = (a ++ (b ++ c))%string.
Proof.
  induction a as [|x a IH]; [reflexivity |].
  rewrite !str_app_cons, IH. reflexivity.
Qed.

Lemma str_length_app (a b : string) :
  String.length (a ++ b)%string = String.length a + String.length b.
Proof.
  induction a as [|x a IH]; [reflexivity |].
  rewrite str_app_cons. cbn [String.length]. rewrite IH. reflexivity.
Qed.

Lemma str_take_drop (n : nat) (s : string) :
  (str_take n s ++ str_drop n s)%string = s.
Proof.
  revert s. induction n as [|n IH]; intros [|c r]; try reflexivity.
  cbn [str_take str_drop]. rewrite str_app_cons, IH. reflexivity.
Qed.

Lemma str_drop_length (n : nat) (s : string) :
  String.length (str_drop n s) = String.length s - n.
Proof.
  revert s. induction n as [|n IH]; intros [|c r]; try reflexivity.
  cbn [str_drop String.length]. apply IH.
Qed.

Section DigestFacts.
Context {H : Type} {HH : Hasher H}.

(** The two facts about [hashlib] objects the loop relies on: feeding
    nothing changes nothing, and feeding two pieces in a row is feeding
    their concatenation. *)
Hypothesis update_empty : forall h : H, h_update h "" = h.
Hypothesis update_app :
  forall (h : H) (a b : bytes), h_update (h_update h a) b = h_update h (a ++ b)%string.

Lemma read_loop_all (fuel chunk_size : nat) (h : H) (data : bytes) :
  0 < chunk_size ->
  String.length data < fuel ->
  read_loop fuel chunk_size h data = h_update h data.
Proof.
  intros Hn. revert h data. induction fuel as [|fuel IH]; intros h data Hlen;
    [lia |].
  cbn [read_loop].
  destruct data as [|c r].
  - destruct chunk_size; cbn; rewrite update_empty; reflexivity.
  - destruct chunk_size as [|n]; [lia |].
    cbn [str_take str_drop].
    rewrite IH.
    + rewrite update_app, str_app_cons, str_take_drop. reflexivity.
    + rewrite str_drop_length. cbn [String.length] in Hlen. lia.
Qed.

(** X2.  For a positive chunk size, [sha1_of_file] is the digest of the
    whole content fed at once: the result does not depend on how the file
    is cut into chunks. *)
Theorem sha1_of_file_whole (data : bytes) (chunk_size : nat) :
  0 < chunk_size ->
  sha1_of_file data chunk_size = h_hexdigest (h_update h_new data).
Proof.
  intros Hn. unfold sha1_of_file. rewrite read_loop_all by lia. reflexivity.
Qed.
End DigestFacts.

Lemma sha1_of_file_whole_witness :
  (forall h : string, h_update h "" = h) /\
  (forall (h : string) (a b : bytes),
     h_update (h_update h a) b = h_update h (a ++ b)%string) /\
  0 < 3 /\
  sha1_of_file (H := string) "bytes1" 3 = h_hexdigest (h_update h_new "bytes1").
Proof.
  assert (H1 : forall h : string, h_update h "" = h) by (exact str_app_nil_r).
  assert (H2 : forall (h : string) (a b : bytes),
             h_update (h_update h a) b = h_update h (a ++ b)%string)
    by (exact str_app_assoc).
  assert (H3 : 0 < 3) by lia.
  refine (conj H1 (conj H2 (conj H3 _))).
  exact (sha1_of_file_whole (H := string) H1 H2 "bytes1" 3 H3).
Defined.

(* ===================================================================== *)
(** ** Traversal and filter engine: more properties *)
(* ===================================================================== *)

(** X3.  A file whose top category is in the exclusion set is never a
    candidate, whatever the inclusion set holds and whatever the patterns
    match. *)
Theorem excluded_top_never_candidate
    (pm : string -> string -> bool) (only excl pats : gset string)
    (rel : list string) (top : string) :
  top_level_dir_of rel = Some top ->
  top ∈ excl ->
  is_candidate pm only excl pats rel = false.
Proof.
  intros Htop Hin. apply not_true_is_false. intros Hc.
  apply (is_candidate_with_top pm only excl pats rel top Htop) in Hc.
  destruct Hc as (_ & Hout & _). exact (Hout Hin).
Qed.

Lemma excluded_top_never_candidate_witness :
  top_level_dir_of ["B"; "b.svg"] = Some "B" /\
  "B" ∈ ({["B"]} : gset string) /\
  is_candidate glob_match {["B"]} {["B"]} {["*.svg"]} ["B"; "b.svg"] = false.
Proof.
  assert (H1 : top_level_dir_of ["B"; "b.svg"] = Some "B") by reflexivity.
  assert (H2 : "B" ∈ ({["B"]} : gset string)) by (apply mem_true; reflexivity).
  refine (conj H1 (conj H2 _)).
  exact (excluded_top_never_candidate glob_match {["B"]} {["B"]} {["*.svg"]}
           ["B"; "b.svg"] "B" H1 H2).
Defined.

Lemma replace_backslash_id (s : string) :
  has_char backslash s = false -> replace_backslash s = s.
Proof.
  induction s as [|c r IH]; [reflexivity |]. cbn [has_char replace_backslash].
  intros H. apply orb_false_iff in H as [Hc Hr].
  rewrite Ascii.eqb_sym, Hc, (IH Hr). reflexivity.
Qed.

Lemma has_char_concat (c : ascii) (sep : string) (l : list string) :
  has_char c sep = false ->
  Forall (fun s => has_char c s = false) l ->
  has_char c (String.concat sep l) = false.
Proof.
  intros Hsep Hl. induction Hl as [|x l Hx Hl IH]; [reflexivity |].
  cbn [String.concat]. destruct l as [|y l]; [exact Hx |].
  rewrite !has_char_app, Hx, Hsep, IH. reflexivity.
Qed.

(** Two strings without a slash that are followed by a slash in the same
    text are the same string. *)
Lemma app_slash_inj (x y r1 r2 : string) :
  has_char slash x = false -> has_char slash y = false ->
  (x ++ String slash r1)%string = (y ++ String slash r2)%string ->
  x = y /\ r1 = r2.
Proof.
  revert y. induction x as [|c x IH]; intros [|d y] Hx Hy Heq.
  - injection Heq as ->. auto.
  - rewrite str_app_cons in Heq. injection Heq as <- _.
    cbn [has_char] in Hy. rewrite Ascii.eqb_refl in Hy. discriminate Hy.
  - rewrite str_app_cons in Heq. injection Heq as -> _.
    cbn [has_char] in Hx. rewrite Ascii.eqb_refl in Hx. discriminate Hx.
  - rewrite !str_app_cons in Heq. injection Heq as -> Heq.
    cbn [has_char] in Hx, Hy.
    apply orb_false_iff in Hx as [_ Hx]. apply orb_false_iff in Hy as [_ Hy].
    destruct (IH y Hx Hy Heq) as [-> ->]. auto.
Qed.

Lemma has_slash_app (y r : string) :
  has_char slash (y ++ String slash r)%string = true.
Proof.
  rewrite has_char_app. cbn [has_char]. rewrite Ascii.eqb_refl.
  apply orb_true_r.
Qed.

Lemma concat_slash_inj (rel1 rel2 : list string) :
  path_ok rel1 -> path_ok rel2 ->
  String.concat "/" rel1 = String.concat "/" rel2 ->
  rel1 = rel2.
Proof.
  intros H1. revert rel2. induction H1 as [|x l1 Hx H1 IH]; intros rel2 H2 Heq.
  - destruct H2 as [|y l2 Hy H2]; [reflexivity |]. exfalso.
    destruct Hy as (Hne & _). cbn [String.concat] in Heq.
    destruct l2; [congruence |]. destruct y; [congruence | discriminate Heq].
  - destruct H2 as [|y l2 Hy H2].
    + exfalso. destruct Hx as (Hne & _). cbn [String.concat] in Heq.
      destruct l1; [congruence |]. destruct x; [congruence | discriminate Heq].
    + destruct Hx as (_ & Hxs & _), Hy as (_ & Hys & _).
      cbn [String.concat] in Heq.
      destruct l1 as [|x' l1], l2 as [|y' l2].
      * congruence.
      * exfalso. rewrite Heq in Hxs.
        change ("/" ++ String.concat "/" (y' :: l2))%string
          with (String slash (String.concat "/" (y' :: l2))) in Hxs.
        rewrite has_slash_app in Hxs. discriminate Hxs.
      * exfalso. rewrite <- Heq in Hys.
        change ("/" ++ String.concat "/" (x' :: l1))%string
          with (String slash (String.concat "/" (x' :: l1))) in Hys.
        rewrite has_slash_app in Hys. discriminate Hys.
      * change ("/" ++ String.concat "/" (x' :: l1))%string
          with (String slash (String.concat "/" (x' :: l1))) in Heq.
        change ("/" ++ String.concat "/" (y' :: l2))%string
          with (String slash (String.concat "/" (y' :: l2))) in Heq.
        destruct (app_slash_inj _ _ _ _ Hxs Hys Heq) as [-> Hr].
        f_equal. apply IH; assumption.
Qed.

Lemma norm_key_inj_ok (rel1 rel2 : list string) :
  path_ok rel1 -> path_ok rel2 ->
  norm_key rel1 = norm_key rel2 ->
  rel1 = rel2.
Proof.
  intros H1 H2. unfold norm_key.
  assert (Hb : forall rel, path_ok rel ->
            has_char backslash (String.concat "/" rel) = false).
  { intros rel Hrel. apply has_char_concat; [reflexivity |].
    eapply Forall_impl; [exact Hrel |]. intros s (_ & _ & Hs). exact Hs. }
  rewrite !replace_backslash_id by (apply Hb; assumption).
  apply concat_slash_inj; assumption.
Qed.

(** X4.  On paths whose segments are not empty and hold neither a slash
    nor a backslash, the cache key determines the path. *)
Theorem norm_key_inj (rel1 rel2 : list string) :
  path_ok rel1 -> path_ok rel2 ->
  norm_key rel1 = norm_key rel2 ->
  rel1 = rel2.
Proof.
  intros H1 H2. unfold norm_key.
  assert (Hb : forall rel, path_ok rel ->
            has_char backslash (String.concat "/" rel) = false).
  { intros rel Hrel. apply has_char_concat; [reflexivity |].
    eapply Forall_impl; [exact Hrel |]. intros s (_ & _ & Hs). exact Hs. }
  rewrite !replace_backslash_id by (apply Hb; assumption).
  apply concat_slash_inj; assumption.
Qed.

Lemma is_candidate_ext (pm : string -> string -> bool)
    (only excl pats : gset string) (rel : list string) :
  is_candidate pm only excl pats rel = true ->
  lower (suffix rel) ∈ IMAGE_EXTS.
Proof.
  unfold is_candidate. intros H. apply mem_true.
  destruct (negb (category_pass only excl pats rel)); [discriminate |].
  destruct (nonempty pats && negb (matches_any_pattern pm rel pats));
    [discriminate |].
  destruct (mem (lower (suffix rel)) IMAGE_EXTS); [reflexivity | discriminate].
Qed.

Lemma to_process_elem (E : env) (a : Args) (c : entry * list string) :
  c ∈ to_process E a <->
  exists e,
    e ∈ tree E /\ e_is_dir e = false /\
    is_candidate (path_match E) (only_set a) (exclude_set a) (match_patterns a)
      (e_rel e) = true /\
    c = (e, out_rel_of (prefix (cfg a)) (e_rel e)).
Proof.
  unfold to_process. rewrite list_elem_of_In, in_flat_map. split.
  - intros (e & He & Hc). exists e. apply list_elem_of_In in He.
    destruct (e_is_dir e); [destruct Hc |].
    destruct (is_candidate _ _ _ _ _); [|destruct Hc].
    destruct Hc as [<- | []]. auto.
  - intros (e & He & Hd & Hc & ->). exists e. apply list_elem_of_In in He.
    split; [exact He |]. rewrite Hd, Hc. left. reflexivity.
Qed.

(** X5.  What the enumeration yields: every candidate is a file of the
    tree, never a directory, with an extension of [IMAGE_EXTS] up to
    case, a top category outside the exclusion set and, when an inclusion
    set is given, inside it; its output path is the one derived from its
    relative path and the prefix. *)
Theorem to_process_sound (E : env) (a : Args) (c : entry * list string) :
  c ∈ to_process E a ->
  fst c ∈ tree E /\
  e_is_dir (fst c) = false /\
  lower (suffix (e_rel (fst c))) ∈ IMAGE_EXTS /\
  snd c = out_rel_of (prefix (cfg a)) (e_rel (fst c)) /\
  (forall top, top_level_dir_of (e_rel (fst c)) = Some top ->
     (top ∉ exclude_set a) /\ (only_set a = ∅ \/ top ∈ only_set a)).
Proof.
  intros Hc. apply to_process_elem in Hc as (e & He & Hd & Hcand & ->).
  cbn [fst snd]. split; [exact He |]. split; [exact Hd |].
  split; [exact (is_candidate_ext _ _ _ _ _ Hcand) |].
  split; [reflexivity |].
  intros top Htop.
  apply (is_candidate_with_top _ _ _ _ _ top Htop) in Hcand.
  destruct Hcand as (Ho & Hx & _). auto.
Qed.

(** X6.  When the tree lists every relative path once and no segment is
    empty or holds a slash or a backslash, the candidates have pairwise
    distinct cache keys. *)
Theorem to_process_distinct_keys (E : env) (a : Args) :
  NoDup (map e_rel (tree E)) ->
  Forall (fun e => path_ok (e_rel e)) (tree E) ->
  NoDup (map cand_key (to_process E a)).
Proof.
  unfold to_process.
  set (f := fun e : entry =>
    if e_is_dir e then []
    else if is_candidate (path_match E) (only_set a) (exclude_set a)
              (match_patterns a) (e_rel e)
    then [(e, out_rel_of (prefix (cfg a)) (e_rel e))]
    else []).
  assert (Hf : forall e c, In c (f e) -> fst c = e).
  { intros e c. unfold f. destruct (e_is_dir e); [intros []|].
    destruct (is_candidate _ _ _ _ _); [|intros []].
    intros [<- | []]. reflexivity. }
  induction (tree E) as [|e l IH]; intros Hnd Hok; [constructor |].
  cbn [map] in Hnd. apply NoDup_cons in Hnd as [Hnotin Hnd].
  apply Forall_cons in Hok as [He Hok].
  specialize (IH Hnd Hok). cbn [flat_map]. rewrite map_app.
  assert (Hfe : f e = [] \/ exists out, f e = [(e, out)]).
  { unfold f. destruct (e_is_dir e); [left; reflexivity |].
    destruct (is_candidate _ _ _ _ _); [right; eauto | left; reflexivity]. }
  destruct Hfe as [-> | (out & ->)]; [exact IH |].
  cbn [map app]. apply NoDup_cons. split; [|exact IH].
  intros Hin. apply Hnotin.
  apply list_elem_of_fmap in Hin as (c' & Hkey & Hc').
  apply list_elem_of_In, in_flat_map in Hc' as (e' & He' & Hc').
  apply Hf in Hc'. subst e'.
  unfold cand_key in Hkey. cbn [fst] in Hkey.
  rewrite Forall_forall in Hok.
  assert (Hrel : e_rel e = e_rel (fst c')).
  { apply norm_key_inj_ok; [exact He | | exact Hkey].
    apply Hok. apply list_elem_of_In. exact He'. }
  rewrite Hrel. apply list_elem_of_fmap. exists (fst c').
  split; [reflexivity | apply list_elem_of_In; exact He'].
Qed.

Lemma substring_full (s : string) : substring 0 (String.length s) s = s.
Proof.
  induction s as [|c r IH]; [reflexivity |].
  cbn [String.length substring]. rewrite IH. reflexivity.
Qed.

Lemma substring_split (s : string) (i : nat) :
  i <= String.length s ->
  (substring 0 i s ++ substring i (String.length s - i) s)%string = s.
Proof.
  revert i. induction s as [|c r IH]; intros i Hi.
  - cbn [String.length] in Hi. replace i with 0 by lia. reflexivity.
  - destruct i as [|i].
    + rewrite Nat.sub_0_r, substring_full. reflexivity.
    + cbn [String.length] in Hi |- *. cbn [substring Nat.sub].
      rewrite str_app_cons, IH by lia. reflexivity.
Qed.

Lemma substring_prefix_length (s : string) (i : nat) :
  i <= String.length s -> String.length (substring 0 i s) = i.
Proof.
  revert i. induction s as [|c r IH]; intros i Hi.
  - cbn [String.length] in Hi. replace i with 0 by lia. reflexivity.
  - destruct i as [|i]; [reflexivity |].
    cbn [String.length] in Hi |- *. cbn [substring String.length].
    rewrite IH by lia. reflexivity.
Qed.

Lemma substring_suffix_length (s : string) (i : nat) :
  i <= String.length s ->
  String.length (substring i (String.length s - i) s) = String.length s - i.
Proof.
  intros Hi. pose proof (substring_split s i Hi) as H.
  apply (f_equal String.length) in H.
  rewrite str_length_app, substring_prefix_length in H by exact Hi. lia.
Qed.

(** A name is its stem followed by its suffix, and [with_suffix] puts
    the new suffix after that stem. *)
Lemma name_with_suffix_stem (name sfx : string) :
  exists stem,
    name = (stem ++ suffix_of_name name)%string /\
    name_with_suffix name sfx = (stem ++ sfx)%string.
Proof.
  unfold name_with_suffix, suffix_of_name.
  destruct (rfind_dot name 0 None) as [i|].
  - destruct ((0 <? i)%nat && (i <? String.length name - 1)%nat) eqn:Hc.
    + apply andb_true_iff in Hc as [_ Hi]. apply Nat.ltb_lt in Hi.
      exists (substring 0 i name).
      rewrite substring_suffix_length by lia.
      replace (String.length name - (String.length name - i)) with i by lia.
      split; [|reflexivity]. symmetry. apply substring_split. lia.
    + exists name. cbn [String.length]. rewrite Nat.sub_0_r, substring_full.
      split; [|reflexivity]. symmetry. apply str_app_nil_r.
  - exists name. cbn [String.length]. rewrite Nat.sub_0_r, substring_full.
    split; [|reflexivity]. symmetry. apply str_app_nil_r.
Qed.

Lemma split_slash_no_slash (s cur : string) :
  has_char slash s = false -> split_slash s cur = [(cur ++ s)%string].
Proof.
  revert cur. induction s as [|c r IH]; intros cur Hs.
  - cbn. rewrite str_app_nil_r. reflexivity.
  - cbn [has_char] in Hs. apply orb_false_iff in Hs as [Hc Hr].
    cbn [split_slash]. rewrite Ascii.eqb_sym, Hc, (IH _ Hr), str_app_assoc.
    reflexivity.
Qed.

Lemma path_root_no_slash (s : string) :
  has_char slash s = false -> path_root s = None.
Proof.
  destruct s as [|c r]; [reflexivity |]. cbn [has_char path_root].
  intros H. apply orb_false_iff in H as [Hc _].
  rewrite Ascii.eqb_sym, Hc. reflexivity.
Qed.

(** Joining a text without a slash, other than the empty text and [.],
    adds it as one part. *)
Lemma joinpath_no_slash (base : list string) (s : string) :
  has_char slash s = false -> 2 <= String.length s ->
  joinpath base s = base ++ [s].
Proof.
  intros Hs Hlen. unfold joinpath, path_parts.
  rewrite (path_root_no_slash s Hs), (split_slash_no_slash s "" Hs).
  change ("" ++ s)%string with s. cbn [List.filter].
  destruct s as [|c [|d r]]; cbn [String.length] in Hlen; try lia.
  assert (H1 : String.eqb (String c (String d r)) "" = false)
    by (apply String.eqb_neq; discriminate).
  assert (H2 : String.eqb (String c (String d r)) "." = false)
    by (apply String.eqb_neq; discriminate).
  rewrite H1, H2. reflexivity.
Qed.

(** X7.  The output path is the directories of the relative path joined,
    as a path, with the prefix followed by the stem of the source name
    (the name without its last suffix) and [.png].  With a prefix that
    holds no slash this keeps the directories and puts the prefix in front
    of the file name; a prefix with a slash adds directories or, when it
    starts with one, replaces them. *)
Theorem out_rel_of_shape (pre : string) (rel : list string) :
  exists stem,
    name_of rel = (stem ++ suffix rel)%string /\
    out_rel_of pre rel = joinpath (parent rel) (pre ++ (stem ++ ".png"))%string /\
    (has_char slash pre = false ->
     has_char slash (name_of rel) = false ->
     out_rel_of pre rel = parent rel ++ [(pre ++ (stem ++ ".png"))%string]).
Proof.
  destruct (name_with_suffix_stem (name_of rel) ".png") as (stem & Hn & Hw).
  exists stem. split; [exact Hn |].
  assert (Heq : out_rel_of pre rel =
                joinpath (parent rel) (pre ++ (stem ++ ".png"))%string).
  { unfold out_rel_of, with_suffix, parent, name_of.
    rewrite removelast_last, last_last.
    unfold name_of in Hw. rewrite Hw. reflexivity. }
  split; [exact Heq |].
  intros Hpre Hname. rewrite Heq. apply joinpath_no_slash.
  - rewrite Hn, has_char_app in Hname. apply orb_false_iff in Hname as [Hstem _].
    rewrite !has_char_app, Hpre, Hstem. reflexivity.
  - rewrite !str_length_app. cbn [String.length]. lia.
Qed.

(** A prefix with a slash: [new/] puts the picon into a directory [new]
    beside the source, [/x_] gives a path from the root. *)
Lemma out_rel_of_slash_prefix :
  out_rel_of "new/" ["A"; "a.png"] = ["A"; "new"; "a.png"] /\
  out_rel_of "/x_" ["A"; "a.png"] = ["/"; "x_a.png"].
Proof. split; vm_compute; reflexivity. Qed.

(** Under the prefix [/x_] the output paths do not lie below the output
    directory [out]: the first BUILD line cannot be written, and the run,
    dry or not, ends in [ValueError] having printed nothing. *)
Lemma rooted_prefix_run :
  shown_path demo_env ["/"; "x_a.png"] = Raise ValueError /\
  main (F := Q) demo_env rooted_args empty_world = (Raise ValueError, empty_world).
Proof. split; vm_compute; reflexivity. Qed.

(* ===================================================================== *)
(** ** Source loader and [process_one]: more properties *)
(* ===================================================================== *)

Section LoaderFrame.
Context {F : Type} {FO : FloatOps F} {AL : Allocator}.
Variable E : env.

(** What the loader leaves alone: any part of the world that the
    creation and the removal of a temporary raster leave alone. *)
Lemma open_image_any_preserves {X : Type} (p : world -> X) rel data eng :
  (forall tmp b, preserves p (write_tmp tmp b)) ->
  (forall tmp, preserves p (unlink_tmp tmp)) ->
  preserves p (open_image_any E rel data eng).
Proof.
  intros Hw Hu.
  assert (Hrl : forall A o tmp (f : image -> A),
            preserves p (run_rasterizer o tmp ;;;
                         img <- load_tmp E tmp ;; ret (f img))).
  { intros A o tmp f. apply preserves_bind.
    - unfold run_rasterizer. apply preserves_bind.
      + destruct (ro_written o); [apply Hw | apply preserves_ret].
      + intros _. destruct (ro_raises o);
          [apply preserves_raise | apply preserves_ret].
    - intros _. apply preserves_bind; [|intros img; apply preserves_ret].
      intros w. unfold load_tmp. destruct (w_tmp w !! tmp) as [b|]; [|reflexivity].
      destruct (pil_open E b); try reflexivity.
      exact (preserves_bind p _ _ (Hu tmp) (fun _ => preserves_ret p _) w). }
  unfold open_image_any.
  destruct (String.eqb (lower (suffix rel)) ".svg").
  - destruct (engine_eqb eng Skip); [apply preserves_ret |].
    apply preserves_bind.
    + destruct (engine_in eng [Auto; Cairosvg]); [|apply preserves_ret].
      apply preserves_try_except; [apply Hrl |].
      intros _. destruct (engine_eqb eng Cairosvg); apply preserves_ret.
    + intros [r|]; [apply preserves_ret |].
      destruct (engine_in eng [Auto; Inkscape]); [|apply preserves_ret].
      destruct (negb (which_inkscape E)); [apply preserves_ret |].
      apply preserves_try_except; [apply Hrl |].
      intros _. apply preserves_ret.
  - destruct (pil_open E data);
      [apply preserves_ret | apply preserves_ret | apply preserves_ret
      | apply preserves_raise].
Qed.

Lemma open_image_any_frame rel data eng w :
  let w' := snd (open_image_any E rel data eng w) in
  w_outputs w' = w_outputs w /\ w_cache w' = w_cache w /\ w_outdir w' = w_outdir w.
Proof.
  cbv zeta. repeat split.
  - apply (open_image_any_preserves w_outputs); intros; intros ?; reflexivity.
  - apply (open_image_any_preserves w_cache); intros; intros ?; reflexivity.
  - apply (open_image_any_preserves w_outdir); intros; intros ?; reflexivity.
Qed.

Lemma writes_only_none {A} (P : fs_write -> Prop) (m : M A) :
  preserves w_log m -> writes_only P m.
Proof.
  intros Hm w. exists []. rewrite app_nil_r. split; [apply Hm | constructor].
Qed.

Lemma writes_only_bind {A B} (P : fs_write -> Prop) (m : M A) (k : A -> M B) :
  writes_only P m -> (forall a, writes_only P (k a)) -> writes_only P (bind m k).
Proof.
  intros Hm Hk w. unfold bind. destruct (Hm w) as (ops1 & H1 & HP1).
  destruct (m w) as [[a|ex] w1]; cbn [snd] in H1.
  - destruct (Hk a w1) as (ops2 & H2 & HP2). exists (ops1 ++ ops2).
    rewrite H2, H1, <- app_assoc. split; [reflexivity |].
    apply Forall_app. auto.
  - exists ops1. auto.
Qed.

Lemma writes_only_try_except {A} (P : fs_write -> Prop) (m : M A) (h : exn -> M A) :
  writes_only P m -> (forall e, writes_only P (h e)) ->
  writes_only P (try_except m h).
Proof.
  intros Hm Hh w. unfold try_except. destruct (Hm w) as (ops1 & H1 & HP1).
  destruct (m w) as [[a|ex] w1]; cbn [snd] in H1; [exists ops1; auto |].
  destruct (is_Exception ex); [|exists ops1; auto].
  destruct (Hh ex w1) as (ops2 & H2 & HP2). exists (ops1 ++ ops2).
  rewrite H2, H1, <- app_assoc. split; [reflexivity |].
  apply Forall_app. auto.
Qed.

Lemma raster_attempt_writes {A} o tmp (f : image -> A) :
  writes_only (tmp_write tmp)
    (run_rasterizer o tmp ;;; img <- load_tmp E tmp ;; ret (f img)).
Proof.
  apply writes_only_bind.
  - unfold run_rasterizer. apply writes_only_bind.
    + destruct (ro_written o) as [b|].
      * intros w. exists [WTmpCreate tmp]. split; [reflexivity |].
        constructor; [left; reflexivity | constructor].
      * apply writes_only_none, preserves_ret.
    + intros _. destruct (ro_raises o); apply writes_only_none;
        [apply preserves_raise | apply preserves_ret].
  - intros _. apply writes_only_bind;
      [|intros img; apply writes_only_none, preserves_ret].
    intros w. unfold load_tmp.
    destruct (w_tmp w !! tmp) as [b|];
      [|exists []; rewrite app_nil_r; split; [reflexivity | constructor]].
    destruct (pil_open E b);
      try (exists []; rewrite app_nil_r; split; [reflexivity | constructor]).
    exists [WTmpUnlink tmp]. split; [reflexivity |].
    constructor; [right; reflexivity | constructor].
Qed.

(** X8.  The only write calls of the loader are the creation and the
    removal of the temporary raster of the file it loads, the file beside
    the source whose name ends in [.tmp._rasterized.png]; for a file that
    is not an SVG it makes no write call at all. *)
Theorem open_image_any_writes_only_tmp rel data eng :
  writes_only (tmp_write (with_suffix rel ".tmp._rasterized.png"))
    (open_image_any E rel data eng) /\
  (lower (suffix rel) <> ".svg" ->
   forall w, w_log (snd (open_image_any E rel data eng w)) = w_log w).
Proof.
  split.
  - unfold open_image_any.
    destruct (String.eqb (lower (suffix rel)) ".svg").
    + destruct (engine_eqb eng Skip); [apply writes_only_none, preserves_ret |].
      apply writes_only_bind.
      * destruct (engine_in eng [Auto; Cairosvg]);
          [|apply writes_only_none, preserves_ret].
        apply writes_only_try_except; [apply raster_attempt_writes |].
        intros _. destruct (engine_eqb eng Cairosvg);
          apply writes_only_none, preserves_ret.
      * intros [r|]; [apply writes_only_none, preserves_ret |].
        destruct (engine_in eng [Auto; Inkscape]);
          [|apply writes_only_none, preserves_ret].
        destruct (negb (which_inkscape E));
          [apply writes_only_none, preserves_ret |].
        apply writes_only_try_except; [apply raster_attempt_writes |].
        intros _. apply writes_only_none, preserves_ret.
    + apply writes_only_none.
      destruct (pil_open E data);
        [apply preserves_ret | apply preserves_ret | apply preserves_ret
        | apply preserves_raise].
  - intros Hext w. unfold open_image_any.
    destruct (String.eqb_spec (lower (suffix rel)) ".svg") as [Heq|_];
      [contradiction |].
    destruct (pil_open E data); reflexivity.
Qed.


Lemma run_rasterizer_exn o tmp w e w' :
  run_rasterizer o tmp w = (Raise e, w') -> is_Exception e = true.
Proof.
  unfold run_rasterizer, bind.
  destruct (ro_written o); unfold write_tmp, ret;
    destruct (ro_raises o); unfold raise, ret; intros H;
    try discriminate H; injection H as <- _; reflexivity.
Qed.

Lemma load_tmp_exn tmp w e w' :
  load_tmp E tmp w = (Raise e, w') -> is_Exception e = true.
Proof.
  unfold load_tmp. destruct (w_tmp w !! tmp) as [b|].
  - destruct (pil_open E b); unfold bind, unlink_tmp, raise, ret; intros H;
      try discriminate H; injection H as <- _; reflexivity.
  - unfold raise. intros H. injection H as <- _. reflexivity.
Qed.



Ltac attempt_cases E o tmp w :=
  let H1 := fresh "H1" in
  let H2 := fresh "H2" in
  destruct (run_rasterizer o tmp w) as [[[]|?] ?] eqn:H1;
  [ match goal with
    | |- context [load_tmp E tmp ?w2] =>
        destruct (load_tmp E tmp w2) as [[?|?] ?] eqn:H2;
        [ reflexivity
        | rewrite (load_tmp_exn _ _ _ _ H2); reflexivity ]
    end
  | rewrite (run_rasterizer_exn _ _ _ _ _ H1); reflexivity ].

Lemma open_svg_cairosvg rel data w :
  lower (suffix rel) = ".svg" ->
  open_image_any E rel data Cairosvg w =
    match raster_attempt E (cairosvg_svg2png E data)
            (with_suffix rel ".tmp._rasterized.png") w with
    | (Ret img, w') => (Ret (Some img), w')
    | (Raise _, w') => (Ret None, w')
    end.
Proof.
  intros Hext. unfold open_image_any, raster_attempt. rewrite Hext.
  cbn [String.eqb Ascii.eqb Bool.eqb engine_eqb engine_in existsb orb negb].
  unfold bind, try_except.
  attempt_cases E (cairosvg_svg2png E data)
    (with_suffix rel ".tmp._rasterized.png") w.
Qed.

Lemma open_svg_inkscape rel data w :
  lower (suffix rel) = ".svg" ->
  open_image_any E rel data Inkscape w =
    if which_inkscape E then
      match raster_attempt E (inkscape_export E data)
              (with_suffix rel ".tmp._rasterized.png") w with
      | (Ret img, w') => (Ret (Some img), w')
      | (Raise _, w') => (Ret None, w')
      end
    else (Ret None, w).
Proof.
  intros Hext. unfold open_image_any, raster_attempt. rewrite Hext.
  cbn [String.eqb Ascii.eqb Bool.eqb engine_eqb engine_in existsb orb negb].
  destruct (which_inkscape E); [|reflexivity].
  unfold bind, try_except. cbn [negb ret].
  attempt_cases E (inkscape_export E data)
    (with_suffix rel ".tmp._rasterized.png") w.
Qed.

Lemma open_svg_auto rel data w :
  lower (suffix rel) = ".svg" ->
  open_image_any E rel data Auto w =
    match raster_attempt E (cairosvg_svg2png E data)
            (with_suffix rel ".tmp._rasterized.png") w with
    | (Ret img, w') => (Ret (Some img), w')
    | (Raise _, w1) =>
        if which_inkscape E then
          match raster_attempt E (inkscape_export E data)
                  (with_suffix rel ".tmp._rasterized.png") w1 with
          | (Ret img, w') => (Ret (Some img), w')
          | (Raise _, w') => (Ret None, w')
          end
        else (Ret None, w1)
    end.
Proof.
  intros Hext. unfold open_image_any, raster_attempt. rewrite Hext.
  cbn [String.eqb Ascii.eqb Bool.eqb engine_eqb engine_in existsb orb negb].
  unfold bind, try_except.
  destruct (run_rasterizer (cairosvg_svg2png E data)
              (with_suffix rel ".tmp._rasterized.png") w) as [[[]|e1] w2] eqn:H1.
  - destruct (load_tmp E (with_suffix rel ".tmp._rasterized.png") w2)
      as [[img|e2] w3] eqn:H2; [reflexivity |].
    rewrite (load_tmp_exn _ _ _ _ H2). cbn [ret].
    destruct (which_inkscape E); [|reflexivity]. cbn [negb].
    attempt_cases E (inkscape_export E data)
      (with_suffix rel ".tmp._rasterized.png") w3.
  - rewrite (run_rasterizer_exn _ _ _ _ _ H1). cbn [ret].
    destruct (which_inkscape E); [|reflexivity]. cbn [negb].
    attempt_cases E (inkscape_export E data)
      (with_suffix rel ".tmp._rasterized.png") w2.
Qed.

(** X11.  The engine [auto] on an SVG is [cairosvg] first and, when that
    attempt gives nothing, [inkscape] run on the disk the failed attempt
    left. *)
Theorem open_image_any_auto rel data w :
  lower (suffix rel) = ".svg" ->
  open_image_any E rel data Auto w =
    match open_image_any E rel data Cairosvg w with
    | (Ret (Some img), w') => (Ret (Some img), w')
    | (Ret None, w1) => open_image_any E rel data Inkscape w1
    | (Raise e, w') => (Raise e, w')
    end.
Proof.
  intros Hext.
  rewrite (open_svg_auto rel data w Hext), (open_svg_cairosvg rel data w Hext).
  destruct (raster_attempt E (cairosvg_svg2png E data)
              (with_suffix rel ".tmp._rasterized.png") w) as [[img|e] w1];
    [reflexivity |].
  rewrite (open_svg_inkscape rel data w1 Hext). reflexivity.
Qed.


Lemma process_one_eq rel data out fs up eng w :
  process_one E rel data out fs up eng w =
    match open_image_any E rel data eng w with
    | (Ret (Some img), w1) =>
        match fit_into_frame img fs up with
        | Ret picon =>
            if png_save_ok E out
            then (Ret true,
                  snd (write_output out (snd (mkdir_output (parent out) w1))))
            else (Ret false, snd (mkdir_output (parent out) w1))
        | Raise e => (Raise e, w1)
        end
    | (Ret None, w1) => (Ret false, w1)
    | (Raise e, w1) => (Raise e, w1)
    end.
Proof.
  unfold process_one, bind.
  destruct (open_image_any E rel data eng w) as [[[img|]|e] w1]; try reflexivity.
  unfold lift. destruct (fit_into_frame img fs up); [|reflexivity].
  cbn. destruct (png_save_ok E out); reflexivity.
Qed.

Lemma process_one_frame rel data out fs up eng w :
  let r := fst (process_one E rel data out fs up eng w) in
  let w' := snd (process_one E rel data out fs up eng w) in
  w_cache w' = w_cache w /\
  match r with
  | Ret true => w_outputs w' = {[out]} ∪ w_outputs w /\ w_outdir w' = true
  | Ret false | Raise _ => w_outputs w' = w_outputs w
  end.
Proof.
  cbv zeta. rewrite process_one_eq.
  pose proof (open_image_any_frame rel data eng w) as Hl.
  cbv zeta in Hl. destruct Hl as (Ho & Hc & _).
  destruct (open_image_any E rel data eng w) as [[[img|]|e] w1];
    cbn [fst snd] in *; try (split; assumption).
  destruct (fit_into_frame img fs up) as [picon|e]; cbn [fst snd];
    [|split; assumption].
  destruct (png_save_ok E out); cbn; rewrite ?Ho, ?Hc; auto.
Qed.

(** X13.  [process_one] writes the output file exactly when it returns
    [True], after making sure its directory exists; when it returns
    [False] or raises, the set of output files is unchanged.  It never
    touches the cache file. *)
Theorem process_one_outcome rel data out fs up eng w :
  let r := fst (process_one E rel data out fs up eng w) in
  let w' := snd (process_one E rel data out fs up eng w) in
  w_cache w' = w_cache w /\
  match r with
  | Ret true => w_outputs w' = {[out]} ∪ w_outputs w /\ w_outdir w' = true
  | Ret false | Raise _ => w_outputs w' = w_outputs w
  end.
Proof.
  cbv zeta. rewrite process_one_eq.
  pose proof (open_image_any_frame rel data eng w) as Hl.
  cbv zeta in Hl. destruct Hl as (Ho & Hc & _).
  destruct (open_image_any E rel data eng w) as [[[img|]|e] w1];
    cbn [fst snd] in *; try (split; assumption).
  destruct (fit_into_frame img fs up) as [picon|e]; cbn [fst snd];
    [|split; assumption].
  destruct (png_save_ok E out); cbn; rewrite ?Ho, ?Hc; auto.
Qed.
End LoaderFrame.

(* ===================================================================== *)
(** ** Build planner: the decision, case by case *)
(* ===================================================================== *)


(** X14.  In mode [missing] a file whose entry carries the active
    configuration and whose output exists is skipped, whatever the stored
    and the present digest are: changed content alone does not rebuild. *)
Theorem decide_missing_keeps_output (fp fc : JSON) key h kvs ecfg :
  py_get fc key JNull = Ret (JDict kvs) ->
  assoc "cfg" kvs = Some ecfg ->
  py_eq ecfg fp = true ->
  decide Missing fp fc key h true = Ret (false, RAll).
Proof.
  intros Hget Hcfg Heq. unfold decide. cbn [mode_eqb]. rewrite Hget.
  cbn [res_bind is_None py_get]. rewrite Hcfg, Heq. reflexivity.
Qed.

Lemma decide_missing_keeps_output_witness :
  py_get demo_files "A/a.png" JNull =
    Ret (JDict [("src_sha1", JStr "sha1-of-bytes1");
                ("cfg", cfg_fingerprint demo_cfg)]) /\
  assoc "cfg" [("src_sha1", JStr "sha1-of-bytes1");
               ("cfg", cfg_fingerprint demo_cfg)] = Some (cfg_fingerprint demo_cfg) /\
  py_eq (cfg_fingerprint demo_cfg) (cfg_fingerprint demo_cfg) = true /\
  decide Missing (cfg_fingerprint demo_cfg) demo_files "A/a.png"
    "sha1-of-other-bytes" true = Ret (false, RAll).
Proof.
  assert (H1 : py_get demo_files "A/a.png" JNull =
               Ret (JDict [("src_sha1", JStr "sha1-of-bytes1");
                           ("cfg", cfg_fingerprint demo_cfg)])) by reflexivity.
  assert (H2 : assoc "cfg" [("src_sha1", JStr "sha1-of-bytes1");
                            ("cfg", cfg_fingerprint demo_cfg)]
               = Some (cfg_fingerprint demo_cfg)) by reflexivity.
  assert (H3 : py_eq (cfg_fingerprint demo_cfg) (cfg_fingerprint demo_cfg) = true)
    by reflexivity.
  refine (conj H1 (conj H2 (conj H3 _))).
  exact (decide_missing_keeps_output (cfg_fingerprint demo_cfg) demo_files
           "A/a.png" "sha1-of-other-bytes" _ _ H1 H2 H3).
Defined.

(** X15.  In mode [changed] a file whose entry carries the active
    configuration and the present digest is skipped even when its output
    file is absent: a deleted output is not rebuilt in this mode. *)
Theorem decide_changed_ignores_output (fp fc : JSON) key h oe kvs ecfg sh :
  py_get fc key JNull = Ret (JDict kvs) ->
  assoc "cfg" kvs = Some ecfg ->
  py_eq ecfg fp = true ->
  assoc "src_sha1" kvs = Some sh ->
  py_eq sh (JStr h) = true ->
  decide Changed fp fc key h oe = Ret (false, RAll).
Proof.
  intros Hget Hcfg Heq Hsha Hsh. unfold decide. cbn [mode_eqb]. rewrite Hget.
  cbn [res_bind is_None py_get]. rewrite Hcfg, Heq.
  cbn [negb andb res_bind]. rewrite Hsha, Hsh. cbn.
  rewrite andb_false_r. reflexivity.
Qed.

Lemma decide_changed_ignores_output_witness :
  py_get demo_files "A/a.png" JNull =
    Ret (JDict [("src_sha1", JStr "sha1-of-bytes1");
                ("cfg", cfg_fingerprint demo_cfg)]) /\
  assoc "cfg" [("src_sha1", JStr "sha1-of-bytes1");
               ("cfg", cfg_fingerprint demo_cfg)] = Some (cfg_fingerprint demo_cfg) /\
  py_eq (cfg_fingerprint demo_cfg) (cfg_fingerprint demo_cfg) = true /\
  assoc "src_sha1" [("src_sha1", JStr "sha1-of-bytes1");
                    ("cfg", cfg_fingerprint demo_cfg)] = Some (JStr "sha1-of-bytes1") /\
  py_eq (JStr "sha1-of-bytes1") (JStr "sha1-of-bytes1") = true /\
  decide Changed (cfg_fingerprint demo_cfg) demo_files "A/a.png"
    "sha1-of-bytes1" false = Ret (false, RAll).
Proof.
  assert (H1 : py_get demo_files "A/a.png" JNull =
               Ret (JDict [("src_sha1", JStr "sha1-of-bytes1");
                           ("cfg", cfg_fingerprint demo_cfg)])) by reflexivity.
  assert (H2 : assoc "cfg" [("src_sha1", JStr "sha1-of-bytes1");
                            ("cfg", cfg_fingerprint demo_cfg)]
               = Some (cfg_fingerprint demo_cfg)) by reflexivity.
  assert (H3 : py_eq (cfg_fingerprint demo_cfg) (cfg_fingerprint demo_cfg) = true)
    by reflexivity.
  assert (H4 : assoc "src_sha1" [("src_sha1", JStr "sha1-of-bytes1");
                                 ("cfg", cfg_fingerprint demo_cfg)]
               = Some (JStr "sha1-of-bytes1")) by reflexivity.
  assert (H5 : py_eq (JStr "sha1-of-bytes1") (JStr "sha1-of-bytes1") = true)
    by reflexivity.
  refine (conj H1 (conj H2 (conj H3 (conj H4 (conj H5 _))))).
  exact (decide_changed_ignores_output (cfg_fingerprint demo_cfg) demo_files
           "A/a.png" "sha1-of-bytes1" false _ _ _ H1 H2 H3 H4 H5).
Defined.

(** X16.  In mode [changed] a file whose entry carries the active
    configuration but not the present digest (another digest, or none) is
    built for reason content-changed, whether or not its output exists. *)
Theorem decide_changed_content (fp fc : JSON) key h oe kvs ecfg :
  py_get fc key JNull = Ret (JDict kvs) ->
  assoc "cfg" kvs = Some ecfg ->
  py_eq ecfg fp = true ->
  py_eq (match assoc "src_sha1" kvs with Some v => v | None => JNull end)
    (JStr h) = false ->
  decide Changed fp fc key h oe = Ret (true, RContentChanged).
Proof.
  intros Hget Hcfg Heq Hsh. unfold decide. cbn [mode_eqb]. rewrite Hget.
  cbn [res_bind is_None py_get]. rewrite Hcfg, Heq.
  cbn [negb andb res_bind]. rewrite Hsh. reflexivity.
Qed.

Lemma decide_changed_content_witness :
  py_get demo_files "A/a.png" JNull =
    Ret (JDict [("src_sha1", JStr "sha1-of-bytes1");
                ("cfg", cfg_fingerprint demo_cfg)]) /\
  assoc "cfg" [("src_sha1", JStr "sha1-of-bytes1");
               ("cfg", cfg_fingerprint demo_cfg)] = Some (cfg_fingerprint demo_cfg) /\
  py_eq (cfg_fingerprint demo_cfg) (cfg_fingerprint demo_cfg) = true /\
  py_eq (match assoc "src_sha1" [("src_sha1", JStr "sha1-of-bytes1");
                                 ("cfg", cfg_fingerprint demo_cfg)] with
         | Some v => v | None => JNull end)
    (JStr "sha1-of-other-bytes") = false /\
  decide Changed (cfg_fingerprint demo_cfg) demo_files "A/a.png"
    "sha1-of-other-bytes" true = Ret (true, RContentChanged).
Proof.
  assert (H1 : py_get demo_files "A/a.png" JNull =
               Ret (JDict [("src_sha1", JStr "sha1-of-bytes1");
                           ("cfg", cfg_fingerprint demo_cfg)])) by reflexivity.
  assert (H2 : assoc "cfg" [("src_sha1", JStr "sha1-of-bytes1");
                            ("cfg", cfg_fingerprint demo_cfg)]
               = Some (cfg_fingerprint demo_cfg)) by reflexivity.
  assert (H3 : py_eq (cfg_fingerprint demo_cfg) (cfg_fingerprint demo_cfg) = true)
    by reflexivity.
  assert (H4 : py_eq (match assoc "src_sha1"
                              [("src_sha1", JStr "sha1-of-bytes1");
                               ("cfg", cfg_fingerprint demo_cfg)] with
                      | Some v => v | None => JNull end)
                 (JStr "sha1-of-other-bytes") = false) by reflexivity.
  refine (conj H1 (conj H2 (conj H3 (conj H4 _)))).
  exact (decide_changed_content (cfg_fingerprint demo_cfg) demo_files
           "A/a.png" "sha1-of-other-bytes" true _ _ H1 H2 H3 H4).
Defined.

(** X17.  Outside mode [all] the decision raises [AttributeError] when
    the files object of the cache is not a dict, and when the entry of the
    file is neither absent, nor null, nor a dict. *)
Theorem decide_malformed (m : mode) (fp fc : JSON) key h oe :
  m <> All ->
  match fc with
  | JDict kvs =>
      match assoc key kvs with
      | None | Some JNull | Some (JDict _) => False
      | Some _ => True
      end
  | _ => True
  end ->
  decide m fp fc key h oe = Raise AttributeError.
Proof.
  intros Hm Hbad. unfold decide. rewrite (mode_eqb_All_false m Hm).
  destruct fc as [| | | | |kvs]; try reflexivity.
  cbn [py_get res_bind].
  destruct (assoc key kvs) as [[| | | | |ekvs]|]; try contradiction; reflexivity.
Qed.

Lemma decide_malformed_witness :
  Missing <> All /\
  match JDict [("A/a.png", JStr "done")] with
  | JDict kvs =>
      match assoc "A/a.png" kvs with
      | None | Some JNull | Some (JDict _) => False
      | Some _ => True
      end
  | _ => True
  end /\
  decide Missing (cfg_fingerprint demo_cfg) (JDict [("A/a.png", JStr "done")])
    "A/a.png" "sha1-of-bytes1" true = Raise AttributeError.
Proof.
  assert (H1 : Missing <> All) by discriminate.
  assert (H2 : match JDict [("A/a.png", JStr "done")] with
               | JDict kvs =>
                   match assoc "A/a.png" kvs with
                   | None | Some JNull | Some (JDict _) => False
                   | Some _ => True
                   end
               | _ => True
               end) by exact I.
  refine (conj H1 (conj H2 _)).
  exact (decide_malformed Missing (cfg_fingerprint demo_cfg)
           (JDict [("A/a.png", JStr "done")]) "A/a.png" "sha1-of-bytes1" true H1 H2).
Defined.

(* ===================================================================== *)
(** ** A run, decision by decision *)
(* ===================================================================== *)

Section RunFacts.
Context {F : Type} {FO : FloatOps F} {AL : Allocator}.
Variable E : env.

(** [main] after the clean step: an [AttributeError] on a cache document
    that is not a dict, else the notice of the override, if any, and the
    body. *)
Lemma main_steps (a : Args) (w : world) :
  input_ok E = true ->
  main E a w =
    let w0 := snd (clean_step a w) in
    match cache_doc (w_cache w0) with
    | JDict kvs =>
        let cc := match assoc "_config" kvs with Some v => v | None => JNull end in
        let forced := negb (py_eq cc (cfg_fingerprint (cfg a))) &&
                      negb (mode_eqb (arg_mode a) All) in
        main_body E a (effective_mode cc (cfg_fingerprint (cfg a)) (arg_mode a))
          (JDict kvs) (snd ((if forced then print LForced else ret tt) w0))
    | _ => (Raise AttributeError, w0)
    end.
Proof.
  intros Hin. unfold main. rewrite Hin. cbn [negb]. cbv zeta.
  destruct (clean_step_spec a w) as (w0 & Hc & _).
  rewrite Hc. cbn [snd].
  rewrite (bind_eval _ _ _ _ _ Hc).
  rewrite (bind_eval _ _ _ _ _ (load_cache_doc w0)).
  destruct (cache_doc (w_cache w0)) as [| | | | |kvs]; try reflexivity.
  rewrite (bind_eval _ _ w0 w0
             (match assoc "_config" kvs with Some v => v | None => JNull end))
    by reflexivity.
  destruct (notice_step_spec
              (negb (py_eq (match assoc "_config" kvs with
                            | Some v => v | None => JNull end)
                      (cfg_fingerprint (cfg a))) &&
               negb (mode_eqb (arg_mode a) All)) w0) as (w1 & Hp & _).
  rewrite (bind_eval _ _ _ _ _ Hp), Hp. reflexivity.
Qed.

Lemma loop_body_step (a : Args) (m : mode) c ls w d l :
  decision_of E m (cfg_fingerprint (cfg a)) (files_cache ls) w c = Ret d ->
  line_of E c d = Ret l ->
  let r := loop_body E a m c ls w in
  w_stdout (snd r) = w_stdout w ++ [l] /\
  w_cache (snd r) = w_cache w /\
  (w_outputs (snd r) = w_outputs w \/
   (dry_run a = false /\ w_outputs (snd r) = {[snd c]} ∪ w_outputs w)) /\
  (forall ls', fst r = Ret ls' ->
     files_cache ls' = files_cache ls \/
     (dry_run a = false /\
      exists v, py_setitem (files_cache ls) (cand_key c) v = Ret (files_cache ls'))).
Proof.
  destruct c as [e out]. unfold decision_of, cand_key, line_of. cbn [fst snd].
  intros Hd Hl. cbv zeta. destruct d as [[] rs]; cbn [fst snd] in Hl.
  - destruct (shown_path E out) as [shown|ex] eqn:Hsh; [|discriminate Hl].
    cbn [res_bind] in Hl. injection Hl as <-.
    rewrite (loop_body_build E a m e out ls w rs shown Hd Hsh). cbv zeta.
    set (w1 := snd (print (LBuild rs (e_rel e) shown) w)).
    assert (H1 : w_stdout w1 = w_stdout w ++ [LBuild rs (e_rel e) shown])
      by reflexivity.
    assert (H2 : w_cache w1 = w_cache w) by reflexivity.
    assert (H3 : w_outputs w1 = w_outputs w) by reflexivity.
    clearbody w1.
    destruct (dry_run a).
    + cbn [fst snd]. split; [exact H1 |]. split; [exact H2 |].
      split; [left; exact H3 |].
      intros ls' H. injection H as <-. left. reflexivity.
    + pose proof (process_one_stdout E (e_rel e) (e_bytes e) out
                    (frame_w (cfg a), frame_h (cfg a)) (allow_upscale (cfg a))
                    (engine (cfg a)) w1) as Hp.
      pose proof (process_one_frame E (e_rel e) (e_bytes e) out
                    (frame_w (cfg a), frame_h (cfg a)) (allow_upscale (cfg a))
                    (engine (cfg a)) w1) as Hf.
      cbv zeta in Hf.
      destruct (process_one E _ _ _ _ _ _ w1) as [[[]|ex] w2];
        cbn [fst snd] in Hp, Hf; destruct Hf as (Hc & Ho);
        rewrite H1 in Hp; rewrite H2 in Hc; rewrite H3 in Ho.
      * destruct Ho as (Ho & _).
        destruct (py_setitem (files_cache ls) (norm_key (e_rel e)) _)
          as [fc'|ex] eqn:Hs; cbn [fst snd];
          (split; [exact Hp |]); (split; [exact Hc |]);
          (split; [right; split; [reflexivity | exact Ho] |]).
        -- intros ls' H. injection H as <-. right. split; [reflexivity |].
           cbn [files_cache]. eauto.
        -- discriminate.
      * cbn [fst snd]. split; [exact Hp |]. split; [exact Hc |].
        split; [left; exact Ho |].
        intros ls' H. injection H as <-. left. reflexivity.
      * cbn [fst snd]. split; [exact Hp |]. split; [exact Hc |].
        split; [left; exact Ho | discriminate].
  - injection Hl as <-.
    rewrite (loop_body_skip E a m e out ls w rs Hd). cbn [fst snd].
    split; [reflexivity |].
    split; [reflexivity |]. split; [left; reflexivity |].
    intros ls' H. injection H as <-. left. reflexivity.
Qed.

(** A decision whose line cannot be written ends the run before anything
    is printed or built for the candidate. *)
Lemma loop_body_unshown (a : Args) (m : mode) c ls w d ex :
  decision_of E m (cfg_fingerprint (cfg a)) (files_cache ls) w c = Ret d ->
  line_of E c d = Raise ex ->
  loop_body E a m c ls w = (Raise ex, w).
Proof.
  destruct c as [e out]. unfold decision_of, cand_key, line_of. cbn [fst snd].
  intros Hd Hl. destruct d as [[] rs]; cbn [fst snd] in Hl; [|discriminate Hl].
  destruct (shown_path E out) as [shown|ex'] eqn:Hsh; [discriminate Hl |].
  injection Hl as ->.
  exact (loop_body_hidden E a m e out ls w rs ex Hd Hsh).
Qed.

Lemma loop_body_undecided (a : Args) (m : mode) c ls w ex :
  decision_of E m (cfg_fingerprint (cfg a)) (files_cache ls) w c = Raise ex ->
  loop_body E a m c ls w = (Raise ex, w).
Proof.
  destruct c as [e out]. unfold decision_of, cand_key. cbn [fst snd].
  apply (loop_body_raise E).
Qed.




(** The body of [main] on a cache document that is a dict: the build
    loop, then, unless the run is dry, the save of the document with its
    [_config] and [files] replaced. *)
Lemma main_body_eq (a : Args) (m : mode) (kvs : list (string * JSON)) (w : world) :
  main_body E a m (JDict kvs) w =
    match build_loop E a m (to_process E a)
            {| files_cache :=
                 match assoc "files" kvs with Some v => v | None => JDict [] end;
               total := 0; ok := 0; skipped := 0 |} w with
    | (Ret ls, w1) =>
        let s := {| s_total := total ls; s_ok := ok ls; s_skipped := skipped ls;
                    s_mode := m |} in
        let doc := JDict (assoc_set "files" (files_cache ls)
                            (assoc_set "_config" (cfg_fingerprint (cfg a)) kvs)) in
        if dry_run a then (Ret s, w1)
        else
          match save_cache (cache_write E doc) doc (snd (mkdir_output [] w1)) with
          | (Ret _, w2) => (Ret s, w2)
          | (Raise e, w2) => (Raise e, w2)
          end
    | (Raise e, w1) => (Raise e, w1)
    end.
Proof.
  unfold main_body.
  rewrite (bind_eval _ _ w w
             (match assoc "files" kvs with Some v => v | None => JDict [] end))
    by reflexivity.
  destruct (build_loop E a m (to_process E a) _ w) as [[ls|ex] w1] eqn:Hb.
  - rewrite (bind_eval _ _ _ _ _ Hb). cbv zeta.
    destruct (dry_run a); [reflexivity |]. cbn [negb].
    unfold bind, lift, mkdir_output. cbn [py_setitem snd].
    destruct (save_cache _ _ _) as [[[]|ex] w2]; reflexivity.
  - rewrite (bind_eval_raise _ _ _ _ _ Hb). reflexivity.
Qed.


Lemma loop_body_cache (a : Args) (m : mode) c ls w :
  w_cache (snd (loop_body E a m c ls w)) = w_cache w.
Proof.
  destruct (decision_of E m (cfg_fingerprint (cfg a)) (files_cache ls) w c)
    as [d|ex] eqn:Hd.
  - destruct (line_of E c d) as [l|ex] eqn:Hl.
    + pose proof (loop_body_step a m c ls w d l Hd Hl) as H. cbv zeta in H.
      destruct H as (_ & H & _). exact H.
    + rewrite (loop_body_unshown a m c ls w d ex Hd Hl). reflexivity.
  - rewrite (loop_body_undecided a m c ls w ex Hd). reflexivity.
Qed.

Lemma build_loop_cache (a : Args) (m : mode) cs ls w :
  w_cache (snd (build_loop E a m cs ls w)) = w_cache w.
Proof.
  revert ls w. induction cs as [|c cs IH]; intros ls w; [reflexivity |].
  cbn [build_loop]. pose proof (loop_body_cache a m c ls w) as Hc.
  destruct (loop_body E a m c ls w) as [[ls1|ex] w1] eqn:Hb; cbn [snd] in Hc.
  - rewrite (bind_eval _ _ _ _ _ Hb), IH. exact Hc.
  - rewrite (bind_eval_raise _ _ _ _ _ Hb). exact Hc.
Qed.

(** The counters and the files dict after one turn. *)
Lemma loop_body_tally (a : Args) (m : mode) c ls w ls1 w1 :
  loop_body E a m c ls w = (Ret ls1, w1) ->
  total ls1 = S (total ls) /\
  ok ls <= ok ls1 /\
  ok ls1 + skipped ls1 <= S (ok ls + skipped ls) /\
  (dry_run a = false -> ok ls1 + skipped ls1 = S (ok ls + skipped ls)) /\
  (dry_run a = true -> ok ls1 = ok ls) /\
  (ok ls1 = ok ls -> files_cache ls1 = files_cache ls) /\
  (forall k d, k <> cand_key c ->
     py_get (files_cache ls1) k d = py_get (files_cache ls) k d).
Proof.
  destruct c as [e out]. intros H.
  destruct (decide m (cfg_fingerprint (cfg a)) (files_cache ls) (norm_key (e_rel e))
              (sha1_hex E (e_bytes e)) (mem_out out w)) as [[[] r]|ex] eqn:Hd.
  - destruct (shown_path E out) as [shown|ex] eqn:Hsh;
      [|rewrite (loop_body_hidden E a m e out ls w r ex Hd Hsh) in H; discriminate].
    rewrite (loop_body_build E a m e out ls w r shown Hd Hsh) in H. cbv zeta in H.
    destruct (dry_run a).
    + injection H as <- _. cbn. repeat split; auto; lia.
    + destruct (process_one E _ _ _ _ _ _ _) as [[[]|ex] w2]; [| |discriminate].
      * destruct (files_cache ls) as [| | | | |kvs] eqn:Hfc; try discriminate.
        cbn in H. injection H as <- _. cbn.
        repeat split; try lia; try discriminate.
        intros k d Hk. unfold cand_key in Hk. cbn [fst] in Hk.
        rewrite assoc_set_ne by congruence. reflexivity.
      * injection H as <- _. cbn. repeat split; auto; try lia; discriminate.
  - rewrite (loop_body_skip E a m e out ls w r Hd) in H.
    injection H as <- _. cbn. repeat split; auto; lia.
  - rewrite (loop_body_raise E a m e out ls w ex Hd) in H. discriminate.
Qed.

Lemma build_loop_tally (a : Args) (m : mode) cs ls w ls' w' :
  build_loop E a m cs ls w = (Ret ls', w') ->
  total ls' = total ls + List.length cs /\
  ok ls <= ok ls' /\
  ok ls' + skipped ls' <= ok ls + skipped ls + List.length cs /\
  (dry_run a = false ->
   ok ls' + skipped ls' = ok ls + skipped ls + List.length cs) /\
  (dry_run a = true -> ok ls' = ok ls) /\
  (ok ls' = ok ls -> files_cache ls' = files_cache ls) /\
  (forall k d, k ∉ map cand_key cs ->
     py_get (files_cache ls') k d = py_get (files_cache ls) k d).
Proof.
  revert ls w. induction cs as [|c cs IH]; intros ls w H.
  - injection H as <- _. cbn. repeat split; auto; lia.
  - cbn [build_loop] in H. apply bind_Ret_inv in H as (ls1 & w1 & Hb & H).
    destruct (loop_body_tally a m c ls w ls1 w1 Hb)
      as (Ht & Hok & Hsk & Hnd & Hdry & Hfc & Hk).
    destruct (IH ls1 w1 H) as (Ht' & Hok' & Hsk' & Hnd' & Hdry' & Hfc' & Hk').
    cbn [List.length]. split; [lia |]. split; [lia |]. split; [lia |].
    split; [intros Hd; specialize (Hnd Hd); specialize (Hnd' Hd); lia |].
    split; [intros Hd; rewrite (Hdry' Hd); exact (Hdry Hd) |].
    split.
    + intros Heq. rewrite Hfc' by lia. apply Hfc. lia.
    + intros k d Hnotin. cbn [map] in Hnotin.
      apply not_elem_of_cons in Hnotin as [Hk1 Hk2].
      rewrite (Hk' k d Hk2). apply Hk. exact Hk1.
Qed.


Lemma notice_step_cache (c : bool) (w : world) :
  w_cache (snd ((if c then print LForced else ret tt) w)) = w_cache w.
Proof. destruct c; reflexivity. Qed.

(** A run that returns: its cache document was a dict, its build loop
    returned, and the summary and the final world are those of the
    loop. *)
Lemma returned_run (a : Args) (w w' : world) (s : summary) :
  main E a w = (Ret s, w') ->
  exists kvs ls w1 w2,
    cache_doc (w_cache (snd (clean_step a w))) = JDict kvs /\
    w_cache w1 = w_cache (snd (clean_step a w)) /\
    build_loop E a
      (effective_mode
         (match assoc "_config" kvs with Some v => v | None => JNull end)
         (cfg_fingerprint (cfg a)) (arg_mode a))
      (to_process E a)
      {| files_cache :=
           match assoc "files" kvs with Some v => v | None => JDict [] end;
         total := 0; ok := 0; skipped := 0 |} w1 = (Ret ls, w2) /\
    s_total s = total ls /\ s_ok s = ok ls /\ s_skipped s = skipped ls /\
    w' = (if dry_run a then w2
          else snd (save_cache Written
                      (JDict (assoc_set "files" (files_cache ls)
                                (assoc_set "_config" (cfg_fingerprint (cfg a)) kvs)))
                      (snd (mkdir_output [] w2)))).
Proof.
  intros Hrun.
  assert (Hin : input_ok E = true).
  { destruct (input_ok E) eqn:Hin; [reflexivity |].
    unfold main in Hrun. rewrite Hin in Hrun. discriminate. }
  rewrite (main_steps a w Hin) in Hrun. cbv zeta in Hrun.
  destruct (cache_doc (w_cache (snd (clean_step a w)))) as [| | | | |kvs];
    try discriminate Hrun.
  rewrite main_body_eq in Hrun.
  exists kvs.
  set (w1 := snd ((if negb (py_eq
                              (match assoc "_config" kvs with
                               | Some v => v | None => JNull end)
                              (cfg_fingerprint (cfg a))) &&
                      negb (mode_eqb (arg_mode a) All)
                   then print LForced else ret tt) (snd (clean_step a w)))) in *.
  assert (Hw1 : w_cache w1 = w_cache (snd (clean_step a w)))
    by apply notice_step_cache.
  clearbody w1.
  destruct (build_loop E a _ (to_process E a) _ w1) as [[ls|ex] w2] eqn:Hb;
    [|discriminate Hrun].
  exists ls, w1, w2. cbv zeta in Hrun.
  split; [reflexivity |]. split; [exact Hw1 |]. split; [exact Hb |].
  destruct (dry_run a).
  - injection Hrun as <- <-. repeat split; reflexivity.
  - destruct (cache_write E _) as [|[] ex]; try discriminate Hrun.
    injection Hrun as <- <-. repeat split; reflexivity.
Qed.

(** X19.  A run that writes to disk and returns leaves a cache document
    whose [_config] is the fingerprint of its configuration; the other
    keys of the document, and the entries of the files that were not
    candidates of this run, are as they were loaded. *)
Theorem saved_cache_keeps_other_entries (a : Args) (w w' : world) (s : summary) :
  dry_run a = false ->
  main E a w = (Ret s, w') ->
  exists kvs kvs' fc',
    cache_doc (w_cache (snd (clean_step a w))) = JDict kvs /\
    w_cache w' = DocFile (JDict kvs') /\
    assoc "_config" kvs' = Some (cfg_fingerprint (cfg a)) /\
    assoc "files" kvs' = Some fc' /\
    (forall k, k <> "_config" -> k <> "files" -> assoc k kvs' = assoc k kvs) /\
    (forall k d, k ∉ map cand_key (to_process E a) ->
       py_get fc' k d =
       py_get (match assoc "files" kvs with Some v => v | None => JDict [] end) k d).
Proof.
  intros Hdry Hrun.
  destruct (returned_run a w w' s Hrun)
    as (kvs & ls & w1 & w2 & Hdoc & _ & Hloop & _ & _ & _ & ->).
  rewrite Hdry.
  exists kvs, (assoc_set "files" (files_cache ls)
                 (assoc_set "_config" (cfg_fingerprint (cfg a)) kvs)),
         (files_cache ls).
  split; [exact Hdoc |]. split; [reflexivity |].
  split; [rewrite assoc_set_ne by discriminate; apply assoc_set_eq |].
  split; [apply assoc_set_eq |]. split.
  - intros k Hk1 Hk2. rewrite !assoc_set_ne by congruence. reflexivity.
  - destruct (build_loop_tally a _ _ _ _ _ _ Hloop) as (_ & _ & _ & _ & _ & _ & Hk).
    exact Hk.
Qed.

(** X20.  A run that returns without a successful build ([ok] is zero:
    every candidate skipped or failed, or a dry run) holds at its end the
    files dict it loaded: an entry is created or replaced only by a
    successful build.  A dry run leaves the cache file alone; the other
    runs save the loaded document with its [_config] refreshed. *)
Theorem no_build_no_entry (a : Args) (w w' : world) (s : summary) :
  main E a w = (Ret s, w') ->
  s_ok s = 0 ->
  exists kvs,
    cache_doc (w_cache (snd (clean_step a w))) = JDict kvs /\
    (dry_run a = true -> w_cache w' = w_cache (snd (clean_step a w))) /\
    (dry_run a = false ->
     w_cache w' =
       DocFile (JDict (assoc_set "files"
                         (match assoc "files" kvs with
                          | Some v => v | None => JDict [] end)
                         (assoc_set "_config" (cfg_fingerprint (cfg a)) kvs)))).
Proof.
  intros Hrun Hok.
  destruct (returned_run a w w' s Hrun)
    as (kvs & ls & w1 & w2 & Hdoc & Hw1 & Hloop & _ & Hoks & _ & ->).
  exists kvs. split; [exact Hdoc |].
  destruct (build_loop_tally a _ _ _ _ _ _ Hloop) as (_ & _ & _ & _ & _ & Hfc & _).
  cbn [ok files_cache] in Hfc. rewrite Hfc by lia.
  assert (Hc : w_cache w2 = w_cache w1).
  { change w2 with (snd (Ret ls, w2)). rewrite <- Hloop. apply build_loop_cache. }
  split; intros Hd; rewrite Hd; [|reflexivity].
  rewrite Hc. exact Hw1.
Qed.

(** X21.  The summary of a run that returns: [total] is the number of
    candidates; on a run that writes to disk every candidate is counted
    once, as built or as skipped; on a dry run nothing is counted as
    built. *)
Theorem summary_counts (a : Args) (w w' : world) (s : summary) :
  main E a w = (Ret s, w') ->
  s_total s = List.length (to_process E a) /\
  s_ok s + s_skipped s <= s_total s /\
  (dry_run a = false -> s_ok s + s_skipped s = s_total s) /\
  (dry_run a = true -> s_ok s = 0).
Proof.
  intros Hrun.
  destruct (returned_run a w w' s Hrun)
    as (kvs & ls & w1 & w2 & _ & _ & Hloop & -> & -> & -> & _).
  destruct (build_loop_tally a _ _ _ _ _ _ Hloop)
    as (Ht & _ & Hle & Hnd & Hdry & _ & _).
  cbn [total ok skipped] in *.
  split; [lia |]. split; [lia |].
  split; [intros Hd; specialize (Hnd Hd); lia | exact Hdry].
Qed.


(** X23.  When the cache file holds a JSON document that is not an
    object, the run raises [AttributeError] right after the clean step:
    no candidate is decided and nothing is built. *)
Theorem non_dict_cache_aborts (a : Args) (w : world) :
  input_ok E = true ->
  (forall kvs, cache_doc (w_cache (snd (clean_step a w))) <> JDict kvs) ->
  main E a w = (Raise AttributeError, snd (clean_step a w)).
Proof.
  intros Hin Hbad. rewrite (main_steps a w Hin). cbv zeta.
  destruct (cache_doc (w_cache (snd (clean_step a w)))) as [| | | | |kvs];
    try reflexivity.
  exfalso. exact (Hbad kvs eq_refl).
Qed.
End RunFacts.

(* ===================================================================== *)
(** ** Frame transform and patterns: more properties *)
(* ===================================================================== *)

(** X24.  When Pillow can make the resized logo and the frame, the
    frame [fit_into_frame] returns for a bitmap of positive size holds
    exactly one paste: the resized logo, at least one pixel wide and high
    whatever the scale comes to, at the offset that is half of the room
    left, rounded down, on each axis. *)
Theorem fit_into_frame_paste
    {F : Type} {FO : FloatOps F} {AL : Allocator}
    (logo : image) (fw fh : Z) (up : bool) :
  (0 < fst (im_size logo))%Z ->
  (0 < snd (im_size logo))%Z ->
  (0 <= fw)%Z ->
  (0 <= fh)%Z ->
  pil_fits (scaled_size logo (fw, fh) up) ->
  pil_fits (fw, fh) ->
  exists frame nw nh,
    fit_into_frame logo (fw, fh) up = Ret frame /\
    scaled_size logo (fw, fh) up = (nw, nh) /\
    im_pasted frame = [(((fw - nw) / 2)%Z, ((fh - nh) / 2)%Z, (nw, nh))] /\
    (1 <= nw)%Z /\ (1 <= nh)%Z.
Proof.
  intros Hlw Hlh Hfw Hfh Hs Hf.
  rewrite fit_into_frame_eq by lia.
  destruct (scaled_size_positive logo (fw, fh) up) as (H1 & H2).
  destruct (scaled_size logo (fw, fh) up) as [nw nh] eqn:Hsz.
  cbn [fst snd] in *.
  destruct (resize_fits logo nw nh ltac:(lia) ltac:(lia) Hs) as (r & -> & Hr).
  cbn [res_bind]. rewrite image_new_fits by (try lia; exact Hf).
  cbn [res_bind]. eexists _, nw, nh. split; [reflexivity |].
  split; [reflexivity |]. cbn [paste im_pasted app]. rewrite Hr.
  split; [reflexivity |]. split; assumption.
Qed.

Lemma fit_into_frame_paste_witness :
  (0 < fst (im_size demo_image))%Z /\
  (0 < snd (im_size demo_image))%Z /\
  (0 <= 100)%Z /\ (0 <= 50)%Z /\
  pil_fits (scaled_size (F := Q) demo_image (100, 50)%Z true) /\
  pil_fits (100, 50)%Z /\
  exists frame nw nh,
    fit_into_frame (F := Q) demo_image (100, 50)%Z true = Ret frame /\
    scaled_size (F := Q) demo_image (100, 50)%Z true = (nw, nh) /\
    im_pasted frame = [(((100 - nw) / 2)%Z, ((50 - nh) / 2)%Z, (nw, nh))] /\
    (1 <= nw)%Z /\ (1 <= nh)%Z.
Proof.
  assert (H1 : (0 < fst (im_size demo_image))%Z) by (simpl; lia).
  assert (H2 : (0 < snd (im_size demo_image))%Z) by (simpl; lia).
  assert (H3 : (0 <= 100)%Z) by lia.
  assert (H4 : (0 <= 50)%Z) by lia.
  assert (H5 : pil_fits (scaled_size (F := Q) demo_image (100, 50)%Z true))
    by (vm_compute; repeat split; discriminate).
  assert (H6 : pil_fits (100, 50)%Z)
    by (vm_compute; repeat split; discriminate).
  refine (conj H1 (conj H2 (conj H3 (conj H4 (conj H5 (conj H6 _)))))).
  exact (fit_into_frame_paste (F := Q) demo_image 100 50 true H1 H2 H3 H4 H5 H6).
Defined.



(** [matches_any_pattern] holds exactly when one of the patterns matches
    the relative path written with forward slashes. *)
Lemma matches_any_pattern_iff
    (pm : string -> string -> bool) (rel : list string) (pats : gset string) :
  matches_any_pattern pm rel pats = true <->
  exists pat, pat ∈ pats /\ pm (norm_key rel) pat = true.
Proof.
  unfold matches_any_pattern. rewrite existsb_exists. split.
  - intros (pat & Hin & Hm). exists pat. split; [|exact Hm].
    apply elem_of_elements, list_elem_of_In. exact Hin.
  - intros (pat & Hin & Hm). exists pat. split; [|exact Hm].
    apply list_elem_of_In, elem_of_elements. exact Hin.
Qed.

(* ===================================================================== *)
(** ** The further theorems at the small input tree *)
(* ===================================================================== *)

Ltac seg_ok_tac := unfold seg_ok; split; [discriminate | split; reflexivity].

Ltac path_ok_tac :=
  unfold path_ok; repeat (apply Forall_cons; split; [seg_ok_tac |]);
  constructor.

Lemma norm_key_inj_witness :
  path_ok ["A"; "a.png"] /\ path_ok ["A"; "a.png"] /\
  norm_key ["A"; "a.png"] = norm_key ["A"; "a.png"] /\
  ["A"; "a.png"] = ["A"; "a.png"].
Proof.
  assert (H1 : path_ok ["A"; "a.png"]) by path_ok_tac.
  assert (H3 : norm_key ["A"; "a.png"] = norm_key ["A"; "a.png"]) by reflexivity.
  refine (conj H1 (conj H1 (conj H3 _))).
  exact (norm_key_inj ["A"; "a.png"] ["A"; "a.png"] H1 H1 H3).
Defined.

Lemma to_process_sound_witness :
  let c := ({| e_rel := ["A"; "a.png"]; e_is_dir := false; e_bytes := "bytes1" |},
            ["A"; "sxa_a.png"]) in
  c ∈ to_process demo_env demo_args /\
  (fst c ∈ tree demo_env /\
   e_is_dir (fst c) = false /\
   lower (suffix (e_rel (fst c))) ∈ IMAGE_EXTS /\
   snd c = out_rel_of (prefix (cfg demo_args)) (e_rel (fst c)) /\
   (forall top, top_level_dir_of (e_rel (fst c)) = Some top ->
      (top ∉ exclude_set demo_args) /\
      (only_set demo_args = ∅ \/ top ∈ only_set demo_args))).
Proof.
  intros c.
  assert (H1 : c ∈ to_process demo_env demo_args).
  { rewrite (demo_candidates demo_args eq_refl eq_refl eq_refl eq_refl).
    apply elem_of_cons. left. reflexivity. }
  refine (conj H1 _).
  exact (to_process_sound demo_env demo_args c H1).
Defined.

Lemma to_process_distinct_keys_witness :
  NoDup (map e_rel (tree demo_env)) /\
  Forall (fun e => path_ok (e_rel e)) (tree demo_env) /\
  NoDup (map cand_key (to_process demo_env demo_args)).
Proof.
  assert (H1 : NoDup (map e_rel (tree demo_env))).
  { cbn. repeat (apply NoDup_cons; split;
                 [rewrite ?elem_of_cons, elem_of_nil; intros H;
                  repeat destruct H as [H | H]; try discriminate H; exact H |]).
    apply NoDup_nil. exact I. }
  assert (H2 : Forall (fun e => path_ok (e_rel e)) (tree demo_env)).
  { cbn. repeat (apply Forall_cons; split; [cbn; path_ok_tac |]).
    constructor. }
  refine (conj H1 (conj H2 _)).
  exact (to_process_distinct_keys demo_env demo_args H1 H2).
Defined.



Lemma open_image_any_auto_witness :
  lower (suffix ["B"; "b.svg"]) = ".svg" /\
  open_image_any bad_raster_env ["B"; "b.svg"] "bytes2" Auto empty_world =
    match open_image_any bad_raster_env ["B"; "b.svg"] "bytes2" Cairosvg
            empty_world with
    | (Ret (Some img), w') => (Ret (Some img), w')
    | (Ret None, w1) =>
        open_image_any bad_raster_env ["B"; "b.svg"] "bytes2" Inkscape w1
    | (Raise e, w') => (Raise e, w')
    end.
Proof.
  assert (H1 : lower (suffix ["B"; "b.svg"]) = ".svg") by reflexivity.
  refine (conj H1 _).
  exact (open_image_any_auto bad_raster_env ["B"; "b.svg"] "bytes2"
           empty_world H1).
Defined.



Lemma saved_cache_keeps_other_entries_witness :
  let a := demo_args in
  let w := empty_world in
  let s := {| s_total := 2; s_ok := 2; s_skipped := 0; s_mode := All |} in
  let w' := snd (main (F := Q) demo_env a w) in
  dry_run a = false /\
  main (F := Q) demo_env a w = (Ret s, w') /\
  exists kvs kvs' fc',
    cache_doc (w_cache (snd (clean_step a w))) = JDict kvs /\
    w_cache w' = DocFile (JDict kvs') /\
    assoc "_config" kvs' = Some (cfg_fingerprint (cfg a)) /\
    assoc "files" kvs' = Some fc' /\
    (forall k, k <> "_config" -> k <> "files" -> assoc k kvs' = assoc k kvs) /\
    (forall k d, k ∉ map cand_key (to_process demo_env a) ->
       py_get fc' k d =
       py_get (match assoc "files" kvs with Some v => v | None => JDict [] end) k d).
Proof.
  intros a w s w'.
  assert (H1 : dry_run a = false) by reflexivity.
  assert (H2 : main (F := Q) demo_env a w = (Ret s, w'))
    by (subst a w s w'; vm_compute; reflexivity).
  refine (conj H1 (conj H2 _)).
  exact (saved_cache_keeps_other_entries (F := Q) demo_env a w w' s H1 H2).
Defined.

Lemma no_build_no_entry_witness :
  let a := dry_clean_args in
  let w := cached_world in
  let s := {| s_total := 2; s_ok := 0; s_skipped := 0; s_mode := All |} in
  let w' := snd (main (F := Q) demo_env a w) in
  main (F := Q) demo_env a w = (Ret s, w') /\
  s_ok s = 0 /\
  exists kvs,
    cache_doc (w_cache (snd (clean_step a w))) = JDict kvs /\
    (dry_run a = true -> w_cache w' = w_cache (snd (clean_step a w))) /\
    (dry_run a = false ->
     w_cache w' =
       DocFile (JDict (assoc_set "files"
                         (match assoc "files" kvs with
                          | Some v => v | None => JDict [] end)
                         (assoc_set "_config" (cfg_fingerprint (cfg a)) kvs)))).
Proof.
  intros a w s w'.
  assert (H1 : main (F := Q) demo_env a w = (Ret s, w'))
    by (subst a w s w'; vm_compute; reflexivity).
  assert (H2 : s_ok s = 0) by reflexivity.
  refine (conj H1 (conj H2 _)).
  exact (no_build_no_entry (F := Q) demo_env a w w' s H1 H2).
Defined.

Lemma summary_counts_witness :
  let a := demo_args in
  let w := empty_world in
  let s := {| s_total := 2; s_ok := 2; s_skipped := 0; s_mode := All |} in
  let w' := snd (main (F := Q) demo_env a w) in
  main (F := Q) demo_env a w = (Ret s, w') /\
  (s_total s = List.length (to_process demo_env a) /\
   s_ok s + s_skipped s <= s_total s /\
   (dry_run a = false -> s_ok s + s_skipped s = s_total s) /\
   (dry_run a = true -> s_ok s = 0)).
Proof.
  intros a w s w'.
  assert (H1 : main (F := Q) demo_env a w = (Ret s, w'))
    by (subst a w s w'; vm_compute; reflexivity).
  refine (conj H1 _).
  exact (summary_counts (F := Q) demo_env a w w' s H1).
Defined.


(** A save that fails after opening the cache file: the documents of the
    earlier runs are lost. *)
Lemma failed_save_empties_cache_file :
  w_cache (snd (main (F := Q) unencodable_env demo_args cached_world)) = BadFile.
Proof. vm_compute. reflexivity. Qed.

Lemma non_dict_cache_aborts_witness :
  input_ok demo_env = true /\
  (forall kvs,
     cache_doc (w_cache (snd (clean_step demo_args list_cache_world))) <> JDict kvs) /\
  main (F := Q) demo_env demo_args list_cache_world =
    (Raise AttributeError, snd (clean_step demo_args list_cache_world)).
Proof.
  assert (H1 : input_ok demo_env = true) by reflexivity.
  assert (H2 : forall kvs,
             cache_doc (w_cache (snd (clean_step demo_args list_cache_world)))
             <> JDict kvs) by (intros kvs; cbn; discriminate).
  refine (conj H1 (conj H2 _)).
  exact (non_dict_cache_aborts (F := Q) demo_env demo_args list_cache_world H1 H2).
Defined.

Lemma open_image_any_svg_success_unlinks_witness :
  let r := open_image_any demo_env ["B"; "b.svg"] "bytes2" Auto empty_world in
  lower (suffix ["B"; "b.svg"]) = ".svg" /\
  r = (Ret (Some demo_image), snd r) /\
  w_tmp (snd r) !! with_suffix ["B"; "b.svg"] ".tmp._rasterized.png" = None.
Proof.
  intros r.
  assert (H1 : lower (suffix ["B"; "b.svg"]) = ".svg") by reflexivity.
  assert (H2 : r = (Ret (Some demo_image), snd r))
    by (subst r; vm_compute; reflexivity).
  refine (conj H1 (conj H2 _)).
  exact (open_image_any_svg_success_unlinks demo_env ["B"; "b.svg"] "bytes2" Auto
           empty_world demo_image (snd r) H1 H2).
Defined.
